(** * Context-retrieval server: the matching engine of [mcp-server/server.py]

    A shallow embedding of the seven query tools' scoring core:
    [list_subsystems], [get_files_for_subsystem], [find_relevant_context],
    [suggest_agent] and [search_context_documents], over the two static
    tables [SUBSYSTEMS] and [AGENTS].

    Modelling choices.
    - Python [str] is [string]: the bytes of its UTF-8 encoding.
      Equality, concatenation, the substring test [in] and the order of
      strings are those of the bytes.  A character is an ASCII byte, or a
      leading byte with its continuation bytes.
    - [suggest_agent] tokenises with [\w], splits on white space, counts
      characters and lower-cases.  On ASCII characters the classes are
      fixed tables; beyond ASCII they belong to the Unicode character
      database, which is a parameter of the model ([Unicode.database]),
      and the theorems on [suggest_agent] hold for every database.
    - [find_relevant_context] and [search_context_documents] only
      lower-case; [Py.lower] folds the ASCII letters, which is
      [str.lower()] on text whose other characters have no case.
    - A Python [dict] is an association list in insertion order, which is
      the order [.items()], [.keys()] and [.values()] iterate in.
    - A Python [float] is an IEEE 754 binary64 value, [spec_float] with
      precision 53 and maximal exponent 1024, with the Standard Library's
      round-to-nearest-even operations.
    - The tools take the tables (and the document directory) as arguments;
      the module-level tables of the source are the constants [SUBSYSTEMS]
      and [AGENTS]. *)

From Stdlib Require Import Bool Arith PeanoNat ZArith Lia List Ascii String.
From Stdlib Require Import Sorting.Permutation Sorting.Sorted SpecFloat.
Import ListNotations.
Open Scope string_scope.
Open Scope list_scope.
Open Scope nat_scope.

(* ================================================================== *)
(** * Python string primitives *)

Module Py.

(** [c.isupper()] for an ASCII letter. *)
Definition is_upper (c : ascii) : bool :=
  let n := nat_of_ascii c in (65 <=? n) && (n <=? 90).

Definition lower_char (c : ascii) : ascii :=
  if is_upper c then ascii_of_nat (nat_of_ascii c + 32) else c.

(** [s.lower()] on the ASCII letters. *)
Fixpoint lower (s : string) : string :=
  match s with
  | EmptyString => EmptyString
  | String c s' => String (lower_char c) (lower s')
  end.

(** The ASCII characters of the class [\w] of [re]: letters, digits
    and the underscore. *)
Definition is_word_char (c : ascii) : bool :=
  let n := nat_of_ascii c in
  ((48 <=? n) && (n <=? 57)) || ((65 <=? n) && (n <=? 90))
  || (n =? 95) || ((97 <=? n) && (n <=? 122)).

(** [c.isspace()] for an ASCII character: tab, line feed, vertical
    tab, form feed, carriage return, the four separators 28..31 and the
    space. *)
Definition is_space (c : ascii) : bool :=
  let n := nat_of_ascii c in
  ((9 <=? n) && (n <=? 13)) || ((28 <=? n) && (n <=? 32)).

(** [sub in s] on strings: [sub] occurs in [s] as a contiguous run. *)
Fixpoint str_in (sub s : string) : bool :=
  String.prefix sub s
  || match s with
     | EmptyString => false
     | String _ s' => str_in sub s'
     end.

Definition flush (cur : string) : list string :=
  match cur with
  | EmptyString => []
  | _ => [cur]
  end.

(** [x in xs] for a list or set of strings. *)
Definition mem (x : string) (xs : list string) : bool :=
  existsb (String.eqb x) xs.

(** [set(xs)]: only membership and [any] are used on it, so the set is
    kept as a duplicate-free list. *)
Definition set (xs : list string) : list string := nodup string_dec xs.

(** [sep.join(xs)] *)
Fixpoint join (sep : string) (xs : list string) : string :=
  match xs with
  | [] => EmptyString
  | [x] => x
  | x :: rest => x ++ sep ++ join sep rest
  end.

(** [s.split(sep)] for a one-character separator: the fields between
    separators, empty ones included; [cur] is the field being read. *)
Fixpoint split_on (sep : ascii) (s cur : string) : list string :=
  match s with
  | EmptyString => [cur]
  | String c s' =>
      if Ascii.eqb c sep then cur :: split_on sep s' EmptyString
      else split_on sep s' (cur ++ String c EmptyString)
  end.

(** [xs[start:stop]] for [0 <= start] and [0 <= stop]. *)
Definition slice {A : Type} (xs : list A) (start stop : nat) : list A :=
  firstn (stop - start) (skipn start xs).

(** A stable descending sort, [xs.sort(key=key, reverse=True)]: keys
    are compared with [<] only, and entries whose keys do not compare
    strictly keep their relative order. *)
Fixpoint insert_desc {A K : Type} (key : A -> K) (ltb : K -> K -> bool)
         (x : A) (l : list A) : list A :=
  match l with
  | [] => [x]
  | y :: r =>
      if ltb (key x) (key y) then y :: insert_desc key ltb x r
      else x :: y :: r
  end.

Definition sort_desc {A K : Type} (key : A -> K) (ltb : K -> K -> bool)
           (l : list A) : list A :=
  fold_right (insert_desc key ltb) [] l.

End Py.


(* ================================================================== *)
(** * Text beyond ASCII *)

Module Unicode.

(** What the tools ask of the Unicode character database: [s.lower()],
    and for one character outside ASCII, given by the bytes that encode
    it, [c.isalnum()], which decides whether [\w] matches it, and
    [c.isspace()].  The database depends on the version of Python; the
    model takes it as a parameter. *)
Record database : Type := mkDatabase {
  lower : string -> string;
  isalnum : string -> bool;
  isspace : string -> bool
}.

(** A byte [10xxxxxx] continues the encoding of a character. *)
Definition is_continuation (c : ascii) : bool :=
  let n := nat_of_ascii c in (128 <=? n) && (n <=? 191).

(** The characters of a [str], each with the bytes that encode it: a
    character starts at a byte that is no continuation byte; [cur] is
    the character being read. *)
Fixpoint chars_from (s cur : string) : list string :=
  match s with
  | EmptyString => Py.flush cur
  | String c s' =>
      if is_continuation c then chars_from s' (cur ++ String c EmptyString)
      else Py.flush cur ++ chars_from s' (String c EmptyString)
  end.

Definition chars (s : string) : list string := chars_from s EmptyString.

(** [len(s)]: the number of characters, not of bytes. *)
Definition len (s : string) : nat := List.length (chars s).

(** The class [\w] of [re] on a [str] pattern: on ASCII the letters, the
    digits and the underscore; elsewhere what [isalnum] says. *)
Definition is_word (U : database) (c : string) : bool :=
  match c with
  | String a EmptyString =>
      if nat_of_ascii a <? 128 then Py.is_word_char a else isalnum U c
  | _ => isalnum U c
  end.

(** White space as [str.split()] sees it. *)
Definition is_space (U : database) (c : string) : bool :=
  match c with
  | String a EmptyString =>
      if nat_of_ascii a <? 128 then Py.is_space a else isspace U c
  | _ => isspace U c
  end.

(** The maximal runs of characters satisfying [p], left to right; [cur]
    is the run being read. *)
Fixpoint runs (p : string -> bool) (cs : list string) (cur : string)
  : list string :=
  match cs with
  | [] => Py.flush cur
  | c :: cs' =>
      if p c then runs p cs' (cur ++ c)
      else Py.flush cur ++ runs p cs' EmptyString
  end.

(** [s.split()]: the maximal runs of characters that are no white
    space. *)
Definition split (U : database) (s : string) : list string :=
  runs (fun c => negb (is_space U c)) (chars s) EmptyString.

(** [re.findall(r'\b\w+\b', s)]: a match starts at a word boundary,
    takes word characters greedily and must end at a word boundary, so
    the matches are the maximal runs of word characters. *)
Definition findall_words (U : database) (s : string) : list string :=
  runs (is_word U) (chars s) EmptyString.

(** The database cut down to ASCII: case folding of the ASCII letters,
    and no word character and no white space beyond ASCII.  It serves
    to run the tools on ASCII text, where nothing else is consulted. *)
Definition ASCII : database :=
  mkDatabase Py.lower (fun _ => false) (fun _ => false).

End Unicode.

(* ================================================================== *)
(** * Insertion-ordered dictionaries with string keys *)

Module Dict.

Definition t (V : Type) : Type := list (string * V).

(** [d.get(k)] *)
Fixpoint get {V : Type} (d : t V) (k : string) : option V :=
  match d with
  | [] => None
  | (k', v) :: d' => if String.eqb k k' then Some v else get d' k
  end.

(** [d.get(k, dflt)] *)
Definition get_default {V : Type} (d : t V) (k : string) (dflt : V) : V :=
  match get d k with
  | Some v => v
  | None => dflt
  end.

(** [d[k] = v]: an existing key keeps its place, a new one goes last. *)
Fixpoint set {V : Type} (d : t V) (k : string) (v : V) : t V :=
  match d with
  | [] => [(k, v)]
  | (k', v') :: d' =>
      if String.eqb k k' then (k', v) :: d' else (k', v') :: set d' k v
  end.

(** [list(d.keys())] *)
Definition keys {V : Type} (d : t V) : list string := map fst d.

(** [list(d.values())] *)
Definition values {V : Type} (d : t V) : list V := map snd d.

End Dict.

(* ================================================================== *)
(** * The Subsystem Index and its tools *)

Record SubsystemInfo : Type := mkSubsystem {
  sub_name : string;
  sub_description : string;
  sub_keywords : list string;
  sub_files : list string
}.

Definition base_path : string := "GameProject/src/GameProject.Engine".

(** [f"{base_path}/{f}"] *)
Definition full_path (f : string) : string := base_path ++ "/" ++ f.

(** ** [list_subsystems] *)

Record SubsystemSummary : Type := mkSummary {
  sum_name : string;
  sum_description : string;
  sum_keywords : list string
}.

Definition list_subsystems (SUBSYSTEMS : Dict.t SubsystemInfo)
  : Dict.t SubsystemSummary :=
  map (fun '(key, info) =>
         (key, mkSummary (sub_name info) (sub_description info)
                         (sub_keywords info)))
      SUBSYSTEMS.

(** ** [get_files_for_subsystem] *)

Inductive FilesResult : Type :=
| FilesError (error : string) (available : list string)
| FilesFound (subsystem name description : string) (files : list string).

Definition get_files_for_subsystem (SUBSYSTEMS : Dict.t SubsystemInfo)
           (subsystem : string) : FilesResult :=
  match Dict.get SUBSYSTEMS subsystem with
  | None =>
      FilesError ("Unknown subsystem: " ++ subsystem) (Dict.keys SUBSYSTEMS)
  | Some info =>
      FilesFound subsystem (sub_name info) (sub_description info)
                 (map full_path (sub_files info))
  end.

(** ** [find_relevant_context] *)

Record SubsystemMatch : Type := mkSubsystemMatch {
  sm_subsystem : string;
  sm_name : string;
  sm_score : nat;
  sm_matched_keywords : list string;
  sm_files : list string
}.

(** The inner loop over [info["keywords"]]; the state is
    [(score, matched_keywords)]. *)
Definition keyword_step (task_lower : string) (st : nat * list string)
           (keyword : string) : nat * list string :=
  let '(score, matched_keywords) := st in
  if Py.str_in keyword task_lower
  then (score + 1, matched_keywords ++ [keyword])
  else st.

(** The score and matched keywords of one subsystem. *)
Definition score_subsystem (task_lower : string) (info : SubsystemInfo)
  : nat * list string :=
  let '(score, matched_keywords) :=
    fold_left (keyword_step task_lower) (sub_keywords info) (0, []) in
  let score :=
    if Py.str_in (Py.lower (sub_name info)) task_lower then score + 2
    else score in
  (score, matched_keywords).

(** One turn of the loop over [SUBSYSTEMS.items()]; the state is the
    list [matches]. *)
Definition subsystem_step (task_lower : string) (matches : list SubsystemMatch)
           (item : string * SubsystemInfo) : list SubsystemMatch :=
  let '(key, info) := item in
  let '(score, matched_keywords) := score_subsystem task_lower info in
  if 0 <? score
  then matches ++ [mkSubsystemMatch key (sub_name info) score matched_keywords
                                    (sub_files info)]
  else matches.

Definition subsystem_matches (SUBSYSTEMS : Dict.t SubsystemInfo)
           (task_lower : string) : list SubsystemMatch :=
  fold_left (subsystem_step task_lower) SUBSYSTEMS [].

(** [matches] after [matches.sort(key=score, reverse=True)]. *)
Definition ranked_subsystems (SUBSYSTEMS : Dict.t SubsystemInfo)
           (task_description : string) : list SubsystemMatch :=
  Py.sort_desc sm_score Nat.ltb
               (subsystem_matches SUBSYSTEMS (Py.lower task_description)).

(** The loop over the files of one match; the state is [suggested_files]. *)
Definition file_step (suggested_files : list string) (f : string)
  : list string :=
  let full := full_path f in
  if Py.mem full suggested_files then suggested_files
  else suggested_files ++ [full].

Definition suggest_files (top : list SubsystemMatch) : list string :=
  fold_left (fun suggested m => fold_left file_step (sm_files m) suggested)
            top [].

Record ContextResult : Type := mkContextResult {
  cr_task : string;
  cr_relevant_subsystems : list SubsystemMatch;
  cr_suggested_files : list string;
  cr_architecture_resource : string
}.

Definition find_relevant_context (SUBSYSTEMS : Dict.t SubsystemInfo)
           (task_description : string) : ContextResult :=
  let matches := ranked_subsystems SUBSYSTEMS task_description in
  let suggested_files := suggest_files (firstn 3 matches) in
  mkContextResult task_description
                  (firstn 5 matches)
                  (firstn 10 suggested_files)
                  "context7://architecture".

(* ================================================================== *)
(** * Python floats: IEEE 754 binary64 *)

Module F64.

Definition prec : Z := 53%Z.
Definition emax : Z := 1024%Z.

Definition float : Type := spec_float.

Definition add : float -> float -> float := SFadd prec emax.
Definition mul : float -> float -> float := SFmul prec emax.
Definition div : float -> float -> float := SFdiv prec emax.

(** [float(n)] for an [int] [n >= 0], rounded to nearest even.  Python
    raises OverflowError from [2^1024] on; the model yields [+inf]
    there.  The integers converted here are word counts and agent
    counts. *)
Definition of_nat (n : nat) : float :=
  binary_normalize prec emax (Z.of_nat n) 0%Z false.

Definition zero : float := S754_zero false.
Definition half : float := S754_finite false 4503599627370496 (-53)%Z.
Definition one : float := S754_finite false 4503599627370496 (-52)%Z.
Definition two : float := S754_finite false 4503599627370496 (-51)%Z.
Definition four : float := S754_finite false 4503599627370496 (-50)%Z.

(** [x < y], [x <= y] and [x == y] *)
Definition ltb : float -> float -> bool := SFltb.
Definition leb : float -> float -> bool := SFleb.
Definition eqb : float -> float -> bool := SFeqb.

(** Zero, a positive finite float or [+inf]: neither NaN nor negative. *)
Definition nonneg (x : float) : bool :=
  match x with
  | S754_zero false | S754_infinity false | S754_finite false _ _ => true
  | _ => false
  end.

(** A positive finite float [m * 2^e] whose magnitude [digits m + e]
    lies between [lo] and [hi]. *)
Definition in_range (lo hi : Z) (x : float) : Prop :=
  match x with
  | S754_finite false m e =>
      (lo <= Zpos (digits2_pos m) + e <= hi)%Z
  | _ => False
  end.

(** The exponent function of binary64, written out. *)
Definition fexp64 (e : Z) : Z := Z.max (e - 53) (-1074)%Z.

(** The lexicographic order on (exponent, mantissa) that [SFcompare]
    uses on positive finite floats. *)
Definition lex_le (e1 : Z) (m1 : positive) (e2 : Z) (m2 : positive)
  : Prop :=
  (e1 < e2)%Z \/ (e1 = e2 /\ (m1 <= m2)%positive).

End F64.

(* ================================================================== *)
(** * The Agent Registry and [suggest_agent] *)

Record AgentInfo : Type := mkAgent {
  agent_name : string;
  agent_description : string;
  agent_triggers : list string;
  agent_model : string
}.

Record AgentMatch : Type := mkAgentMatch {
  am_agent : string;
  am_name : string;
  am_description : string;
  am_model : string;
  am_score : F64.float;
  am_matched_triggers : list string
}.

(** [trigger_agent_count[t] = trigger_agent_count.get(t, 0) + 1] *)
Definition count_step (trigger_agent_count : Dict.t nat) (t : string)
  : Dict.t nat :=
  Dict.set trigger_agent_count t (Dict.get_default trigger_agent_count t 0 + 1).

(** The precomputation loop over [AGENTS.values()] and their triggers. *)
Definition trigger_agent_count (AGENTS : Dict.t AgentInfo) : Dict.t nat :=
  fold_left (fun counts info =>
               fold_left count_step (agent_triggers info) counts)
            (Dict.values AGENTS) [].

(** The test [matched] of one trigger. *)
Definition trigger_matched (U : Unicode.database)
           (task_lower : string) (task_words : list string)
           (trigger : string) : bool :=
  if List.length (Unicode.split U trigger) =? 1
  then Py.mem trigger task_words
  else Py.str_in trigger task_lower.

(** What a matched trigger adds: [base * (1.0 + uniqueness)]. *)
Definition trigger_weight (U : Unicode.database)
           (counts : Dict.t nat) (trigger : string)
  : F64.float :=
  let base := List.length (Unicode.split U trigger) in
  let uniqueness :=
    F64.div F64.one (F64.of_nat (Dict.get_default counts trigger 1)) in
  F64.mul (F64.of_nat base) (F64.add F64.one uniqueness).

(** One turn of the loop over [info["triggers"]]; the state is
    [(score, matched_triggers)]. *)
Definition trigger_step (U : Unicode.database)
           (counts : Dict.t nat) (task_lower : string)
           (task_words : list string) (st : F64.float * list string)
           (trigger : string) : F64.float * list string :=
  let '(score, matched_triggers) := st in
  if trigger_matched U task_lower task_words trigger
  then (F64.add score (trigger_weight U counts trigger),
        matched_triggers ++ [trigger])
  else st.

(** [any(word in description.lower() for word in task_words
         if len(word) > 3)] *)
Definition description_hit (U : Unicode.database)
           (task_words : list string) (description : string)
  : bool :=
  existsb (fun word =>
             (3 <? Unicode.len word)
             && Py.str_in word (Unicode.lower U description))
          task_words.

(** The score and matched triggers of one agent. *)
Definition score_agent (U : Unicode.database)
           (counts : Dict.t nat) (task_lower : string)
           (task_words : list string) (info : AgentInfo)
  : F64.float * list string :=
  let '(score, matched_triggers) :=
    fold_left (trigger_step U counts task_lower task_words)
              (agent_triggers info) (F64.zero, []) in
  let score :=
    if description_hit U task_words (agent_description info)
    then F64.add score F64.half
    else score in
  (score, matched_triggers).

(** One turn of the loop over [AGENTS.items()]; the state is [matches]. *)
Definition agent_step (U : Unicode.database)
           (counts : Dict.t nat) (task_lower : string)
           (task_words : list string) (matches : list AgentMatch)
           (item : string * AgentInfo) : list AgentMatch :=
  let '(agent_id, info) := item in
  let '(score, matched_triggers) :=
    score_agent U counts task_lower task_words info in
  if F64.ltb F64.zero score
  then matches ++ [mkAgentMatch agent_id (agent_name info)
                                (agent_description info) (agent_model info)
                                score matched_triggers]
  else matches.

Definition task_words_of (U : Unicode.database)
           (task_lower : string) : list string :=
  Py.set (Unicode.findall_words U task_lower).

Definition agent_matches (U : Unicode.database)
           (AGENTS : Dict.t AgentInfo)
           (task_description : string) : list AgentMatch :=
  let task_lower := Unicode.lower U task_description in
  fold_left (agent_step U (trigger_agent_count AGENTS) task_lower
                        (task_words_of U task_lower))
            AGENTS [].

(** [matches] after [matches.sort(key=score, reverse=True)]. *)
Definition ranked_agents (U : Unicode.database)
           (AGENTS : Dict.t AgentInfo)
           (task_description : string) : list AgentMatch :=
  Py.sort_desc am_score F64.ltb (agent_matches U AGENTS task_description).

(** [matches[0]["score"] if matches else 0] *)
Definition top_score_of (matches : list AgentMatch) : F64.float :=
  match matches with
  | m :: _ => am_score m
  | [] => F64.zero
  end.

Definition confidence_of (top_score : F64.float) : string :=
  if F64.leb F64.four top_score then "high"
  else if F64.leb F64.two top_score then "medium"
  else if F64.leb F64.one top_score then "low"
  else "none".

(** The agents named by the note: those whose score equals the first. *)
Definition tied_agents (matches : list AgentMatch) : list string :=
  map am_agent
      (filter (fun m => F64.eqb (am_score m) (top_score_of matches)) matches).

Definition disambiguation_note (tied : list string) : string :=
  "Tied between " ++ Py.join ", " tied
  ++ ". Check which files you're modifying to decide.".

(** The optional key [result["disambiguation"]]. *)
Definition disambiguation_of (matches : list AgentMatch) : option string :=
  match matches with
  | m0 :: m1 :: _ =>
      if F64.eqb (am_score m0) (am_score m1)
      then Some (disambiguation_note (tied_agents matches))
      else None
  | _ => None
  end.

Record AgentResult : Type := mkAgentResult {
  ar_task : string;
  ar_recommendation : option string;
  ar_confidence : string;
  ar_suggested_agents : list AgentMatch;
  ar_should_invoke : bool;
  ar_disambiguation : option string
}.

Definition suggest_agent (U : Unicode.database)
           (AGENTS : Dict.t AgentInfo)
           (task_description : string) : AgentResult :=
  let matches := ranked_agents U AGENTS task_description in
  let top_score := top_score_of matches in
  let confidence := confidence_of top_score in
  mkAgentResult task_description
                (match matches with
                 | m :: _ => Some (am_agent m)
                 | [] => None
                 end)
                confidence
                (firstn 3 matches)
                (Py.mem confidence ["high"; "medium"])
                (disambiguation_of matches).

(* ================================================================== *)
(** * Document search *)

(** What [doc_file.read_text(encoding="utf-8")] does: it returns the text
    or raises (the file is gone, unreadable or not UTF-8). *)
Inductive ReadResult : Type :=
| ReadText (content : string)
| ReadRaises.

Record DocFile : Type := mkDocFile {
  doc_stem : string;
  doc_relative_path : string;
  doc_read_text : ReadResult
}.

Record LineMatch : Type := mkLineMatch {
  lm_line_number : nat;
  lm_context : string
}.

Record DocumentMatch : Type := mkDocumentMatch {
  dm_document : string;
  dm_path : string;
  dm_matches : list LineMatch;
  dm_total_matches : nat
}.

Inductive SubsystemHit : Type :=
| HitText (subsystem name description : string)
| HitKeyword (subsystem name matched_keyword : string).

Inductive SearchResult : Type :=
| SearchError (error : string)
| SearchFound (query : string) (document_matches : list DocumentMatch)
              (subsystem_matches : list SubsystemHit).

Definition newline : ascii := ascii_of_nat 10.

(** One turn of the loop over [enumerate(lines)]. *)
Definition line_step (query_lower : string) (lines : list string)
           (matches : list LineMatch) (il : nat * string) : list LineMatch :=
  let '(i, line) := il in
  if Py.str_in query_lower (Py.lower line)
  then
    let start := Nat.max 0 (i - 2) in
    let stop := Nat.min (List.length lines) (i + 3) in
    matches ++ [mkLineMatch (i + 1)
                            (Py.join (String newline EmptyString)
                                     (Py.slice lines start stop))]
  else matches.

Definition line_matches (query_lower : string) (content : string)
  : list LineMatch :=
  let lines := Py.split_on newline content EmptyString in
  fold_left (line_step query_lower lines)
            (combine (seq 0 (List.length lines)) lines) [].

(** One turn of the loop over the documents: the body of [try], and
    [continue] when it raises. *)
Definition document_step (query_lower : string) (results : list DocumentMatch)
           (doc_file : DocFile) : list DocumentMatch :=
  match doc_read_text doc_file with
  | ReadRaises => results
  | ReadText content =>
      let matches := line_matches query_lower content in
      match matches with
      | [] => results
      | _ :: _ =>
          results ++ [mkDocumentMatch (doc_stem doc_file)
                                      (doc_relative_path doc_file)
                                      (firstn 10 matches) (List.length matches)]
      end
  end.

(** One turn of the loop over [SUBSYSTEMS.items()]; the keyword scan
    stops at its first hit. *)
Definition subsystem_hit_step (query_lower : string)
           (subsystem_matches : list SubsystemHit)
           (item : string * SubsystemInfo) : list SubsystemHit :=
  let '(key, info) := item in
  if Py.str_in query_lower (Py.lower (sub_name info))
     || Py.str_in query_lower (Py.lower (sub_description info))
  then subsystem_matches
       ++ [HitText key (sub_name info) (sub_description info)]
  else
    match find (fun keyword => Py.str_in query_lower (Py.lower keyword))
               (sub_keywords info) with
    | Some keyword =>
        subsystem_matches ++ [HitKeyword key (sub_name info) keyword]
    | None => subsystem_matches
    end.

(** [CONTEXT_DIR] is [None] when the directory does not exist, and
    otherwise the files [CONTEXT_DIR.glob("*.md")] yields, in that order. *)
Definition search_context_documents (SUBSYSTEMS : Dict.t SubsystemInfo)
           (CONTEXT_DIR : option (list DocFile)) (query : string)
  : SearchResult :=
  match CONTEXT_DIR with
  | None => SearchError "Context directory not found"
  | Some doc_files =>
      let query_lower := Py.lower query in
      SearchFound query
                  (fold_left (document_step query_lower) doc_files [])
                  (fold_left (subsystem_hit_step query_lower) SUBSYSTEMS [])
  end.
(* ================================================================== *)
(** * Listings, the file map and the document resources *)

(** ** [list_agents] *)

Record AgentSummary : Type := mkAgentSummary {
  as_name : string;
  as_description : string;
  as_model : string;
  as_triggers : list string
}.

Definition list_agents (AGENTS : Dict.t AgentInfo) : Dict.t AgentSummary :=
  map (fun '(agent_id, info) =>
         (agent_id, mkAgentSummary (agent_name info) (agent_description info)
                                   (agent_model info) (agent_triggers info)))
      AGENTS.

(** ** The resource [context7://architecture/file-map] *)

(** ["\n"] *)
Definition line_feed : string := String newline EmptyString.

(** [f"- `GameProject.Engine/{f}`"] *)
Definition file_map_bullet (f : string) : string :=
  "- `GameProject.Engine/" ++ f ++ "`".

(** [f"\n## {info['name']}"] and [f"*{info['description']}*\n"] *)
Definition file_map_heading (info : SubsystemInfo) : string :=
  line_feed ++ "## " ++ sub_name info.

Definition file_map_caption (info : SubsystemInfo) : string :=
  "*" ++ sub_description info ++ "*" ++ line_feed.

(** One turn of the loop over [SUBSYSTEMS.items()]; the state is the
    list [lines]. *)
Definition file_map_step (lines : list string)
           (item : string * SubsystemInfo) : list string :=
  let '(key, info) := item in
  let lines := lines ++ [file_map_heading info] in
  let lines := lines ++ [file_map_caption info] in
  fold_left (fun lines f => lines ++ [file_map_bullet f])
            (sub_files info) lines.

Definition file_map_header : list string :=
  [("# File Map" ++ line_feed)%string;
   ("Key file locations organized by subsystem." ++ line_feed)%string].

Definition get_file_map (SUBSYSTEMS : Dict.t SubsystemInfo) : string :=
  Py.join line_feed (fold_left file_map_step SUBSYSTEMS file_map_header).

(** ** [get_context_files] *)

Record ContextFile : Type := mkContextFile {
  cf_name : string;
  cf_path : string;
  cf_description : string;
  cf_resource_uri : option string
}.

(** The [if]/[elif] chain on [f.stem]: the description and the resource
    of a document, both empty for a name the chain does not know. *)
Definition describe_context_file (stem : string) : string * option string :=
  if String.eqb stem "architecture" then
    ("Core architecture overview (ECS, services, networking, devtools, tiled templates)",
     Some "context7://architecture")
  else if String.eqb stem "dungeon-generation" then
    ("Procedural dungeon generation system (BSP, graph, rooms, corridors)",
     Some "context7://architecture/dungeon-generation")
  else if String.eqb stem "tiledlib-api" then
    ("TiledLib.Net 4.0 API reference for loading .tmx/.tsx files",
     Some "context7://architecture/tiled-templates")
  else if String.eqb stem "coordinate-systems" then
    ("Isometric rendering, coordinate conversion, depth sorting, compensation",
     Some "context7://architecture/isometric-input")
  else if String.eqb stem "input-system" then
    ("Input system with keyboard, mouse, and gamepad support",
     Some "context7://architecture/input-system")
  else if String.eqb stem "aiming-system" then
    ("Aiming system with isometric coordinate transforms, camera timing, and network determinism",
     Some "context7://architecture/aiming-system")
  else if String.eqb stem "boss-fight-framework" then
    ("Multi-phase boss fights with attack pools, minions, enrage, vulnerability, shield mechanics, and network sync",
     Some "context7://architecture/boss-fight-framework")
  else if String.eqb stem "network-operations" then
    ("Network testing, debugging, and known issues", None)
  else if String.eqb stem "art-pipeline" then
    ("3D-to-2D art pipeline (Meshy, Blender, atlas packing, content loading)",
     None)
  else if String.eqb stem "item-system" then
    ("Equipment system: Orbs, Mods, Cores, fusion, augment tokens, PowerLevel",
     None)
  else (EmptyString, None).

(** One turn of the loop over the documents; the state is [files]. *)
Definition context_file_step (files : list ContextFile) (f : DocFile)
  : list ContextFile :=
  let '(description, resource_uri) := describe_context_file (doc_stem f) in
  files ++ [mkContextFile (doc_stem f) (doc_relative_path f)
                          description resource_uri].

(** [sorted(xs, key=key)]: a stable ascending sort that compares keys
    with [<] only. *)
Fixpoint insert_asc {A K : Type} (key : A -> K) (ltb : K -> K -> bool)
         (x : A) (l : list A) : list A :=
  match l with
  | [] => [x]
  | y :: r =>
      if ltb (key y) (key x) then y :: insert_asc key ltb x r
      else x :: y :: r
  end.

Definition sorted {A K : Type} (key : A -> K) (ltb : K -> K -> bool)
           (l : list A) : list A :=
  fold_right (insert_asc key ltb) [] l.

Inductive ContextFiles : Type :=
| ContextFilesError (error : string)
| ContextFilesFound (context_directory : string) (files : list ContextFile).

(** [str(CONTEXT_DIR.relative_to(PROJECT_ROOT))], with the separator of
    POSIX paths. *)
Definition context_directory : string := ".claude/context".

(** Python orders strings by code point, which on UTF-8 text is the
    order of [String.ltb] on the bytes. *)
Definition get_context_files (CONTEXT_DIR : option (list DocFile))
  : ContextFiles :=
  match CONTEXT_DIR with
  | None => ContextFilesError "Context directory not found"
  | Some doc_files =>
      ContextFilesFound
        context_directory
        (sorted cf_name String.ltb (fold_left context_file_step doc_files []))
  end.

(** ** The resources backed by a document *)






(** The resource URIs the module registers with [@mcp.resource]. *)
Definition RESOURCES : list string := [
  "context7://architecture";
  "context7://architecture/ecs";
  "context7://architecture/services";
  "context7://architecture/networking";
  "context7://architecture/game-states";
  "context7://architecture/file-map";
  "context7://architecture/dungeon-generation";
  "context7://architecture/tiled-templates";
  "context7://architecture/input-system";
  "context7://architecture/aiming-system";
  "context7://architecture/isometric-input";
  "context7://architecture/dungeon-debug";
  "context7://architecture/devtools"
].

(* ================================================================== *)
(** * The static tables of the source *)

Definition SUBSYSTEMS : Dict.t SubsystemInfo := [
  ("ecs",
   mkSubsystem "ECS (Entity Component System)"
     "Arch ECS framework with components and systems"
     ["entity"; "component"; "system"; "archetype"; "query"; "world"]
     ["GameContext.cs"; "ECS/Archetypes/EntityFactory.cs"; "ECS/Components/";
      "ECS/Systems/"; ".claude/context/interactable-system.md";
      ".claude/context/architecture.md"]);
  ("services",
   mkSubsystem "Service Layer"
     "Dependency injection and core services"
     ["service"; "container"; "injection"; "interface"; "collision";
      "spatial"; "content"; "audio"; "profile"; "save"; "damage"; "feedback";
      "lighting"; "shader"; "input"]
     ["Services/ServiceContainer.cs"; "Services/Interfaces/";
      "Services/Implementation/"]);
  ("game-states",
   mkSubsystem "Game States"
     "State machine for game modes, menus, and lobby"
     ["state"; "menu"; "lobby"; "survival"; "adventure"; "defense"; "payload";
      "boss"; "hub"; "shop"; "playmenu"; "profile"; "multiplayer"]
     ["GameStates/IGameState.cs"; "GameStates/GameStateManager.cs";
      "GameStates/States/"; "Services/Implementation/ProfileService.cs";
      "Services/Interfaces/IProfileService.cs";
      ".claude/context/save-system.md"]);
  ("networking",
   mkSubsystem "Networking"
     "Multiplayer networking with host-authoritative P2P model and MessagePack serialization"
     ["network"; "multiplayer"; "sync"; "snapshot"; "interpolation";
      "message"; "transport"; "lobby"; "host"; "client"; "authority";
      "damage report"; "play mode"; "offline"; "online"; "couch coop";
      "local multiplayer"; "messagepack"; "serialization"; "serialize";
      "deserialize"]
     ["Network/NetworkService.cs"; "Network/INetworkService.cs";
      "Network/NetworkHelper.cs"; "Network/Transport/"; "Network/Messages/";
      "Network/Messages/DamageMessages.cs";
      "Network/Messages/PowerUpMessages.cs"; "Network/Sync/";
      "ECS/Systems/NetworkSyncSystem.cs"; "ECS/Systems/NetworkSpawnSystem.cs";
      "ECS/Systems/NetworkInputSystem.cs";
      "ECS/Systems/DamageAuthoritySystem.cs"; ".claude/context/play-modes.md";
      ".claude/context/play-mode-testing.md";
      ".claude/context/ui-sync-patterns.md";
      ".claude/context/network-operations.md";
      ".claude/context/network-determinism-architecture.md";
      ".claude/context/network-multiplayer-system.md"]);
  ("physics",
   mkSubsystem "Physics & Collision"
     "Physics simulation and collision detection"
     ["physics"; "collision"; "velocity"; "force"; "knockback"; "spatial";
      "raycast"; "obstacle"]
     ["ECS/Systems/PhysicsSystem.cs";
      "Services/Implementation/CollisionService.cs";
      "Services/Implementation/SpatialService.cs";
      "Services/Interfaces/ICollisionService.cs";
      "Services/Interfaces/ISpatialService.cs";
      ".claude/context/enemy-collision-physics.md"]);
  ("rendering",
   mkSubsystem "Rendering"
     "Sprite rendering, animation, camera, and procedural shape generation (SkiaSharp)"
     ["render"; "sprite"; "animation"; "camera"; "draw"; "texture";
      "particle"; "trail"; "skiasharp"; "procedural"; "shape"; "rounded";
      "gradient"; "ninepatch"; "9-slice"; "emoji"]
     ["ECS/Systems/SpriteRenderSystem.cs"; "ECS/Systems/AnimationSystem.cs";
      "ECS/Systems/ParticleSystem.cs"; "Camera/"; "Rendering/";
      "Rendering/SkiaShapeFactory.cs"; "Rendering/EmojiTextureGenerator.cs";
      "UI/NinePatch.cs"; ".claude/context/floating-text.md";
      ".claude/context/coordinate-systems.md";
      ".claude/context/vfx-particle-system.md"]);
  ("ai",
   mkSubsystem "AI System"
     "Enemy AI behaviors and enemy archetype designs"
     ["ai"; "behavior"; "chase"; "wander"; "flee"; "enemy"; "aggro"; "target";
      "archetype"; "saboteur"; "bloater"; "ironclad"; "hexweaver";
      "bonecaller"; "webspinner"; "blinkfiend"; "phaselurk"]
     ["ECS/Systems/AISystem.cs"; "ECS/Components/AIComponent.cs";
      ".claude/context/enemy-archetypes.md"]);
  ("combat",
   mkSubsystem "Combat"
     "Combat, projectiles, abilities, damage, ghost mode, and deterministic RNG"
     ["combat"; "damage"; "health"; "projectile"; "ability"; "attack";
      "weapon"; "powerup"; "death"; "kill"; "ghost"; "spectator"; "crit";
      "critical"; "proc"; "rng"; "deterministic"; "combatRng"; "shotNumber";
      "subIndex"; "timeBucket"]
     ["ECS/Systems/CombatSystem.cs"; "ECS/Systems/ProjectileSystem.cs";
      "ECS/Systems/HealthSystem.cs"; "ECS/Systems/AbilitySystem.cs";
      "ECS/Systems/DamageAuthoritySystem.cs";
      "ECS/Components/Combat/CombatComponent.cs";
      "ECS/Components/Combat/HealthComponent.cs";
      "ECS/Components/Combat/ProjectileComponent.cs";
      "ECS/Components/Player/AbilitiesComponent.cs";
      "Services/Interfaces/IDamageService.cs";
      "Services/Interfaces/ICombatFeedbackService.cs";
      "Services/Implementation/DamageService.cs";
      "Services/Implementation/CombatFeedbackService.cs";
      "Network/Messages/DamageMessages.cs"; "Simulation/CombatRng.cs";
      "ECS/Data/ProjectileData.cs"; "ECS/Data/ProjectileSpawnParams.cs";
      ".claude/context/ghost-mode.md";
      ".claude/context/enemy-combat-system.md";
      ".claude/context/ability-implementation.md"]);
  ("turbo",
   mkSubsystem "Turbo System"
     "3-bar turbo gauge: dodge (i-frames, destructible breaking) and hold-to-charge abilities (TurboShot, StompAoE, TurboBall)"
     ["turbo"; "dash"; "dodge"; "invulnerable"; "i-frame"; "iframes";
      "turboshot"; "turboball"; "stomp"; "charge"; "recharge"; "gauge"]
     ["ECS/Components/Player/TurboGaugeComponent.cs";
      "ECS/Components/Player/TurboAbilityConfigComponent.cs";
      "ECS/Systems/TurboRechargeSystem.cs"; "ECS/Systems/TurboDashSystem.cs";
      "ECS/Systems/TurboAbilitySystem.cs";
      "Services/Implementation/DamageService.cs";
      "UI/RadialDial/TurboGaugeRenderer.cs"; ".claude/context/turbo-system.md"]);
  ("damage",
   mkSubsystem "Damage Authority"
     "Host-authoritative damage validation and health synchronization"
     ["damage"; "health"; "authority"; "validate"; "sync"; "prediction";
      "reconciliation"; "death"; "kill"; "batch"]
     ["ECS/Systems/DamageAuthoritySystem.cs"; "ECS/Systems/CombatSystem.cs";
      "Services/Interfaces/IDamageService.cs";
      "Services/Implementation/DamageService.cs";
      "Services/Interfaces/ICombatFeedbackService.cs";
      "Services/Implementation/CombatFeedbackService.cs";
      "Network/Messages/DamageMessages.cs";
      "ECS/Components/Combat/HealthComponent.cs";
      ".claude/context/host-authoritative-damage-spec.md"]);
  ("spawning",
   mkSubsystem "Spawning"
     "Enemy and powerup spawning systems"
     ["spawn"; "wave"; "enemy"; "powerup"; "spawner"]
     ["ECS/Systems/SpawnSystem.cs"; "ECS/Systems/NetworkSpawnSystem.cs";
      "ECS/Components/SpawnerComponent.cs"]);
  ("boss",
   mkSubsystem "Boss Fight Framework"
     "Multi-phase boss fights with attack pools, minion spawning, enrage, vulnerability, and shield mechanics"
     ["boss"; "phase"; "enrage"; "vulnerability"; "shield"; "minion";
      "signature"; "attack pool"; "multi-phase"; "infernus"; "dragon"]
     ["ECS/Components/Enemy/BossComponent.cs";
      "ECS/Components/Enemy/BossAttackPoolComponent.cs";
      "ECS/Components/Enemy/BossAttackStateComponent.cs";
      "ECS/Components/Enemy/BossMinionComponent.cs";
      "ECS/Systems/BossAbilitySystem.cs"; "ECS/Systems/BossAttackSystem.cs";
      "Content/Definitions/BossDefinition.cs"; "Content/Data/bosses.json";
      ".claude/context/boss-fight-framework.md";
      ".claude/context/dragon-boss-system.md"]);
  ("dungeon-generation",
   mkSubsystem "Procedural Dungeon Generation"
     "BSP + Graph-based procedural dungeon generator for Adventure mode"
     ["dungeon"; "procedural"; "generation"; "bsp"; "room"; "corridor";
      "graph"; "path"; "secret"; "template"; "micro-template"; "populator";
      "adventure"; "level"; "tile"; "door"; "key"; "treasure"; "validation";
      "connectivity"; "loop"; "interconnected"; "dead-end"; "target"]
     ["Procedural/IDungeonGenerator.cs";
      "Procedural/DungeonGenerationService.cs";
      "Procedural/DungeonConfigLoader.cs"; "Procedural/DungeonResult.cs";
      "Procedural/BSP/"; "Procedural/Graph/"; "Procedural/Rooms/";
      "Procedural/Validation/"; "Procedural/Population/";
      "Procedural/Templates/"; "Content/Definitions/DungeonDefinition.cs";
      "Content/Definitions/MicroTemplateDefinition.cs";
      "GameStates/States/AdventureState.cs";
      ".claude/context/dungeon-generation.md"]);
  ("input",
   mkSubsystem "Input"
     "Input handling with keyboard, mouse, and gamepad support including isometric rotation"
     ["input"; "keyboard"; "controller"; "gamepad"; "controls"; "isometric";
      "rotation"; "direction"; "wasd"; "cardinal"]
     ["Input/"; "ECS/Systems/InputSystem.cs";
      "Services/Interfaces/IInputService.cs";
      "Services/Implementation/InputService.cs";
      ".claude/context/input-system.md"]);
  ("aiming",
   mkSubsystem "Aiming System"
     "Mouse/gamepad aiming with isometric coordinate transforms, camera timing, and network determinism"
     ["aim"; "aiming"; "mouse"; "target"; "fire"; "shoot"; "projectile";
      "screen"; "world"; "coordinate"; "isometric"; "camera"; "determinism";
      "autofire"; "manual"]
     ["ECS/Systems/ProjectileSystem.cs"; "ECS/Systems/CameraSystem.cs";
      "Services/Implementation/InputService.cs";
      "Rendering/IsometricGridHelper.cs"; "Camera/Camera2D.cs";
      "Input/PlayerInput.cs"; "Input/InputCommand.cs";
      ".claude/context/aiming-system.md"]);
  ("devtools",
   mkSubsystem "Developer Tools"
     "CLI utilities for testing, debugging, dungeon preview, HUD preview, headless rendering, layout validation, screenshot capture, and entity state dumping"
     ["devtools"; "debug"; "preview"; "dungeon"; "seed"; "network"; "test";
      "export"; "verbose"; "png"; "image"; "ascii"; "csv"; "visualization";
      "hud"; "headless"; "render"; "screenshot"; "dump"; "validate"; "font"]
     ["../GameProject.DevTools/Program.cs";
      "../GameProject.DevTools/DungeonPreview/DungeonPreviewRunner.cs";
      "../GameProject.DevTools/DungeonPreview/DungeonPreviewConfig.cs";
      "../GameProject.DevTools/DungeonPreview/DungeonImageExporter.cs";
      "../GameProject.DevTools/NetworkTesting/MultiClientLauncher.cs";
      "../GameProject.DevTools/HudPreview/HudPreviewRunner.cs";
      "../GameProject.DevTools/HudPreview/HudPreviewConfig.cs";
      "../GameProject.DevTools/HudPreview/SkiaHudRenderer.cs";
      "../GameProject.DevTools/HudPreview/HudPresets.cs";
      "../GameProject.DevTools/HudPreview/LayoutValidator.cs";
      "../GameProject.DevTools/Render/HeadlessRenderer.cs";
      "../GameProject.DevTools/Render/RenderConfig.cs";
      "UI/Debug/DebugCommandRegistry.cs";
      "Services/Implementation/ContentService.cs";
      ".claude/context/test-arena.md"; ".claude/context/changelog-devlog.md"]);
  ("dungeon-debug",
   mkSubsystem "Dungeon Debug & Export"
     "In-game debug overlay rendering, dungeon export to PNG/text/JSON, metadata logging"
     ["debug"; "overlay"; "render"; "export"; "metadata"; "json"; "png";
      "text"; "visualization"; "dungeon"; "room"; "corridor"; "spawner";
      "portal"]
     ["Procedural/Debug/DungeonDebugRenderer.cs";
      "Procedural/Debug/DungeonExportService.cs"]);
  ("debug-console",
   mkSubsystem "Debug Console"
     "In-game debug console for testing and development (F12 or backtick to toggle)"
     ["debug"; "console"; "command"; "spawn"; "powerup"; "godmode"; "kill";
      "cheat"]
     ["UI/Debug/DebugConsole.cs"; "UI/Debug/IDebugCommand.cs";
      "UI/Debug/DebugCommandRegistry.cs"]);
  ("tiled-templates",
   mkSubsystem "Tiled Room Templates"
     "Hand-crafted room templates from Tiled Map Editor for dungeon generation"
     ["tiled"; "template"; "tmx"; "tsx"; "room"; "boss"; "treasure"; "secret";
      "tileset"; "map"; "editor"; "hand-crafted"]
     ["Procedural/Templates/TiledRoomLoader.cs";
      "Procedural/Templates/RoomTemplateRegistry.cs";
      "Procedural/Templates/RoomTemplateDefinition.cs";
      "Procedural/Population/Populators/RoomTemplatePopulator.cs";
      "Content/Tiled/"]);
  ("content",
   mkSubsystem "Content & Assets"
     "Asset loading and management, art pipeline (Meshy, Blender, atlas packing)"
     ["content"; "asset"; "texture"; "font"; "sound"; "definition"; "load";
      "pipeline"; "meshy"; "blender"; "atlas"]
     ["Services/Implementation/ContentService.cs";
      "Services/Interfaces/IContentService.cs"; "Content/";
      ".claude/context/art-pipeline.md"; ".claude/context/tiledlib-api.md"]);
  ("audio",
   mkSubsystem "Audio System"
     "Sound effect loading, playback, and WAV generation for MonoGame"
     ["audio"; "sound"; "wav"; "sfx"; "music"; "play"; "volume";
      "soundeffect"; "soundnames"]
     ["Services/Implementation/ContentService.cs";
      "Services/Audio/SoundNames.cs"; "Content/Audio/";
      ".claude/context/audio-system.md"]);
  ("collectibles",
   mkSubsystem "Collectible System"
     "Instant and permanent pickup effects: StatScroll, Food, Stopwatch, LevelUpBook, APOrb. Drops from enemies via JSON-driven drop tables."
     ["collectible"; "pickup"; "statscroll"; "scroll"; "food"; "heal";
      "stopwatch"; "cooldown"; "levelbook"; "level up"; "ap orb"; "augment";
      "permanent"; "instant"; "tier"; "minor"; "standard"; "greater"; "snack";
      "meal"; "feast"; "drop"; "loot"; "drop table"; "enemy drop";
      "boss drop"; "elite drop"]
     ["ECS/Components/Combat/CollectibleComponent.cs";
      "ECS/Systems/CollectibleSystem.cs"; "ECS/Systems/CombatSystem.cs";
      "Network/Messages/CollectibleMessages.cs";
      "Content/Definitions/CollectibleDefinition.cs";
      "Content/Data/collectibles.json";
      ".claude/context/collectible-system.md"; ".claude/context/drop-system.md"]);
  ("core-fusion",
   mkSubsystem "Core & Fusion System"
     "Equipment system: Orbs + Mods fused into Cores. PowerLevel (1-5) on all items via augment tokens. SlotBasedEquipment (3+3 slots)."
     ["core"; "orb"; "mod"; "fusion"; "forge"; "equipment"; "equip"; "slot";
      "rarity"; "item"; "stat"; "ability"; "element"; "fire"; "ice";
      "lightning"; "earth"; "void"; "light"; "dark"; "nature"; "splitshot";
      "explosive"; "homing"; "piercing"; "critical"; "lifesteal";
      "powerlevel"; "augment"; "token"; "upgrade"]
     ["Core/CoreComponent.cs"; "Core/Orb.cs"; "Core/Mod.cs"; "Core/Core.cs";
      "Core/SlotBasedEquipment.cs"; "Core/AugmentToken.cs";
      "Core/FusionTypes.cs"; "Core/CoreDefinitions.cs";
      "ECS/Components/Player/CoreStatsComponent.cs";
      "ECS/Systems/CoreAbilitySystem.cs"; "ECS/Systems/CollectibleSystem.cs";
      "UI/Victory/VictoryPanelState.cs";
      "UI/Victory/Logic/VictoryShopLogic.cs";
      "UI/Victory/Logic/VictoryInputHandler.cs";
      "UI/Victory/Tabs/FusionTabRenderer.cs";
      "UI/RadialDial/RadialDialService.cs"; ".claude/context/item-system.md"]);
  ("ui",
   mkSubsystem "UI Framework"
     "Unified UI drawing primitives, color palette, scaling, HUD widgets, overlays, and NinePatch panels"
     ["ui"; "hud"; "draw"; "panel"; "button"; "overlay"; "menu"; "widget";
      "color"; "scale"; "scaledui"; "uicolors"; "uidrawhelpers"; "uistyles";
      "ninepatch"; "9-slice"; "spritebatch"; "font"; "text"; "progress bar";
      "buff bar"; "player widget"; "radial dial"; "tooltip"; "pause";
      "victory"; "gameover"; "shop"; "lobby"; "skiashapefactory"]
     ["UI/UIColors.cs"; "UI/UIDrawHelpers.cs"; "UI/ScaledUI.cs";
      "UI/NinePatch.cs"; "UI/BuffBarRenderer.cs"; "UI/PauseOverlay.cs";
      "UI/RadialDial/PlayerWidgetRenderer.cs";
      "UI/RadialDial/RadialDialOverlay.cs";
      "UI/RadialDial/RadialDialService.cs"; "UI/RadialDial/DialDimensions.cs";
      "UI/RadialDial/TurboGaugeRenderer.cs";
      "UI/RadialDial/ScrollDialRenderer.cs";
      "UI/RadialDial/ItemCardRenderer.cs"; "UI/Victory/VictoryOverlay.cs";
      "Rendering/SkiaShapeFactory.cs"; ".claude/context/hud-blueprint.md"]);
  ("vacuum-pickups",
   mkSubsystem "Vacuum Pickup System"
     "XP crystals and gold bags with Vampire Survivors-style vacuum physics (burst → float → attract → collect)"
     ["vacuum"; "pickup"; "xp"; "crystal"; "gold"; "bag"; "coin"; "pouch";
      "burst"; "float"; "attract"; "collect"; "drop"; "loot"; "enemy death";
      "despawn"; "collector bonus"; "multiplayer xp"; "split"; "tier";
      "yellow"; "blue"; "purple"; "red"; "small"; "medium"; "large"]
     ["ECS/Components/Combat/VacuumPickupComponent.cs";
      "ECS/Components/Combat/VacuumPhysicsComponent.cs";
      "ECS/Components/Combat/CollectibleComponent.cs";
      "ECS/Systems/VacuumPhysicsSystem.cs";
      "ECS/Systems/VacuumCollectionSystem.cs"; "ECS/Systems/CombatSystem.cs";
      "ECS/Archetypes/EntityFactory.cs";
      "Network/Messages/VacuumPickupMessages.cs";
      "Content/Definitions/CollectibleDefinition.cs";
      "Content/Definitions/EmojiMappings.cs";
      "Content/Data/collectibles.json"; "Services/Audio/SoundNames.cs";
      ".claude/context/vacuum-pickup-system.md"])
].

Definition AGENTS : Dict.t AgentInfo := [
  ("code-simplifier",
   mkAgent "Code Simplifier"
     "Code simplification expert for C#/MonoGame/ECS. Use when code feels complex, hard to read, or fragile. Also handles game state file refactoring (large state files >500 lines, state machine flow, UI extraction). Simplifies without breaking functionality."
     ["simplify"; "simplification"; "complex"; "complicated"; "refactor";
      "cleanup"; "clean up"; "readable"; "readability"; "maintainable";
      "nested"; "long method"; "hard to read"; "confusing"; "messy";
      "playmenustate"; "hubstate"; "large file"; "overlay"]
     "opus");
  ("coordinate-wizard",
   mkAgent "Coordinate Wizard"
     "Isometric coordinate and camera transform specialist. Use for world-to-screen conversion, isometric projections, mouse picking, entity positioning, tile rendering, camera following, UI anchoring, or ViewMode-specific behavior."
     ["coordinate"; "screen"; "camera"; "isometric"; "transform"; "viewmode";
      "lightmap"; "half-res"; "projection"; "mouse"; "picking"; "origin";
      "matrix"]
     "opus");
  ("ecs-component-designer",
   mkAgent "ECS Component Designer"
     "Arch ECS specialist for designing new components, systems, and entity archetypes following existing project patterns."
     ["component"; "system"; "entity"; "archetype"; "query"; "ecs"; "factory"]
     "sonnet");
  ("sprite-2d-artist",
   mkAgent "2D Sprite Artist"
     "2D sprite and animation specialist for spritesheet creation, atlas packing, animation setup, sprite integration into MonoGame content, LDtk level decoration, and placeholder asset generation."
     ["sprite"; "atlas"; "animation"; "spritesheet"; "frame"; "ldtk";
      "tileset"; "texture"; "pack"; "placeholder"]
     "sonnet");
  ("model-3d-artist",
   mkAgent "3D Model Artist"
     "3D model and Meshy pipeline specialist for image-to-3D generation, retexturing, rigging, animation, and Blender sprite rendering."
     ["meshy"; "blender"; "3d"; "model"; "rigging"; "retexture"; "headless";
      "glb"; "fbx"; "mixamo"]
     "sonnet");
  ("debugger",
   mkAgent "Performance/Network Debugger"
     "Performance and network debugging specialist for system profiling, performance bottlenecks, multiplayer sync issues, latency investigation, clock synchronization, damage authority debugging, and lobby/connection debugging."
     ["performance"; "slow"; "bottleneck"; "latency"; "sync"; "network";
      "profiler"; "fps"; "debug"; "lag"; "damage authority"; "desync"]
     "opus");
  ("dungeon-tester",
   mkAgent "Dungeon Tester"
     "Dungeon generation testing specialist for seed testing, room connectivity analysis, BSP debugging, procedural content validation, and spawner/treasure distribution checks."
     ["dungeon"; "seed"; "bsp"; "room"; "corridor"; "procedural";
      "generation"; "spawn"]
     "sonnet");
  ("code-reviewer-game-dev",
   mkAgent "Game Dev Code Reviewer"
     "Expert game engine code reviewer for C# ECS systems, physics logic, or networking code. Reviews for performance, correctness, and MonoGame best practices."
     ["review"; "refactor"; "allocations"; "hot path"; "performance";
      "patterns"]
     "opus");
  ("network-protocol-designer",
   mkAgent "Network Protocol Designer"
     "Network message and protocol specialist for adding new message types, sync patterns, determinism, damage authority, multiplayer state synchronization, and MessagePack serialization."
     ["message"; "protocol"; "sync"; "determinism"; "spawn seed"; "snapshot";
      "interpolation"; "reconciliation"; "damage report"; "health sync";
      "death batch"; "authority"; "messagepack"; "serialization"; "serialize";
      "deserialize"]
     "opus");
  ("ability-designer",
   mkAgent "Ability Designer"
     "End-to-end ability implementation specialist covering ECS components, systems, VFX placeholders, cooldowns, and balance considerations."
     ["ability"; "skill"; "cooldown"; "projectile"; "aoe"; "buff"; "debuff";
      "cast"; "power-up"]
     "opus");
  ("shader-wizard",
   mkAgent "Shader Wizard"
     "HLSL shader specialist for MonoGame effects, mgfxc compilation, multi-texture patterns, and graphics debugging."
     ["shader"; "hlsl"; "mgfxc"; "bloom"; "lighting"; "multi-texture";
      "sampler"]
     "sonnet");
  ("ldtk-validator",
   mkAgent "LDtk Validator"
     "LDtk level design validator for hub/map validation, portal connections, layer consistency, and entity placement verification."
     ["ldtk"; "hub"; "portal"; "tilemap"; "layer"; "map"]
     "sonnet");
  ("audio-designer",
   mkAgent "Audio Designer"
     "Audio implementation specialist for MonoGame. Use for sound effect creation, WAV generation, audio API integration (Freesound, ElevenLabs), ECS audio timing, performance optimization, and SoundNames organization."
     ["audio"; "sound"; "wav"; "sfx"; "music"; "freesound"; "elevenlabs";
      "soundeffect"; "playsound"; "volume"; "bleep"; "bloop"; "click"; "hover"]
     "sonnet");
  ("ui-and-ux-agent",
   mkAgent "UI/UX Designer"
     "UI/UX design expert for MonoGame. Use when building menus, buttons, lists, dialogs, overlays, or debugging layout, scaling, and user interaction patterns."
     ["ui"; "ux"; "menu"; "button"; "dialog"; "overlay"; "layout"; "scaling";
      "interaction"; "widget"; "panel"; "screen"; "interface"]
     "sonnet");
  ("level-designer",
   mkAgent "Level Designer"
     "Level design specialist for dungeon config, spawning, tiles, and level balancing."
     ["level"; "dungeon config"; "spawning"; "waves"; "tiles"; "difficulty";
      "balance"; "enemy placement"; "progression"]
     "sonnet");
  ("game-design-brainstorm",
   mkAgent "Game Design Brainstorm"
     "Senior game designer and player experience critic. Use for brainstorming systems/mechanics, feature scoping, evaluating game feel, reviewing player experience, and critiquing designs from a player perspective."
     ["design"; "brainstorm"; "feature"; "mechanic"; "system design"; "scope";
      "tradeoff"; "complexity"; "game design"; "fun"; "feel"; "game feel";
      "feedback"; "juice"; "juicy"; "satisfying"; "boring"; "pacing"; "loop";
      "engagement"; "player experience"; "critique"; "evaluate"]
     "opus");
  ("systems-designer",
   mkAgent "Systems Designer"
     "MonoGame systems architecture expert. Use when designing core game systems, establishing patterns, or evaluating architectural decisions. Expert in multiplayer ARPG, FPS, and competitive game frameworks."
     ["systems"; "architecture"; "pattern"; "pooling"; "spatial"; "physics";
      "ai navigation"; "a*"; "pathfinding"; "collision"; "swept"; "netcode";
      "tick rate"; "fixed timestep"; "hot path"; "determinism"; "seeding";
      "rng"; "procedural"; "wave"; "spawning"; "director"; "loot";
      "drop table"; "camera system"; "input buffer"; "animation state";
      "buff system"; "debuff"; "targeting"; "lock-on"; "save system";
      "persistence"; "accessibility"; "analytics"; "replay"; "anti-cheat";
      "loading"; "streaming"; "data-driven"; "configuration"; "definition";
      "json data"; "hot reload"; "state machine"; "game state";
      "screen stack"; "lifecycle"; "event bus"; "pub/sub"; "messaging";
      "debug console"; "cheat"; "cvar"]
     "opus")
].

(* ================================================================== *)
(** * Statements of the specification

    The definitions below say in list terms what the specification says
    in words; the theorems relate them to the loops above. *)


(** [l] is in non-increasing order of [key] when every entry relates by
    [desc] to all later ones. *)
Definition desc {A K : Type} (key : A -> K) (leb : K -> K -> bool)
           (a b : A) : Prop :=
  leb (key b) (key a) = true.

(** ** Relevance scoring *)

(** The keywords of a subsystem that occur in the lower-cased text. *)
Definition keyword_hits (text : string) (info : SubsystemInfo) : list string :=
  filter (fun keyword => Py.str_in keyword (Py.lower text)) (sub_keywords info).

(** [+2] when the lower-cased display name occurs in the text. *)
Definition name_bonus (text : string) (info : SubsystemInfo) : nat :=
  if Py.str_in (Py.lower (sub_name info)) (Py.lower text) then 2 else 0.

Definition relevance_score (text : string) (info : SubsystemInfo) : nat :=
  List.length (keyword_hits text info) + name_bonus text info.

Definition subsystem_match (text : string) (item : string * SubsystemInfo)
  : SubsystemMatch :=
  mkSubsystemMatch (fst item) (sub_name (snd item))
                   (relevance_score text (snd item))
                   (keyword_hits text (snd item))
                   (sub_files (snd item)).

(** Order-preserving removal of duplicates: the first occurrence stays. *)
Fixpoint dedup (l : list string) : list string :=
  match l with
  | [] => []
  | x :: r => x :: filter (fun y => negb (String.eqb y x)) (dedup r)
  end.

(** The path-qualified files of a list of ranked subsystems, in rank
    order. *)
Definition qualified_files (top : list SubsystemMatch) : list string :=
  List.concat (map (fun m => map full_path (sm_files m)) top).

Definition no_subsystem : SubsystemInfo :=
  mkSubsystem EmptyString EmptyString [] [].

(** The entry of the index under [key]. *)
Definition subsystem_entry (SUBSYSTEMS : Dict.t SubsystemInfo) (key : string)
  : string * SubsystemInfo :=
  (key, Dict.get_default SUBSYSTEMS key no_subsystem).

(** ** Agent scoring *)

Definition word_count (U : Unicode.database)
           (trigger : string) : nat :=
  List.length (Unicode.split U trigger).


(** A one-word trigger occurs when it is one of the word tokens of the
    lower-cased text; any other trigger when it is a substring of it. *)
Definition trigger_occurs (U : Unicode.database)
           (text trigger : string) : bool :=
  if word_count U trigger =? 1
  then Py.mem trigger (Unicode.findall_words U (Unicode.lower U text))
  else Py.str_in trigger (Unicode.lower U text).


(** Some token of more than three characters occurs in the lower-cased
    description. *)
Definition description_bonus (U : Unicode.database)
           (text : string) (info : AgentInfo) : bool :=
  existsb (fun word =>
             (3 <? Unicode.len word)
             && Py.str_in word (Unicode.lower U (agent_description info)))
          (Unicode.findall_words U (Unicode.lower U text)).




(** The two-agent registry of the specification's scenario. *)
Definition SCENARIO : Dict.t AgentInfo := [
  ("ui-and-ux-agent", mkAgent "UI and UX" EmptyString ["ui"; "menu"] "sonnet");
  ("systems-designer", mkAgent "Systems Designer" EmptyString ["ui"] "opus")
].

(** Every trigger of the registry, agent after agent. *)
Definition all_triggers (AGENTS : Dict.t AgentInfo) : list string :=
  List.concat (map agent_triggers (Dict.values AGENTS)).

(** What a dictionary of occurrence counts holds for [t] after the
    triggers [l] were counted: nothing, or a positive count. *)
Definition tally (l : list string) (t : string) : option nat :=
  match count_occ string_dec l t with
  | 0 => None
  | S n => Some (S n)
  end.

(** The score of one agent, with the counts of the precomputation. *)
Definition counted_score (U : Unicode.database)
           (counts : Dict.t nat) (text : string)
           (info : AgentInfo) : F64.float :=
  let s := fold_left F64.add
                     (map (trigger_weight U counts)
                          (filter (trigger_occurs U text)
                                  (agent_triggers info)))
                     F64.zero in
  if description_bonus U text info then F64.add s F64.half else s.

(** The record [matches] holds for an agent. *)
Definition counted_match (U : Unicode.database)
           (counts : Dict.t nat) (text : string)
           (item : string * AgentInfo) : AgentMatch :=
  mkAgentMatch (fst item) (agent_name (snd item))
               (agent_description (snd item)) (agent_model (snd item))
               (counted_score U counts text (snd item))
               (filter (trigger_occurs U text) (agent_triggers (snd item))).

Definition no_agent : AgentInfo :=
  mkAgent EmptyString EmptyString [] EmptyString.

(** The entry of the registry under [key]. *)
Definition agent_entry (AGENTS : Dict.t AgentInfo) (key : string)
  : string * AgentInfo :=
  (key, Dict.get_default AGENTS key no_agent).

(** A list of strings without repetition, as a test. *)
Fixpoint distinctb (l : list string) : bool :=
  match l with
  | [] => true
  | x :: r => negb (Py.mem x r) && distinctb r
  end.


(** The text matches no trigger of any agent and earns no description
    bonus. *)
Definition no_signal (U : Unicode.database)
           (AGENTS : Dict.t AgentInfo) (text : string) : bool :=
  forallb (fun item =>
             negb (existsb (trigger_occurs U text) (agent_triggers (snd item)))
             && negb (description_bonus U text (snd item)))
          AGENTS.

(** An agent's record with one trigger struck from its list. *)
Definition without_trigger (trigger : string) (info : AgentInfo) : AgentInfo :=
  mkAgent (agent_name info) (agent_description info)
          (filter (fun t => negb (String.eqb t trigger)) (agent_triggers info))
          (agent_model info).

(** [trigger] contains a character outside [\w]. *)
Definition has_non_word_char (U : Unicode.database) (trigger : string)
  : bool :=
  existsb (fun c => negb (Unicode.is_word U c)) (Unicode.chars trigger).

(** The names as the note lists them: separated by a comma and a
    space. *)
Definition comma_separated (names : list string) : string :=
  match names with
  | [] => EmptyString
  | name :: rest =>
      (name ++ fold_right (fun next tail => ", " ++ next ++ tail)
                          EmptyString rest)%string
  end.

(** A database that knows one letter beyond ASCII, the lower-case [é]
    (U+00E9, encoded by the bytes 195 and 169). *)
Definition E_ACUTE : Unicode.database :=
  Unicode.mkDatabase Py.lower (String.eqb "é") (fun _ => false).

(** ** Characters *)

(** Every byte of [t] is a continuation byte. *)
Definition all_continuation (t : string) : bool :=
  forallb Unicode.is_continuation (list_ascii_of_string t).

(** [c] is one byte followed by continuation bytes. *)
Definition one_char (c : string) : bool :=
  match c with
  | EmptyString => false
  | String _ t => all_continuation t
  end.

(** [c] starts with a byte that is no continuation byte. *)
Definition starts_char (c : string) : bool :=
  match c with
  | EmptyString => false
  | String a _ => negb (Unicode.is_continuation a)
  end.

(** A list of characters as [Unicode.chars] cuts them: only the first
    may start with a continuation byte. *)
Definition chars_ok (cs : list string) : Prop :=
  Forall (fun c => one_char c = true) cs
  /\ Forall (fun c => starts_char c = true) (tl cs).

(** The characters put together again. *)
Definition flatten (cs : list string) : string :=
  fold_right append EmptyString cs.

(** ** Document search *)

(** The entry a readable document contributes, if any line matches. *)
Definition document_result (query_lower : string) (doc_file : DocFile)
  : list DocumentMatch :=
  document_step query_lower [] doc_file.

Definition readable (doc_file : DocFile) : bool :=
  match doc_read_text doc_file with
  | ReadText _ => true
  | ReadRaises => false
  end.

(* ================================================================== *)
(** * Further definitions used by the statements below *)

(** ** Strings *)

(** [s] contains an ASCII capital letter. *)
Definition has_upper (s : string) : bool :=
  existsb Py.is_upper (list_ascii_of_string s).

(** [s] is ASCII text: every byte is below 128. *)
Definition is_ascii (s : string) : bool :=
  forallb (fun c => nat_of_ascii c <? 128) (list_ascii_of_string s).

(** ** Document search, line by line *)

(** The lines of a document. *)
Definition lines_of (content : string) : list string :=
  Py.split_on newline content EmptyString.

(** The line contains the query, case aside. *)
Definition line_hit (query line : string) : bool :=
  Py.str_in (Py.lower query) (Py.lower line).

(** The number of lines of a document that contain the query; none when
    the document cannot be read. *)
Definition doc_hits (query : string) (doc_file : DocFile) : nat :=
  match doc_read_text doc_file with
  | ReadText content =>
      List.length (filter (line_hit query) (lines_of content))
  | ReadRaises => 0
  end.

(** The record of the match on line [i] (counted from 0). *)
Definition line_record (lines : list string) (il : nat * string)
  : LineMatch :=
  mkLineMatch (fst il + 1)
              (Py.join (String newline EmptyString)
                       (Py.slice lines (fst il - 2)
                                 (Nat.min (List.length lines) (fst il + 3)))).

Definition hit_key (h : SubsystemHit) : string :=
  match h with
  | HitText key _ _ => key
  | HitKeyword key _ _ => key
  end.

(** The query occurs in the name, the description or a keyword of the
    entry, case aside. *)
Definition subsystem_has_hit (query : string) (info : SubsystemInfo) : bool :=
  Py.str_in (Py.lower query) (Py.lower (sub_name info))
  || Py.str_in (Py.lower query) (Py.lower (sub_description info))
  || existsb (fun keyword => Py.str_in (Py.lower query) (Py.lower keyword))
             (sub_keywords info).

(** A small documentation directory: two readable documents around one
    whose reading raises. *)
Definition SAMPLE_DIR : list DocFile := [
  mkDocFile "architecture" ".claude/context/architecture.md"
            (ReadText (Py.join (String newline EmptyString)
                               ["# Architecture"; EmptyString;
                                "Host keeps state in Sync.";
                                "Clients interpolate."; "No sync on pause.";
                                "Snapshots are cheap."; "Resync on join."]));
  mkDocFile "item-system" ".claude/context/item-system.md" ReadRaises;
  mkDocFile "input-system" ".claude/context/input-system.md"
            (ReadText "Input is polled.")
].

(** A document of twelve lines that all contain the query "sync". *)
Definition LONG_DOC : DocFile :=
  mkDocFile "network-operations" ".claude/context/network-operations.md"
            (ReadText (Py.join (String newline EmptyString)
                               (repeat "- resync the client" 12))).

(** The entry a subsystem contributes to the cross-reference, if any. *)
Definition subsystem_hit (query_lower : string)
           (item : string * SubsystemInfo) : list SubsystemHit :=
  subsystem_hit_step query_lower [] item.

(** Every readable document of the directory is ASCII text. *)
Definition ascii_documents (files : list DocFile) : Prop :=
  forall f content,
    In f files -> doc_read_text f = ReadText content ->
    is_ascii content = true.

(** ** Relevance scoring, further *)

(** An entry of the index with one keyword struck from its list. *)
Definition without_keyword (keyword : string) (info : SubsystemInfo)
  : SubsystemInfo :=
  mkSubsystem (sub_name info) (sub_description info)
              (filter (fun k => negb (String.eqb k keyword))
                      (sub_keywords info))
              (sub_files info).

(** ** Lower bounds on scores *)

(** A score of at least [2^(k-1)]: [+inf], or a positive finite float in
    canonical form (a mantissa of 53 bits at most) whose magnitude is [k]
    or more. *)
Definition at_least (k : Z) (x : F64.float) : Prop :=
  match x with
  | S754_infinity false => True
  | S754_finite false m e =>
      (Zpos (digits2_pos m) <= 53 /\ k <= Zpos (digits2_pos m) + e)%Z
  | _ => False
  end.

(** [2.0 ** (k - 1)] for the exponents of the normal range. *)
Definition power_of_two (k : Z) : F64.float :=
  S754_finite false 4503599627370496 (k - 53)%Z.

(** ** ASCII text *)

(** Every description and trigger of the registry is ASCII text. *)
Definition ascii_registry (REGISTRY : Dict.t AgentInfo) : bool :=
  forallb (fun item =>
             is_ascii (agent_description (snd item))
             && forallb is_ascii (agent_triggers (snd item)))
          REGISTRY.

(** The database lower-cases ASCII text as [str.lower()] does: it folds
    the letters [A] to [Z] and keeps the rest. *)
Definition folds_ascii (U : Unicode.database) : Prop :=
  forall s, is_ascii s = true -> Unicode.lower U s = Py.lower s.

(* ================================================================== *)
(** * Lists and loops *)

Lemma fold_left_append {A B : Type} (step : list B -> A -> list B)
      (g : A -> list B) :
  (forall acc x, step acc x = acc ++ g x) ->
  forall l acc, fold_left step l acc = acc ++ flat_map g l.
Proof.
  intros Hstep l. induction l as [|x l IH]; intros acc; cbn.
  - now rewrite app_nil_r.
  - rewrite IH, Hstep, <- app_assoc. reflexivity.
Qed.

Lemma flat_map_filter_map {A B : Type} (p : A -> bool) (f : A -> B)
      (l : list A) :
  flat_map (fun x => if p x then [f x] else []) l = map f (filter p l).
Proof.
  induction l as [|x l IH]; cbn; [reflexivity|].
  destruct (p x); cbn; now rewrite IH.
Qed.










Lemma StronglySorted_app_inv {A : Type} (R : A -> A -> Prop) (x : A)
      (l1 l2 : list A) :
  StronglySorted R (l1 ++ x :: l2) -> Forall (R x) l2.
Proof.
  induction l1 as [|a l1 IH]; cbn; intros H; inversion H; subst; auto.
Qed.

(* ================================================================== *)
(** * Strings, sets and dictionaries *)

Lemma mem_In (x : string) (xs : list string) :
  Py.mem x xs = true <-> In x xs.
Proof.
  unfold Py.mem. rewrite existsb_exists. split.
  - intros (y & Hy & E). apply String.eqb_eq in E. now subst.
  - intros H. exists x. split; [assumption | apply String.eqb_refl].
Qed.

Lemma mem_false (x : string) (xs : list string) :
  Py.mem x xs = false <-> ~ In x xs.
Proof.
  rewrite <- mem_In. destruct (Py.mem x xs); intuition congruence.
Qed.

Lemma existsb_set (f : string -> bool) (xs : list string) :
  existsb f (Py.set xs) = existsb f xs.
Proof.
  apply eq_true_iff_eq. rewrite !existsb_exists. unfold Py.set.
  split; intros (y & Hy & E); exists y; split; try assumption.
  - now apply nodup_In in Hy.
  - now apply nodup_In.
Qed.

Lemma mem_set (x : string) (xs : list string) :
  Py.mem x (Py.set xs) = Py.mem x xs.
Proof. apply existsb_set. Qed.

(** ** Characters and tokens *)

Lemma string_app_assoc (a b c : string) :
  ((a ++ b) ++ c = a ++ (b ++ c))%string.
Proof. induction a as [|x a IH]; cbn; [reflexivity | now rewrite IH]. Qed.

Lemma string_app_nil_r (a : string) : (a ++ EmptyString)%string = a.
Proof. induction a as [|x a IH]; cbn; [reflexivity | now rewrite IH]. Qed.

Lemma flatten_app (l1 l2 : list string) :
  flatten (l1 ++ l2) = (flatten l1 ++ flatten l2)%string.
Proof.
  unfold flatten. induction l1 as [|c l1 IH]; cbn [app fold_right];
    [reflexivity|].
  now rewrite IH, string_app_assoc.
Qed.

(** Continuation bytes go to the character being read. *)
Lemma chars_from_continuation (t s cur : string) :
  all_continuation t = true ->
  Unicode.chars_from (t ++ s) cur = Unicode.chars_from s (cur ++ t).
Proof.
  revert cur. induction t as [|x t IH]; intros cur H.
  - cbn. now rewrite string_app_nil_r.
  - unfold all_continuation in H. cbn in H.
    apply andb_prop in H as [Hx Ht]. cbn [append Unicode.chars_from].
    rewrite Hx, (IH _ Ht), string_app_assoc. reflexivity.
Qed.

(** A byte that is no continuation byte starts a character. *)
Lemma chars_from_start (s cur : string) :
  s = EmptyString \/ starts_char s = true ->
  Unicode.chars_from s cur = Py.flush cur ++ Unicode.chars s.
Proof.
  intros [-> | H].
  - cbn. now rewrite app_nil_r.
  - destruct s as [|a s]; [discriminate|]. cbn in H.
    apply negb_true_iff in H. unfold Unicode.chars.
    cbn [Unicode.chars_from]. rewrite H. reflexivity.
Qed.

Lemma flatten_start (cs : list string) :
  Forall (fun c => starts_char c = true) cs ->
  flatten cs = EmptyString \/ starts_char (flatten cs) = true.
Proof.
  intros H. destruct H as [|c cs Hc _]; [now left|]. right.
  destruct c as [|a t]; [discriminate|]. exact Hc.
Qed.

(** Cutting the bytes of a list of characters gives the list back. *)
Lemma chars_flatten (cs : list string) :
  chars_ok cs -> Unicode.chars (flatten cs) = cs.
Proof.
  unfold chars_ok. induction cs as [|c cs IH]; intros [Hone Hstart];
    [reflexivity|].
  cbn [tl] in Hstart. inversion Hone as [|? ? Hc Hcs]; subst.
  destruct c as [|a t]; [discriminate|]. cbn [one_char] in Hc.
  assert (E : Unicode.chars (flatten (String a t :: cs))
              = Unicode.chars_from (t ++ flatten cs)
                                   (String a EmptyString)).
  { unfold Unicode.chars. cbn [flatten fold_right append Unicode.chars_from].
    destruct (Unicode.is_continuation a); reflexivity. }
  rewrite E, (chars_from_continuation _ _ _ Hc).
  rewrite (chars_from_start _ _ (flatten_start cs Hstart)).
  cbn [append Py.flush app]. f_equal. apply IH. split; [exact Hcs|].
  destruct cs as [|c' cs']; [constructor|]. cbn [tl].
  now inversion Hstart.
Qed.

Lemma flush_one_char (t : string) :
  all_continuation t = true ->
  Forall (fun c => one_char c = true) (Py.flush t).
Proof.
  intros H. destruct t as [|a t]; [constructor|]. cbn [Py.flush].
  constructor; [|constructor]. unfold all_continuation in H. cbn in H.
  now apply andb_prop in H.
Qed.

(** What [Unicode.chars_from] returns: the character being read with the
    continuation bytes that follow, then characters that start with a
    byte of their own. *)
Lemma chars_from_shape (s cur : string) :
  exists t rest,
    all_continuation t = true
    /\ Unicode.chars_from s cur = Py.flush (cur ++ t) ++ rest
    /\ Forall (fun c => one_char c = true /\ starts_char c = true) rest.
Proof.
  revert cur. induction s as [|c s IH]; intros cur.
  - exists EmptyString, []. cbn. rewrite string_app_nil_r, app_nil_r. auto.
  - cbn [Unicode.chars_from].
    destruct (Unicode.is_continuation c) eqn:Hc.
    + destruct (IH (cur ++ String c EmptyString)%string)
        as (t & rest & Ht & E & Hr).
      exists (String c t), rest. split; [|split; [|exact Hr]].
      * unfold all_continuation in *. cbn. now rewrite Hc.
      * rewrite E, string_app_assoc. reflexivity.
    + destruct (IH (String c EmptyString)) as (t & rest & Ht & E & Hr).
      exists EmptyString, (String c t :: rest). split; [reflexivity|].
      split.
      * rewrite E, string_app_nil_r. reflexivity.
      * constructor; [|exact Hr]. cbn. now rewrite Hc.
Qed.

Lemma chars_chars_ok (s : string) : chars_ok (Unicode.chars s).
Proof.
  unfold Unicode.chars.
  destruct (chars_from_shape s EmptyString) as (t & rest & Ht & E & Hr).
  rewrite E. cbn [append].
  assert (H1 : Forall (fun c => one_char c = true) rest)
    by (eapply Forall_impl; [|exact Hr]; now intros c [H _]).
  assert (H2 : Forall (fun c => starts_char c = true) rest)
    by (eapply Forall_impl; [|exact Hr]; now intros c [_ H]).
  split.
  - apply Forall_app. split; [now apply flush_one_char | exact H1].
  - destruct t as [|a t]; cbn [Py.flush app tl]; [|exact H2].
    destruct rest as [|c rest]; [constructor|]. cbn [tl]. now inversion H2.
Qed.

Lemma chars_ok_app_l (l1 l2 : list string) :
  chars_ok (l1 ++ l2) -> chars_ok l1.
Proof.
  unfold chars_ok. intros [H1 H2]. apply Forall_app in H1 as [H1 _].
  split; [exact H1|]. destruct l1 as [|c l1]; [constructor|].
  cbn [app tl] in *. now apply Forall_app in H2 as [H2 _].
Qed.

Lemma chars_ok_app_r (l1 l2 : list string) :
  chars_ok (l1 ++ l2) -> chars_ok l2.
Proof.
  unfold chars_ok. intros [H1 H2]. apply Forall_app in H1 as [_ H1].
  split; [exact H1|]. destruct l1 as [|c l1]; [exact H2|].
  cbn [app tl] in H2. apply Forall_app in H2 as [_ H2].
  destruct l2 as [|c2 l2]; [constructor|]. cbn [tl]. now inversion H2.
Qed.

(** Every run is made of characters of the class, put together. *)
Lemma runs_tokens (p : string -> bool) (cs cur : list string) (w : string) :
  chars_ok (cur ++ cs) ->
  Forall (fun c => p c = true) cur ->
  In w (Unicode.runs p cs (flatten cur)) ->
  exists run,
    w = flatten run /\ Forall (fun c => p c = true) run /\ chars_ok run.
Proof.
  revert cur. induction cs as [|c cs IH]; intros cur Hok Hcur Hw;
    cbn [Unicode.runs] in Hw.
  - rewrite app_nil_r in Hok.
    destruct (flatten cur) eqn:E; cbn in Hw; [contradiction|].
    destruct Hw as [<- | []]. exists cur. rewrite E.
    split; [reflexivity | split; [exact Hcur | exact Hok]].
  - destruct (p c) eqn:Hc.
    + apply (IH (cur ++ [c])).
      * now rewrite <- app_assoc.
      * apply Forall_app. split; [exact Hcur | now constructor].
      * rewrite flatten_app. cbn [flatten fold_right].
        now rewrite string_app_nil_r.
    + apply in_app_or in Hw as [Hw | Hw].
      * destruct (flatten cur) eqn:E; cbn in Hw; [contradiction|].
        destruct Hw as [<- | []]. exists cur. rewrite E.
        split; [reflexivity | split; [exact Hcur|]].
        now apply chars_ok_app_l in Hok.
      * apply (IH []); [|constructor | exact Hw].
        apply chars_ok_app_r in Hok.
        now apply (chars_ok_app_r [c]) in Hok.
Qed.

(** A word token is made of word characters only. *)
Lemma findall_words_chars (U : Unicode.database) (s w : string) :
  In w (Unicode.findall_words U s) -> has_non_word_char U w = false.
Proof.
  intros H. unfold Unicode.findall_words in H.
  apply (runs_tokens _ _ []) in H as (run & -> & Hp & Hok);
    [|apply chars_chars_ok | constructor].
  unfold has_non_word_char. rewrite (chars_flatten run Hok). clear Hok.
  induction Hp as [|c run Hc _ IH]; [reflexivity|]. cbn [existsb].
  now rewrite Hc, IH.
Qed.

(** On ASCII text the tokens do not depend on the database; a character
    outside ASCII is a word character when the database says so. *)
Example tokens_of_text :
  forall U : Unicode.database,
    Unicode.findall_words U "don't a*b pub/sub x_1"
    = ["don"; "t"; "a"; "b"; "pub"; "sub"; "x_1"]
    /\ Unicode.split U "  lock-on   target " = ["lock-on"; "target"]
    /\ Unicode.len "x_1" = 3.
Proof. intros U. vm_compute. repeat split. Qed.


Lemma dict_get_set {V : Type} (d : Dict.t V) (k k' : string) (v : V) :
  Dict.get (Dict.set d k v) k'
  = if String.eqb k' k then Some v else Dict.get d k'.
Proof.
  induction d as [|[k0 v0] d IH]; cbn.
  - reflexivity.
  - destruct (String.eqb k k0) eqn:E0; cbn.
    + apply String.eqb_eq in E0. subst k0.
      destruct (String.eqb k' k); reflexivity.
    + destruct (String.eqb k' k0) eqn:E1.
      * apply String.eqb_eq in E1. subst k0.
        rewrite String.eqb_sym in E0. now rewrite E0.
      * exact IH.
Qed.

Lemma dict_get_Some_In {V : Type} (d : Dict.t V) (k : string) (v : V) :
  Dict.get d k = Some v -> In (k, v) d.
Proof.
  induction d as [|[k0 v0] d IH]; cbn; [discriminate|].
  destruct (String.eqb k k0) eqn:E.
  - apply String.eqb_eq in E. intros [= ->]. left. now subst.
  - intros H. right. now apply IH.
Qed.

Lemma dict_get_None {V : Type} (d : Dict.t V) (k : string) :
  Dict.get d k = None <-> ~ In k (Dict.keys d).
Proof.
  induction d as [|[k0 v0] d IH]; cbn.
  - tauto.
  - destruct (String.eqb k k0) eqn:E.
    + apply String.eqb_eq in E. subst. split; [discriminate|].
      intros H. elim H. now left.
    + apply String.eqb_neq in E. rewrite IH. unfold Dict.keys.
      split; intros H; [intros [E' | H'] | intros H']; try congruence;
        auto.
Qed.

Lemma dict_get_keys {V : Type} (d : Dict.t V) (k : string) :
  In k (Dict.keys d) <-> exists v, Dict.get d k = Some v.
Proof.
  destruct (Dict.get d k) as [v|] eqn:E.
  - split; [now exists v|]. intros _.
    apply dict_get_Some_In in E. unfold Dict.keys.
    change k with (fst (k, v)). now apply in_map.
  - apply dict_get_None in E. split; [contradiction|].
    intros (v & Hv). discriminate.
Qed.

(* ================================================================== *)
(** * The stable descending sort *)

Section StableSort.

Variables (A K : Type) (key : A -> K) (ltb leb : K -> K -> bool).

Lemma insert_desc_perm (x : A) (l : list A) :
  Permutation (Py.insert_desc key ltb x l) (x :: l).
Proof.
  induction l as [|y r IH]; cbn; [reflexivity|].
  destruct (ltb (key x) (key y)); [|reflexivity].
  rewrite IH. apply perm_swap.
Qed.

Lemma sort_desc_perm (l : list A) :
  Permutation (Py.sort_desc key ltb l) l.
Proof.
  induction l as [|x l IH]; cbn; [reflexivity|].
  fold (Py.sort_desc key ltb l). rewrite insert_desc_perm. now constructor.
Qed.

Lemma sort_desc_In (x : A) (l : list A) :
  In x (Py.sort_desc key ltb l) <-> In x l.
Proof.
  split; apply Permutation_in;
    [apply sort_desc_perm | symmetry; apply sort_desc_perm].
Qed.



(** Sortedness needs the order to be total on the keys at hand. *)
Variable ok : K -> Prop.
Hypothesis ltb_negb_leb :
  forall x y, ok x -> ok y -> ltb x y = negb (leb y x).
Hypothesis leb_total :
  forall x y, ok x -> ok y -> leb x y = true \/ leb y x = true.
Hypothesis leb_trans :
  forall x y z, ok x -> ok y -> ok z ->
                leb x y = true -> leb y z = true -> leb x z = true.

Lemma insert_desc_sorted (x : A) (l : list A) :
  ok (key x) -> Forall (fun a => ok (key a)) l ->
  StronglySorted (desc key leb) l ->
  StronglySorted (desc key leb) (Py.insert_desc key ltb x l).
Proof.
  intros Hx Hok Hs. induction Hs as [|y r Hs IH Hf]; cbn.
  - repeat constructor.
  - inversion Hok as [|? ? Hy Hr]; subst.
    destruct (ltb (key x) (key y)) eqn:E;
      rewrite ltb_negb_leb in E by assumption.
    + constructor; [now apply IH|].
      apply (Permutation_Forall (Permutation_sym (insert_desc_perm x r))).
      constructor; [|assumption]. unfold desc.
      destruct (leb_total (key x) (key y) Hx Hy) as [H|H]; [exact H|].
      rewrite H in E. discriminate.
    + apply negb_false_iff in E.
      constructor; [now constructor|].
      constructor; [exact E|].
      rewrite Forall_forall in *. intros z Hz. unfold desc in *.
      apply (leb_trans _ (key y)); auto.
Qed.

Theorem sort_desc_sorted (l : list A) :
  Forall (fun a => ok (key a)) l ->
  StronglySorted (desc key leb) (Py.sort_desc key ltb l).
Proof.
  induction l as [|x l IH]; cbn; intros Hok; [constructor|].
  inversion Hok; subst. fold (Py.sort_desc key ltb l).
  apply insert_desc_sorted; auto.
  apply (Permutation_Forall (Permutation_sym (sort_desc_perm l))).
  assumption.
Qed.

End StableSort.

(* ================================================================== *)
(** * Binary64 arithmetic

    The scores are sums of products of small positive numbers.  The
    lemmas below show that such values are never NaN nor negative, so
    that [<], [<=] and [==] order them totally. *)

Section Binary64.

Local Open Scope Z_scope.

(** ** Bit lengths *)

Lemma digits2_pos_bounds (p : positive) :
  2 ^ (Zpos (digits2_pos p) - 1) <= Zpos p < 2 ^ Zpos (digits2_pos p).
Proof.
  induction p as [p IH | p IH |]; cbn [digits2_pos].
  - rewrite Pos2Z.inj_succ.
    replace (Z.succ (Zpos (digits2_pos p)) - 1)
      with (Z.succ (Zpos (digits2_pos p) - 1)) by lia.
    rewrite !Z.pow_succ_r by lia. lia.
  - rewrite Pos2Z.inj_succ.
    replace (Z.succ (Zpos (digits2_pos p)) - 1)
      with (Z.succ (Zpos (digits2_pos p) - 1)) by lia.
    rewrite !Z.pow_succ_r by lia. lia.
  - cbn. lia.
Qed.

Lemma Zdigits2_nonneg (m : Z) : 0 <= Zdigits2 m.
Proof. destruct m; cbn; lia. Qed.

Lemma Zdigits2_pos_iff (m : Z) : 0 <= m -> (0 < Zdigits2 m <-> 0 < m).
Proof. destruct m; cbn; lia. Qed.

Lemma Zdigits2_le (a b : Z) : 0 <= a <= b -> Zdigits2 a <= Zdigits2 b.
Proof.
  intros [Ha Hab]. destruct a as [|p|p]; [apply Zdigits2_nonneg| |lia].
  destruct b as [|q|q]; try lia. cbn.
  pose proof (digits2_pos_bounds p) as [Hp _].
  pose proof (digits2_pos_bounds q) as [_ Hq].
  destruct (Z_le_gt_dec (Zpos (digits2_pos p)) (Zpos (digits2_pos q)))
    as [|Hgt]; [assumption|].
  exfalso.
  assert (2 ^ Zpos (digits2_pos q) <= 2 ^ (Zpos (digits2_pos p) - 1))
    by (apply Z.pow_le_mono_r; lia).
  lia.
Qed.

Lemma Zdigits2_succ (m : Z) : 0 <= m -> Zdigits2 (m + 1) <= Zdigits2 m + 1.
Proof.
  intros Hm. destruct m as [|p|p]; [cbn; lia| |lia].
  change (Zpos p + 1) with (Zpos (p + 1)). cbn.
  pose proof (digits2_pos_bounds p) as [_ Hp].
  pose proof (digits2_pos_bounds (p + 1)) as [Hq _].
  destruct (Z_le_gt_dec (Zpos (digits2_pos (p + 1)))
                        (Zpos (digits2_pos p) + 1)) as [|Hgt];
    [assumption|].
  exfalso.
  assert (H : 2 ^ (Zpos (digits2_pos p) + 1)
              <= 2 ^ (Zpos (digits2_pos (p + 1)) - 1))
    by (apply Z.pow_le_mono_r; lia).
  rewrite Z.pow_add_r in H by lia. lia.
Qed.

Lemma Zdigits2_add (a b : Z) :
  0 <= a -> 0 <= b ->
  Zdigits2 (a + b) <= Z.max (Zdigits2 a) (Zdigits2 b) + 1.
Proof.
  intros Ha Hb. pose proof (Zdigits2_nonneg a) as Hda.
  destruct (Z.eq_dec (a + b) 0) as [E|NE]; [rewrite E; cbn; lia|].
  destruct (a + b) as [|s|s] eqn:Es; try lia. cbn [Zdigits2].
  pose proof (digits2_pos_bounds s) as [Hs _].
  set (d := Z.max (Zdigits2 a) (Zdigits2 b)).
  assert (Hlt : forall x, 0 <= x -> Zdigits2 x <= d -> x < 2 ^ d).
  { intros x Hx Hd.
    destruct x as [|p|p]; [apply Z.pow_pos_nonneg; lia| |lia].
    cbn in Hd. pose proof (digits2_pos_bounds p) as [_ Hp].
    assert (2 ^ Zpos (digits2_pos p) <= 2 ^ d)
      by (apply Z.pow_le_mono_r; lia).
    lia. }
  assert (a < 2 ^ d) by (apply Hlt; lia).
  assert (b < 2 ^ d) by (apply Hlt; lia).
  destruct (Z_le_gt_dec (Zpos (digits2_pos s)) (d + 1)) as [|Hgt];
    [assumption|].
  exfalso.
  assert (H1 : 2 ^ (d + 1) <= 2 ^ (Zpos (digits2_pos s) - 1))
    by (apply Z.pow_le_mono_r; lia).
  rewrite Z.pow_add_r in H1 by lia. lia.
Qed.

Lemma digits2_pos_iter_xO (d m : positive) :
  Zpos (digits2_pos (Pos.iter xO m d)) = Zpos (digits2_pos m) + Zpos d.
Proof.
  induction d as [|d IH] using Pos.peano_ind.
  - cbn. lia.
  - rewrite Pos.iter_succ. cbn [digits2_pos]. lia.
Qed.

Lemma Zdigits2_shiftl (p : positive) (s : Z) :
  0 <= s -> Zdigits2 (Z.shiftl (Zpos p) s) = Zpos (digits2_pos p) + s.
Proof.
  intros Hs. destruct s as [|s|s]; try lia; [cbn; lia|].
  cbn [Z.shiftl]. clear Hs.
  induction s as [|s IH] using Pos.peano_ind.
  - cbn. lia.
  - rewrite Pos.iter_succ, Pos2Z.inj_succ.
    destruct (Pos.iter (Z.mul 2) (Zpos p) s); cbn in IH |- *; lia.
Qed.

(** ** Rounding *)

Lemma shr_1_facts (mrs : shr_record) :
  0 <= shr_m mrs ->
  0 <= shr_m (shr_1 mrs)
  /\ Zdigits2 (shr_m (shr_1 mrs)) = Z.max 0 (Zdigits2 (shr_m mrs) - 1).
Proof.
  destruct mrs as [m r s]. cbn [shr_m]. intros Hm.
  destruct m as [|[p|p|]|p]; cbn [shr_1 shr_m Zdigits2 digits2_pos];
    rewrite ?Pos2Z.inj_succ; lia.
Qed.

Lemma iter_shr_1_facts (p : positive) (mrs : shr_record) :
  0 <= shr_m mrs ->
  0 <= shr_m (iter_pos shr_1 p mrs)
  /\ Zdigits2 (shr_m (iter_pos shr_1 p mrs))
     = Z.max 0 (Zdigits2 (shr_m mrs) - Zpos p).
Proof.
  revert mrs. induction p as [p IH | p IH |]; intros mrs Hm; cbn [iter_pos].
  - destruct (shr_1_facts mrs Hm) as [H1 D1].
    destruct (IH _ H1) as [H2 D2]. destruct (IH _ H2) as [H3 D3].
    split; [assumption|]. rewrite D3, D2, D1. lia.
  - destruct (IH _ Hm) as [H2 D2]. destruct (IH _ H2) as [H3 D3].
    split; [assumption|]. rewrite D3, D2. lia.
  - destruct (shr_1_facts mrs Hm) as [H1 D1].
    split; [assumption|]. rewrite D1. lia.
Qed.

Lemma shr_record_of_loc_m (m : Z) (l : location) :
  shr_m (shr_record_of_loc m l) = m.
Proof. destruct l as [|[| |]]; reflexivity. Qed.

Lemma fexp_fexp64 (e : Z) : fexp F64.prec F64.emax e = F64.fexp64 e.
Proof. reflexivity. Qed.

Lemma shr_fexp_facts (m e : Z) (l : location) :
  0 <= m ->
  let r := shr_fexp F64.prec F64.emax m e l in
  0 <= shr_m (fst r)
  /\ snd r = Z.max e (F64.fexp64 (Zdigits2 m + e))
  /\ Zdigits2 (shr_m (fst r)) = Z.max 0 (Zdigits2 m - (snd r - e)).
Proof.
  intros Hm. unfold shr_fexp, shr. rewrite fexp_fexp64.
  pose proof (Zdigits2_nonneg m) as Hd.
  destruct (F64.fexp64 (Zdigits2 m + e) - e) as [|n|n] eqn:En;
    cbn [fst snd].
  - rewrite shr_record_of_loc_m. lia.
  - destruct (iter_shr_1_facts n (shr_record_of_loc m l)) as [H1 D1].
    { rewrite shr_record_of_loc_m; assumption. }
    rewrite shr_record_of_loc_m in D1. rewrite D1. lia.
  - rewrite shr_record_of_loc_m. lia.
Qed.

Lemma round_nearest_even_facts (m : Z) (l : location) :
  0 <= m -> m <= round_nearest_even m l <= m + 1.
Proof.
  intros Hm. destruct l as [|[| |]]; cbn; try lia.
  destruct (Z.even m); lia.
Qed.

(** The shape of a rounded non-negative value [mx * 2^ex]: it is [+0]
    only below the normal range, [+inf] only above the finite range, and
    otherwise a positive float of nearly the same magnitude. *)
Lemma binary_round_aux_facts (mx ex : Z) (lx : location) :
  0 <= mx ->
  match binary_round_aux F64.prec F64.emax false mx ex lx with
  | S754_zero false => 0 < mx -> Zdigits2 mx + ex < -1021
  | S754_infinity false => 971 < ex \/ 1023 < Zdigits2 mx + ex
  | S754_finite false m e =>
      ex <= e
      /\ Zpos (digits2_pos m) + e <= Z.max (Zdigits2 mx + ex) (-1074) + 1
      /\ (0 < mx -> Zdigits2 mx + ex <= Zpos (digits2_pos m) + e)
  | _ => False
  end.
Proof.
  intros Hm. unfold binary_round_aux.
  pose proof (shr_fexp_facts mx ex lx Hm) as H1. cbv zeta in H1.
  destruct (shr_fexp F64.prec F64.emax mx ex lx) as [mrs1 e1].
  cbn [fst snd] in H1. destruct H1 as (Hm1 & He1 & Hd1).
  pose proof (round_nearest_even_facts
                (shr_m mrs1) (loc_of_shr_record mrs1) Hm1) as Hr.
  set (m2 := round_nearest_even (shr_m mrs1) (loc_of_shr_record mrs1)) in *.
  assert (Hm2 : 0 <= m2) by lia.
  pose proof (shr_fexp_facts m2 e1 loc_Exact Hm2) as H2. cbv zeta in H2.
  destruct (shr_fexp F64.prec F64.emax m2 e1 loc_Exact) as [mrs2 e2].
  cbn [fst snd] in H2. destruct H2 as (Hm3 & He2 & Hd2).
  unfold F64.fexp64 in He1, He2.
  assert (Hd2u : Zdigits2 m2 <= Zdigits2 (shr_m mrs1) + 1).
  { destruct (Z.eq_dec m2 (shr_m mrs1)) as [->|]; [lia|].
    replace m2 with (shr_m mrs1 + 1) by lia.
    apply Zdigits2_succ; assumption. }
  assert (Hd2l : Zdigits2 (shr_m mrs1) <= Zdigits2 m2)
    by (apply Zdigits2_le; lia).
  pose proof (Zdigits2_nonneg mx) as Hdx.
  pose proof (Zdigits2_pos_iff mx Hm) as Hpx.
  pose proof (Zdigits2_pos_iff (shr_m mrs1) Hm1) as Hp1.
  pose proof (Zdigits2_pos_iff m2 Hm2) as Hp2.
  pose proof (Zdigits2_pos_iff (shr_m mrs2) Hm3) as Hp3.
  destruct (shr_m mrs2) as [|m|m] eqn:Em; [| |lia].
  - intros Hpos. cbn in Hd2. lia.
  - cbn [Zdigits2] in Hd2.
    destruct (Z.leb_spec e2 (F64.emax - F64.prec)) as [Hle|Hgt];
      unfold F64.emax, F64.prec in *; lia.
Qed.

Lemma shl_align_facts (mx : positive) (ex ex' : Z) :
  let r := shl_align mx ex ex' in
  snd r = Z.min ex ex'
  /\ Zpos (digits2_pos (fst r)) + snd r = Zpos (digits2_pos mx) + ex.
Proof.
  unfold shl_align. destruct (ex' - ex) as [|d|d] eqn:E; cbn [fst snd].
  - lia.
  - lia.
  - rewrite digits2_pos_iter_xO. lia.
Qed.

Lemma binary_round_facts (mx : positive) (ex : Z) :
  match binary_round F64.prec F64.emax false mx ex with
  | S754_zero false => Zpos (digits2_pos mx) + ex < -1021
  | S754_infinity false => 971 < ex \/ 1023 < Zpos (digits2_pos mx) + ex
  | S754_finite false m e =>
      Z.min ex (F64.fexp64 (Zpos (digits2_pos mx) + ex)) <= e
      /\ Zpos (digits2_pos m) + e
         <= Z.max (Zpos (digits2_pos mx) + ex) (-1074) + 1
      /\ Zpos (digits2_pos mx) + ex <= Zpos (digits2_pos m) + e
  | _ => False
  end.
Proof.
  unfold binary_round.
  pose proof (shl_align_facts
                mx ex (fexp F64.prec F64.emax (Zpos (digits2_pos mx) + ex)))
    as H.
  cbv zeta in H. rewrite fexp_fexp64 in H.
  destruct (shl_align mx ex _) as [mz ez]. cbn [fst snd] in H.
  destruct H as [He Hd].
  pose proof (binary_round_aux_facts (Zpos mz) ez loc_Exact ltac:(lia)) as H.
  cbn [Zdigits2] in H.
  destruct (binary_round_aux F64.prec F64.emax false (Zpos mz) ez loc_Exact)
    as [[|]|[|]| |[|] m e]; try exact H; lia.
Qed.

(** ** The operations keep scores non-negative *)

Lemma nonneg_binary_round_aux (mx ex : Z) (lx : location) :
  0 <= mx ->
  F64.nonneg (binary_round_aux F64.prec F64.emax false mx ex lx) = true.
Proof.
  intros Hm. pose proof (binary_round_aux_facts mx ex lx Hm) as H.
  destruct (binary_round_aux F64.prec F64.emax false mx ex lx)
    as [[|]|[|]| |[|] m e]; try reflexivity; contradiction.
Qed.

Lemma nonneg_binary_round (mx : positive) (ex : Z) :
  F64.nonneg (binary_round F64.prec F64.emax false mx ex) = true.
Proof.
  pose proof (binary_round_facts mx ex) as H.
  destruct (binary_round F64.prec F64.emax false mx ex)
    as [[|]|[|]| |[|] m e]; try reflexivity; contradiction.
Qed.

(** [float(n)] is [0.0] for [n = 0], and otherwise a positive float whose
    exponent is at least [-52], or [+inf]. *)
Lemma of_nat_facts (n : nat) :
  match F64.of_nat n with
  | S754_zero false => n = 0%nat
  | S754_infinity false => True
  | S754_finite false m e => -52 <= e
  | _ => False
  end.
Proof.
  unfold F64.of_nat, binary_normalize.
  destruct (Z.of_nat n) as [|p|p] eqn:E; [lia| |lia].
  pose proof (binary_round_facts p 0) as H.
  pose proof (Pos2Z.is_pos (digits2_pos p)) as Hp.
  destruct (binary_round F64.prec F64.emax false p 0)
    as [[|]|[|]| |[|] m e]; try exact H; try exact I.
  - exfalso. lia.
  - destruct H as [H _]. unfold F64.fexp64 in H. lia.
Qed.

Lemma nonneg_of_nat (n : nat) : F64.nonneg (F64.of_nat n) = true.
Proof.
  pose proof (of_nat_facts n) as H.
  destruct (F64.of_nat n) as [[|]|[|]| |[|] m e];
    try reflexivity; contradiction.
Qed.

Lemma nonneg_add (x y : F64.float) :
  F64.nonneg x = true -> F64.nonneg y = true ->
  F64.nonneg (F64.add x y) = true.
Proof.
  destruct x as [[|]|[|]| |[|] mx ex]; try discriminate;
    destruct y as [[|]|[|]| |[|] my ey]; try discriminate;
    intros _ _; try reflexivity.
  unfold F64.add, SFadd, cond_Zopp, binary_normalize.
  change (Zpos ?a + Zpos ?b) with (Zpos (a + b)).
  apply nonneg_binary_round.
Qed.

Lemma nonneg_mul (x y : F64.float) (lo hi : Z) :
  F64.nonneg x = true -> F64.in_range lo hi y ->
  F64.nonneg (F64.mul x y) = true.
Proof.
  destruct x as [[|]|[|]| |[|] mx ex]; try discriminate;
    destruct y as [[|]|[|]| |[|] my ey]; cbn [F64.in_range];
    try contradiction; intros _ _; try reflexivity.
  unfold F64.mul, SFmul. cbn [xorb]. apply nonneg_binary_round_aux. lia.
Qed.

(** [1.0 / float(c)] for a count [c >= 1] is [0.0] or lies below [2^54]. *)
Lemma reciprocal_facts (c : nat) :
  (1 <= c)%nat ->
  match F64.div F64.one (F64.of_nat c) with
  | S754_zero false => True
  | S754_finite false m e => Zpos (digits2_pos m) + e <= 54
  | _ => False
  end.
Proof.
  intros Hc. pose proof (of_nat_facts c) as Hn.
  destruct (F64.of_nat c) as [[|]|[|]| |[|] m e];
    try contradiction; try lia; [exact I|].
  unfold F64.div, F64.one, SFdiv, SFdiv_core_binary. cbn [xorb Zdigits2].
  rewrite fexp_fexp64.
  set (d1 := Zpos (digits2_pos 4503599627370496)).
  assert (Hd1 : d1 = 53) by reflexivity.
  set (e' := Z.min (F64.fexp64 (d1 + -52 - (Zpos (digits2_pos m) + e)))
                   (-52 - e)).
  set (s := -52 - e - e').
  set (m' := match s with
             | Z0 => Zpos 4503599627370496
             | Zpos _ => Z.shiftl (Zpos 4503599627370496) s
             | Zneg _ => 0
             end).
  assert (Hs : 0 <= s) by (unfold s, e'; lia).
  assert (Hm' : 0 <= m' /\ Zdigits2 m' <= 53 + s).
  { unfold m'. destruct s as [|sp|sp] eqn:Es; try lia; [cbn; lia|].
    rewrite <- Es in *. rewrite Zdigits2_shiftl by lia. fold d1.
    split; [|lia]. rewrite Z.shiftl_mul_pow2 by lia.
    apply Z.mul_nonneg_nonneg; [lia|]. apply Z.pow_nonneg. lia. }
  destruct Hm' as [Hm'0 Hm'd].
  pose proof (Z.div_eucl_eq m' (Zpos m) ltac:(lia)) as Hdiv.
  pose proof (Z.mod_pos_bound m' (Zpos m) ltac:(lia)) as Hmod.
  unfold Z.modulo in Hmod.
  destruct (Z.div_eucl m' (Zpos m)) as [q r].
  assert (Hq : 0 <= q <= m') by nia.
  pose proof (Zdigits2_le q m' Hq) as Hdq.
  pose proof (binary_round_aux_facts
                q e' (new_location (Zpos m) r) ltac:(lia)) as H.
  destruct (binary_round_aux F64.prec F64.emax false q e' _)
    as [[|]|[|]| |[|] mu eu]; try exact H; try exact I.
  - unfold s in *. lia.
  - destruct H as (_ & H & _). unfold s in *. lia.
Qed.

(** [1.0 + 1.0 / float(c)] is a positive finite float. *)
Lemma weight_in_range (c : nat) :
  (1 <= c)%nat ->
  F64.in_range 1 56 (F64.add F64.one (F64.div F64.one (F64.of_nat c))).
Proof.
  intros Hc. pose proof (reciprocal_facts c Hc) as Hu.
  destruct (F64.div F64.one (F64.of_nat c)) as [[|]|[|]| |[|] mu eu];
    try contradiction; [cbn; lia|].
  unfold F64.add, F64.one, SFadd, cond_Zopp, binary_normalize.
  change (Zpos ?a + Zpos ?b) with (Zpos (a + b)).
  set (ez := Z.min (-52) eu).
  pose proof (shl_align_facts 4503599627370496 (-52) ez) as Ha.
  pose proof (shl_align_facts mu eu ez) as Hb. cbv zeta in Ha, Hb.
  destruct (shl_align 4503599627370496 (-52) ez) as [a ea].
  destruct (shl_align mu eu ez) as [b eb]. cbn [fst snd] in *.
  change (Zpos (digits2_pos 4503599627370496)) with 53 in Ha.
  pose proof (Zdigits2_add (Zpos a) (Zpos b) ltac:(lia) ltac:(lia)) as Hs.
  pose proof (Zdigits2_le (Zpos a) (Zpos a + Zpos b) ltac:(lia)) as Hl.
  change (Zpos a + Zpos b) with (Zpos (a + b)) in Hs, Hl.
  cbn [Zdigits2] in Hs, Hl.
  pose proof (binary_round_facts (a + b) ez) as H.
  destruct (binary_round F64.prec F64.emax false (a + b) ez)
    as [[|]|[|]| |[|] m e]; cbn [F64.in_range]; try exact H;
    unfold ez in *; lia.
Qed.

(** The constants are the floats Python computes. *)
Example f64_constants :
  F64.of_nat 1 = F64.one /\ F64.of_nat 2 = F64.two
  /\ F64.of_nat 4 = F64.four /\ F64.div F64.one F64.two = F64.half
  /\ F64.of_nat 0 = F64.zero
  /\ forallb (valid_binary F64.prec F64.emax)
             [F64.half; F64.one; F64.two; F64.four] = true.
Proof. vm_compute. repeat split. Qed.

(** ** The order on non-negative floats *)

Lemma f64_compare_finite (m1 m2 : positive) (e1 e2 : Z) :
  SFcompare (S754_finite false m1 e1) (S754_finite false m2 e2)
  = Some (match e1 ?= e2 with Eq => (m1 ?= m2)%positive | c => c end).
Proof. cbn. destruct (e1 ?= e2); reflexivity. Qed.

Lemma f64_leb_finite (m1 m2 : positive) (e1 e2 : Z) :
  F64.leb (S754_finite false m1 e1) (S754_finite false m2 e2) = true
  <-> F64.lex_le e1 m1 e2 m2.
Proof.
  unfold F64.leb, SFleb, F64.lex_le. rewrite f64_compare_finite.
  destruct (Z.compare_spec e1 e2); [destruct (Pos.compare_spec m1 m2)| |];
    split; intros; try reflexivity; try discriminate; lia.
Qed.


Lemma f64_ltb_finite (m1 m2 : positive) (e1 e2 : Z) :
  F64.ltb (S754_finite false m1 e1) (S754_finite false m2 e2) = true
  <-> ~ F64.lex_le e2 m2 e1 m1.
Proof.
  unfold F64.ltb, SFltb, F64.lex_le. rewrite f64_compare_finite.
  destruct (Z.compare_spec e1 e2); [destruct (Pos.compare_spec m1 m2)| |];
    split; intros; try reflexivity; try discriminate; lia.
Qed.

Lemma f64_ltb_negb_leb (x y : F64.float) :
  F64.nonneg x = true -> F64.nonneg y = true ->
  F64.ltb x y = negb (F64.leb y x).
Proof.
  destruct x as [[|]|[|]| |[|] mx ex]; try discriminate;
    destruct y as [[|]|[|]| |[|] my ey]; try discriminate;
    intros _ _; try reflexivity.
  pose proof (f64_ltb_finite mx my ex ey) as Hl.
  pose proof (f64_leb_finite my mx ey ex) as Hr.
  destruct (F64.ltb _ _), (F64.leb _ _); cbn; try reflexivity;
    exfalso; intuition discriminate.
Qed.

Lemma f64_leb_total (x y : F64.float) :
  F64.nonneg x = true -> F64.nonneg y = true ->
  F64.leb x y = true \/ F64.leb y x = true.
Proof.
  destruct x as [[|]|[|]| |[|] mx ex]; try discriminate;
    destruct y as [[|]|[|]| |[|] my ey]; try discriminate;
    intros _ _; auto.
  rewrite !f64_leb_finite. unfold F64.lex_le. lia.
Qed.

Lemma f64_leb_trans (x y z : F64.float) :
  F64.nonneg x = true -> F64.nonneg y = true -> F64.nonneg z = true ->
  F64.leb x y = true -> F64.leb y z = true -> F64.leb x z = true.
Proof.
  destruct x as [[|]|[|]| |[|] mx ex]; try discriminate;
    destruct y as [[|]|[|]| |[|] my ey]; try discriminate;
    destruct z as [[|]|[|]| |[|] mz ez]; try discriminate;
    intros _ _ _; auto; try discriminate.
  rewrite !f64_leb_finite. unfold F64.lex_le. lia.
Qed.


End Binary64.

(* ================================================================== *)
(** * The relevance scorer *)

Lemma keyword_loop (task_lower : string) (keywords : list string)
      (score : nat) (matched : list string) :
  let hits := filter (fun k => Py.str_in k task_lower) keywords in
  fold_left (keyword_step task_lower) keywords (score, matched)
  = (score + List.length hits, matched ++ hits).
Proof.
  cbv zeta. revert score matched.
  induction keywords as [|k ks IH]; intros score matched; cbn.
  - now rewrite Nat.add_0_r, app_nil_r.
  - destruct (Py.str_in k task_lower); rewrite IH; cbn.
    + rewrite <- app_assoc. f_equal. lia.
    + reflexivity.
Qed.

Lemma score_subsystem_spec (text : string) (info : SubsystemInfo) :
  score_subsystem (Py.lower text) info
  = (relevance_score text info, keyword_hits text info).
Proof.
  unfold score_subsystem, relevance_score, name_bonus, keyword_hits.
  rewrite keyword_loop. cbn.
  destruct (Py.str_in (Py.lower (sub_name info)) (Py.lower text));
    f_equal; lia.
Qed.

Lemma subsystem_matches_spec (SUBSYSTEMS : Dict.t SubsystemInfo)
      (text : string) :
  subsystem_matches SUBSYSTEMS (Py.lower text)
  = map (subsystem_match text)
        (filter (fun item => 0 <? relevance_score text (snd item))
                SUBSYSTEMS).
Proof.
  unfold subsystem_matches.
  rewrite (fold_left_append
             (subsystem_step (Py.lower text))
             (fun item => if 0 <? relevance_score text (snd item)
                          then [subsystem_match text item] else [])).
  - cbn. apply flat_map_filter_map.
  - intros acc [key info]. unfold subsystem_step.
    rewrite score_subsystem_spec. cbv beta iota. cbn [snd].
    destruct (0 <? relevance_score text info);
      [reflexivity | now rewrite app_nil_r].
Qed.

Lemma ranked_subsystems_perm (SUBSYSTEMS : Dict.t SubsystemInfo)
      (text : string) :
  Permutation (ranked_subsystems SUBSYSTEMS text)
              (subsystem_matches SUBSYSTEMS (Py.lower text)).
Proof. apply sort_desc_perm. Qed.

Lemma ranked_subsystems_sorted (SUBSYSTEMS : Dict.t SubsystemInfo)
      (text : string) :
  StronglySorted (desc sm_score Nat.leb) (ranked_subsystems SUBSYSTEMS text).
Proof.
  apply (sort_desc_sorted _ _ sm_score Nat.ltb Nat.leb (fun _ => True)).
  - intros x y _ _. apply Nat.ltb_antisym.
  - intros x y _ _. rewrite !Nat.leb_le. lia.
  - intros x y z _ _ _. rewrite !Nat.leb_le. lia.
  - apply Forall_forall. auto.
Qed.

Lemma ranked_subsystems_In (SUBSYSTEMS : Dict.t SubsystemInfo)
      (text : string) (m : SubsystemMatch) :
  In m (ranked_subsystems SUBSYSTEMS text)
  <-> exists item, In item SUBSYSTEMS
                   /\ 0 < relevance_score text (snd item)
                   /\ m = subsystem_match text item.
Proof.
  unfold ranked_subsystems. rewrite sort_desc_In, subsystem_matches_spec.
  rewrite in_map_iff. split.
  - intros (item & <- & H). apply filter_In in H as [H1 H2].
    apply Nat.ltb_lt in H2. now exists item.
  - intros (item & H1 & H2 & ->). exists item. split; [reflexivity|].
    apply filter_In. split; [assumption | now apply Nat.ltb_lt].
Qed.

(** ** The suggested files *)

Lemma dedup_In (x : string) (l : list string) : In x (dedup l) <-> In x l.
Proof.
  induction l as [|a l IH]; cbn; [tauto|].
  rewrite filter_In, IH, negb_true_iff, String.eqb_neq.
  destruct (string_dec a x) as [->|N]; [tauto|].
  split; [tauto|]. intros [E|H]; [congruence|]. right. split; congruence.
Qed.

Lemma dedup_NoDup (l : list string) : NoDup (dedup l).
Proof.
  induction l as [|a l IH]; cbn; constructor.
  - rewrite filter_In, negb_true_iff, String.eqb_neq. tauto.
  - now apply NoDup_filter.
Qed.

Lemma filter_filter {A : Type} (p q : A -> bool) (l : list A) :
  filter p (filter q l) = filter (fun x => q x && p x) l.
Proof.
  induction l as [|a l IH]; cbn; [reflexivity|].
  destruct (q a); cbn; [destruct (p a)|]; now rewrite IH.
Qed.

Lemma dedup_filter (p : string -> bool) (l : list string) :
  dedup (filter p l) = filter p (dedup l).
Proof.
  induction l as [|a l IH]; cbn; [reflexivity|].
  destruct (p a) eqn:Ha; cbn; rewrite IH, !filter_filter.
  - f_equal. apply filter_ext. intros x. apply andb_comm.
  - apply filter_ext_in. intros x _.
    destruct (String.eqb_spec x a) as [->|N]; cbn;
      [now rewrite Ha | reflexivity].
Qed.

Lemma file_loop (files acc : list string) :
  fold_left file_step files acc
  = acc ++ dedup (filter (fun p => negb (Py.mem p acc))
                         (map full_path files)).
Proof.
  revert acc. induction files as [|f fs IH]; intros acc;
    cbn [fold_left map filter].
  - cbn. now rewrite app_nil_r.
  - unfold file_step at 2.
    destruct (Py.mem (full_path f) acc) eqn:E; cbn [negb].
    + apply IH.
    + rewrite IH, <- app_assoc. cbn [dedup app]. do 2 f_equal.
      rewrite !dedup_filter, filter_filter. apply filter_ext.
      intros x. unfold Py.mem. rewrite existsb_app. cbn [existsb].
      now rewrite orb_false_r, negb_orb.
Qed.

Lemma suggest_files_flat (top : list SubsystemMatch) (acc : list string) :
  fold_left (fun suggested m => fold_left file_step (sm_files m) suggested)
            top acc
  = fold_left file_step (List.concat (map sm_files top)) acc.
Proof.
  revert acc. induction top as [|m top IH]; intros acc; cbn.
  - reflexivity.
  - now rewrite fold_left_app, IH.
Qed.

Lemma suggest_files_spec (top : list SubsystemMatch) :
  suggest_files top = dedup (qualified_files top).
Proof.
  unfold suggest_files, qualified_files.
  rewrite suggest_files_flat, file_loop. cbn [app].
  assert (F : forall l : list string,
             filter (fun p => negb (Py.mem p [])) l = l)
    by (induction l as [|a l IHl];
        [reflexivity | cbn [filter Py.mem existsb negb]; now f_equal]).
  now rewrite F, concat_map, map_map.
Qed.

Lemma In_firstn {A : Type} (x : A) (n : nat) (l : list A) :
  In x (firstn n l) -> In x l.
Proof.
  intros H. rewrite <- (firstn_skipn n l). apply in_or_app. now left.
Qed.

Lemma NoDup_firstn {A : Type} (n : nat) (l : list A) :
  NoDup l -> NoDup (firstn n l).
Proof.
  intros H. rewrite <- (firstn_skipn n l) in H.
  now apply NoDup_app_remove_r in H.
Qed.

Lemma filter_all {A : Type} (l : list A) : filter (fun _ => true) l = l.
Proof. induction l as [|a l IH]; cbn; [reflexivity | now f_equal]. Qed.

Lemma filter_none {A : Type} (p : A -> bool) (l : list A) :
  (forall x, In x l -> p x = false) -> filter p l = [].
Proof.
  induction l as [|a l IH]; cbn; intros H; [reflexivity|].
  rewrite (H a (or_introl eq_refl)). apply IH. auto.
Qed.

Lemma filter_length_le {A : Type} (p q : A -> bool) (l : list A) :
  (forall x, In x l -> p x = true -> q x = true) ->
  List.length (filter p l) <= List.length (filter q l).
Proof.
  induction l as [|a l IH]; cbn; intros H; [lia|].
  assert (IH' : List.length (filter p l) <= List.length (filter q l))
    by (apply IH; auto).
  destruct (p a) eqn:Pa.
  - rewrite (H a (or_introl eq_refl) Pa). cbn. lia.
  - destruct (q a); cbn; lia.
Qed.



(** C6.  The suggested files are the path-qualified files of the top
    three ranked subsystems, in rank order, with later duplicates dropped,
    cut to the first ten; the subsystem list is the first five of the
    ranking; and the result has these two lists, the task and a fixed
    resource name, with no confidence tier. *)
Theorem suggested_files_correct :
  forall (INDEX : Dict.t SubsystemInfo) (text : string),
    let ranked := ranked_subsystems INDEX text in
    let r := find_relevant_context INDEX text in
    cr_suggested_files r
    = firstn 10 (dedup (List.concat
                          (map (fun m =>
                                  map (fun f => (base_path ++ "/" ++ f)%string)
                                      (sm_files m))
                               (firstn 3 ranked))))
    /\ NoDup (cr_suggested_files r)
    /\ List.length (cr_suggested_files r) <= 10
    /\ cr_relevant_subsystems r = firstn 5 ranked
    /\ List.length (cr_relevant_subsystems r) <= 5
    /\ r = mkContextResult text (cr_relevant_subsystems r)
                           (cr_suggested_files r) "context7://architecture".
Proof.
  intros INDEX text ranked r. unfold r, find_relevant_context.
  cbn [cr_suggested_files cr_relevant_subsystems]. fold ranked.
  rewrite suggest_files_spec. repeat split.
  - apply NoDup_firstn, dedup_NoDup.
  - apply firstn_le_length.
  - apply firstn_le_length.
Qed.

(** C7.  For a key of the index [get_files_for_subsystem] returns the
    entry's name and description and its file patterns, each behind the
    base path, and never the error; this holds of every key that
    [list_subsystems] returns; for any other key it returns the error
    whose [available] list is the list of all keys of the index. *)
Theorem get_files_for_subsystem_correct :
  forall (INDEX : Dict.t SubsystemInfo) (key : string),
    (forall info,
        Dict.get INDEX key = Some info ->
        get_files_for_subsystem INDEX key
        = FilesFound key (sub_name info) (sub_description info)
                     (map (fun f => ("GameProject/src/GameProject.Engine"
                                       ++ "/" ++ f)%string)
                          (sub_files info)))
    /\ (In key (Dict.keys INDEX) ->
        exists info,
          In (key, info) INDEX
          /\ get_files_for_subsystem INDEX key
             = FilesFound key (sub_name info) (sub_description info)
                          (map full_path (sub_files info)))
    /\ (In key (Dict.keys (list_subsystems INDEX)) ->
        forall error available,
          get_files_for_subsystem INDEX key <> FilesError error available)
    /\ (~ In key (Dict.keys INDEX) ->
        get_files_for_subsystem INDEX key
        = FilesError ("Unknown subsystem: " ++ key) (Dict.keys INDEX)).
Proof.
  intros INDEX key. unfold get_files_for_subsystem. repeat split.
  - intros info ->. reflexivity.
  - intros H. apply dict_get_keys in H as (info & H). rewrite H.
    exists info. split; [now apply dict_get_Some_In | reflexivity].
  - intros H error available.
    assert (E : Dict.keys (list_subsystems INDEX) = Dict.keys INDEX).
    { unfold Dict.keys, list_subsystems. rewrite map_map.
      apply map_ext. now intros [k i]. }
    rewrite E in H. apply dict_get_keys in H as (info & ->). discriminate.
  - intros H. apply dict_get_None in H. now rewrite H.
Qed.

(** A key of the source's index and a string that is not one. *)
Lemma get_files_for_subsystem_correct_witness :
  get_files_for_subsystem SUBSYSTEMS "spawning"
  = FilesFound
      "spawning" "Spawning" "Enemy and powerup spawning systems"
      ["GameProject/src/GameProject.Engine/ECS/Systems/SpawnSystem.cs";
       "GameProject/src/GameProject.Engine/ECS/Systems/NetworkSpawnSystem.cs";
       "GameProject/src/GameProject.Engine/ECS/Components/SpawnerComponent.cs"]
  /\ get_files_for_subsystem SUBSYSTEMS "pathfinding"
     = FilesError "Unknown subsystem: pathfinding" (Dict.keys SUBSYSTEMS).
Proof.
  destruct (get_files_for_subsystem_correct SUBSYSTEMS "spawning")
    as (Hfound & _).
  destruct (get_files_for_subsystem_correct SUBSYSTEMS "pathfinding")
    as (_ & _ & _ & Hunknown).
  split.
  - rewrite (Hfound (snd (subsystem_entry SUBSYSTEMS "spawning")) eq_refl).
    vm_compute. reflexivity.
  - apply Hunknown. vm_compute. intuition discriminate.
Defined.

(** C8 as stated fails: on the source's index, for the text "input save"
    the matched keywords of [services] strictly contain those of [input],
    yet [input], whose name occurs in the text, is ranked above it. *)
Lemma name_bonus_outranks_keywords :
  map (fun m => (sm_subsystem m, sm_score m, sm_matched_keywords m))
      (ranked_subsystems SUBSYSTEMS "input save")
  = [("input", 3, ["input"]); ("services", 2, ["save"; "input"])]
  /\ incl ["input"] ["save"; "input"]
  /\ ~ incl ["save"; "input"] ["input"].
Proof.
  split; [vm_compute; reflexivity|]. split.
  - intros x [<- | []]. cbn. auto.
  - intros H. destruct (H "save" (or_introl eq_refl)) as [E | []].
    discriminate.
Qed.

(** C8, amended.  A subsystem's score does not decrease when the text
    changes so that every keyword that matched still matches and the name
    bonus is not lost.  And when the matched keywords of an entry [b],
    whose keyword list has no repetition, are strictly contained in those
    of an entry [a], and [b] earns no larger name bonus than [a], then [a]
    scores strictly more than [b] and stands before [b] wherever [b] is
    ranked. *)
Theorem relevance_monotone :
  (forall (info : SubsystemInfo) (text1 text2 : string),
      (forall keyword,
          In keyword (sub_keywords info) ->
          Py.str_in keyword (Py.lower text1) = true ->
          Py.str_in keyword (Py.lower text2) = true) ->
      name_bonus text1 info <= name_bonus text2 info ->
      fst (score_subsystem (Py.lower text1) info)
      <= fst (score_subsystem (Py.lower text2) info))
  /\ (forall (INDEX : Dict.t SubsystemInfo) (text : string)
             (a b : string * SubsystemInfo),
         In a INDEX -> In b INDEX ->
         NoDup (sub_keywords (snd b)) ->
         incl (keyword_hits text (snd b)) (keyword_hits text (snd a)) ->
         ~ incl (keyword_hits text (snd a)) (keyword_hits text (snd b)) ->
         name_bonus text (snd b) <= name_bonus text (snd a) ->
         fst (score_subsystem (Py.lower text) (snd b))
         < fst (score_subsystem (Py.lower text) (snd a))
         /\ forall l1 l2,
             ranked_subsystems INDEX text
             = l1 ++ subsystem_match text b :: l2 ->
             In (subsystem_match text a) l1).
Proof.
  split.
  - intros info text1 text2 Hk Hn. rewrite !score_subsystem_spec. cbn [fst].
    unfold relevance_score, keyword_hits.
    pose proof (filter_length_le _ _ (sub_keywords info) Hk). lia.
  - intros INDEX text a b Ha Hb Hnd Hincl Hstrict Hn.
    rewrite !score_subsystem_spec. cbn [fst].
    assert (Hlt : relevance_score text (snd b)
                  < relevance_score text (snd a)).
    { unfold relevance_score.
      assert (NoDup (keyword_hits text (snd b)))
        by (now apply NoDup_filter).
      pose proof (NoDup_incl_length H Hincl) as Hle.
      destruct (Nat.eq_dec (List.length (keyword_hits text (snd b)))
                           (List.length (keyword_hits text (snd a))))
        as [E|NE]; [|lia].
      elim Hstrict. apply NoDup_length_incl; [assumption | lia | assumption]. }
    split; [exact Hlt|]. intros l1 l2 E.
    assert (Hina : In (subsystem_match text a) (ranked_subsystems INDEX text)).
    { apply ranked_subsystems_In. exists a. repeat split; [assumption | lia]. }
    pose proof (ranked_subsystems_sorted INDEX text) as Hs.
    rewrite E in Hina, Hs.
    apply in_app_or in Hina as [H | [H | H]]; [exact H | |].
    + apply (f_equal sm_score) in H. cbn in H. lia.
    + apply StronglySorted_app_inv in Hs. rewrite Forall_forall in Hs.
      apply Hs in H. unfold desc in H. cbn in H. apply Nat.leb_le in H. lia.
Qed.

(** [networking] matches "sync" and "snapshot", [damage] only "sync". *)
Lemma relevance_monotone_witness :
  let text := "fix sync snapshot" in
  let a := subsystem_entry SUBSYSTEMS "networking" in
  let b := subsystem_entry SUBSYSTEMS "damage" in
  fst (score_subsystem (Py.lower "fix the sync issue") (snd a))
  <= fst (score_subsystem (Py.lower text) (snd a))
  /\ fst (score_subsystem (Py.lower text) (snd b))
     < fst (score_subsystem (Py.lower text) (snd a))
  /\ forall l1 l2,
      ranked_subsystems SUBSYSTEMS text = l1 ++ subsystem_match text b :: l2 ->
      In (subsystem_match text a) l1.
Proof.
  intros text a b. split.
  - apply (proj1 relevance_monotone).
    + intros keyword Hin.
      vm_compute in Hin.
      repeat (destruct Hin as [<- | Hin];
              [vm_compute; try reflexivity; discriminate|]).
      contradiction.
    + vm_compute. lia.
  - apply (proj2 relevance_monotone SUBSYSTEMS text a b).
    + vm_compute. do 3 right. left. reflexivity.
    + vm_compute. do 9 right. left. reflexivity.
    + vm_compute. repeat constructor; cbn; intuition discriminate.
    + vm_compute. intros x [<- | []]. left. reflexivity.
    + vm_compute. intros H.
      destruct (H "snapshot" (or_intror (or_introl eq_refl))) as [E | []].
      discriminate.
    + vm_compute. lia.
Defined.

(* ================================================================== *)
(** * The agent suggester *)

(** ** The trigger counts *)

Lemma tally_snoc (l : list string) (x t : string) :
  tally (l ++ [x]) t
  = if String.eqb t x then Some (count_occ string_dec l x + 1) else tally l t.
Proof.
  unfold tally. rewrite count_occ_app. cbn.
  destruct (string_dec x t) as [->|N].
  - rewrite String.eqb_refl.
    destruct (count_occ string_dec l t + 1) eqn:E; [lia | reflexivity].
  - assert (E : String.eqb t x = false) by (apply String.eqb_neq; congruence).
    now rewrite E, Nat.add_0_r.
Qed.

Lemma tally_default (d : Dict.t nat) (l : list string) (t : string) :
  Dict.get d t = tally l t ->
  Dict.get_default d t 0 = count_occ string_dec l t.
Proof.
  unfold Dict.get_default, tally. intros ->.
  destruct (count_occ string_dec l t); reflexivity.
Qed.

Lemma count_loop_tally (triggers counted : list string) (d : Dict.t nat) :
  (forall t, Dict.get d t = tally counted t) ->
  forall t,
    Dict.get (fold_left count_step triggers d) t
    = tally (counted ++ triggers) t.
Proof.
  revert counted d.
  induction triggers as [|x xs IH]; intros counted d Hd t; cbn.
  - now rewrite app_nil_r.
  - replace (counted ++ x :: xs) with ((counted ++ [x]) ++ xs)
      by now rewrite <- app_assoc.
    apply IH. intros t'. unfold count_step.
    rewrite dict_get_set, tally_snoc, (tally_default d counted x (Hd x)).
    destruct (String.eqb t' x); [reflexivity | apply Hd].
Qed.

Lemma agent_loop_tally (infos : list AgentInfo) (counted : list string)
      (d : Dict.t nat) :
  (forall t, Dict.get d t = tally counted t) ->
  forall t,
    Dict.get (fold_left (fun counts info =>
                           fold_left count_step (agent_triggers info) counts)
                        infos d) t
    = tally (counted ++ List.concat (map agent_triggers infos)) t.
Proof.
  revert counted d.
  induction infos as [|i infos IH]; intros counted d Hd t; cbn.
  - now rewrite app_nil_r.
  - rewrite app_assoc. apply IH. now apply count_loop_tally.
Qed.

Lemma trigger_agent_count_tally (AGENTS : Dict.t AgentInfo) (t : string) :
  Dict.get (trigger_agent_count AGENTS) t = tally (all_triggers AGENTS) t.
Proof.
  unfold trigger_agent_count, all_triggers.
  now rewrite (agent_loop_tally _ [] []).
Qed.

(** The count the scoring loop reads is never zero. *)
Lemma trigger_count_pos (AGENTS : Dict.t AgentInfo) (t : string) :
  1 <= Dict.get_default (trigger_agent_count AGENTS) t 1.
Proof.
  unfold Dict.get_default. rewrite trigger_agent_count_tally. unfold tally.
  destruct (count_occ string_dec (all_triggers AGENTS) t); lia.
Qed.





(** ** The score of one agent *)

Lemma trigger_matched_occurs (U : Unicode.database)
      (text trigger : string) :
  trigger_matched U (Unicode.lower U text)
                  (task_words_of U (Unicode.lower U text)) trigger
  = trigger_occurs U text trigger.
Proof.
  unfold trigger_matched, trigger_occurs, task_words_of, word_count.
  now rewrite mem_set.
Qed.

(** A one-word trigger is matched as a word, not as a substring. *)
Example word_boundary_match :
  let U := Unicode.ASCII in
  Py.str_in "ui" (Unicode.lower U "Build the thing") = true
  /\ trigger_occurs U "Build the thing" "ui" = false
  /\ trigger_occurs U "Fix the UI now" "ui" = true
  /\ trigger_occurs U "add a hot path check" "hot path" = true.
Proof. vm_compute. repeat split. Qed.

Lemma description_hit_bonus (U : Unicode.database)
      (text : string) (info : AgentInfo) :
  description_hit U (task_words_of U (Unicode.lower U text))
                  (agent_description info)
  = description_bonus U text info.
Proof. apply existsb_set. Qed.

Lemma trigger_loop (U : Unicode.database)
      (counts : Dict.t nat) (text : string)
      (triggers : list string) (score : F64.float) (matched : list string) :
  let hits := filter (trigger_occurs U text) triggers in
  fold_left (trigger_step U counts (Unicode.lower U text)
                          (task_words_of U (Unicode.lower U text)))
            triggers (score, matched)
  = (fold_left F64.add (map (trigger_weight U counts) hits) score,
     matched ++ hits).
Proof.
  cbv zeta. revert score matched.
  induction triggers as [|t ts IH]; intros score matched;
    cbn [fold_left filter].
  - cbn. now rewrite app_nil_r.
  - unfold trigger_step at 2. rewrite trigger_matched_occurs.
    destruct (trigger_occurs U text t); rewrite IH; [|reflexivity].
    cbn [map fold_left]. now rewrite <- app_assoc.
Qed.

Lemma score_agent_counted (U : Unicode.database)
      (counts : Dict.t nat) (text : string)
      (info : AgentInfo) :
  score_agent U counts (Unicode.lower U text)
              (task_words_of U (Unicode.lower U text)) info
  = (counted_score U counts text info,
     filter (trigger_occurs U text) (agent_triggers info)).
Proof.
  unfold score_agent, counted_score.
  rewrite trigger_loop, description_hit_bonus. reflexivity.
Qed.


(** ** Scores are never NaN nor negative *)

Lemma nonneg_trigger_weight (U : Unicode.database)
      (AGENTS : Dict.t AgentInfo) (t : string) :
  F64.nonneg (trigger_weight U (trigger_agent_count AGENTS) t) = true.
Proof.
  unfold trigger_weight.
  apply (nonneg_mul _ _ 1%Z 56%Z); [apply nonneg_of_nat|].
  apply weight_in_range, trigger_count_pos.
Qed.

Lemma nonneg_fold_add (l : list F64.float) (x : F64.float) :
  F64.nonneg x = true -> Forall (fun y => F64.nonneg y = true) l ->
  F64.nonneg (fold_left F64.add l x) = true.
Proof.
  revert x. induction l as [|y l IH]; intros x Hx Hl; cbn; [exact Hx|].
  inversion Hl; subst. apply IH; [now apply nonneg_add | assumption].
Qed.

Lemma nonneg_counted_score (U : Unicode.database)
      (AGENTS : Dict.t AgentInfo) (text : string)
      (info : AgentInfo) :
  F64.nonneg (counted_score U (trigger_agent_count AGENTS) text info) = true.
Proof.
  unfold counted_score.
  assert (H : F64.nonneg
                (fold_left F64.add
                   (map (trigger_weight U (trigger_agent_count AGENTS))
                        (filter (trigger_occurs U text) (agent_triggers info)))
                   F64.zero) = true).
  { apply nonneg_fold_add; [reflexivity|].
    apply Forall_forall. intros y Hy. apply in_map_iff in Hy as (t & <- & _).
    apply nonneg_trigger_weight. }
  destruct (description_bonus U text info); [|exact H].
  now apply nonneg_add.
Qed.

Lemma distinctb_NoDup (l : list string) : distinctb l = true -> NoDup l.
Proof.
  induction l as [|x r IH]; cbn; intros H; constructor;
    apply andb_prop in H as [H1 H2].
  - apply negb_true_iff in H1. now apply mem_false.
  - now apply IH.
Qed.


(** ** The ranking *)

Lemma agent_matches_spec (U : Unicode.database)
      (AGENTS : Dict.t AgentInfo) (text : string) :
  let counts := trigger_agent_count AGENTS in
  agent_matches U AGENTS text
  = map (counted_match U counts text)
        (filter (fun item =>
                   F64.ltb F64.zero (counted_score U counts text (snd item)))
                AGENTS).
Proof.
  cbv zeta. unfold agent_matches.
  rewrite (fold_left_append
             (agent_step U (trigger_agent_count AGENTS) (Unicode.lower U text)
                         (task_words_of U (Unicode.lower U text)))
             (fun item =>
                if F64.ltb F64.zero
                           (counted_score U (trigger_agent_count AGENTS) text
                                          (snd item))
                then [counted_match U (trigger_agent_count AGENTS) text item]
                else [])).
  - cbn [app]. apply flat_map_filter_map.
  - intros acc [key info]. unfold agent_step.
    rewrite score_agent_counted. cbv beta iota. cbn [snd].
    destruct (F64.ltb F64.zero _); [reflexivity | now rewrite app_nil_r].
Qed.

Lemma agent_matches_In (U : Unicode.database)
      (AGENTS : Dict.t AgentInfo) (text : string)
      (m : AgentMatch) :
  In m (agent_matches U AGENTS text)
  <-> exists item,
      In item AGENTS
      /\ F64.ltb F64.zero
                 (counted_score U (trigger_agent_count AGENTS) text (snd item))
         = true
      /\ m = counted_match U (trigger_agent_count AGENTS) text item.
Proof.
  rewrite agent_matches_spec, in_map_iff. split.
  - intros (item & <- & H). apply filter_In in H as [H1 H2]. now exists item.
  - intros (item & H1 & H2 & ->). exists item. split; [reflexivity|].
    now apply filter_In.
Qed.

Lemma agent_matches_nonneg (U : Unicode.database)
      (AGENTS : Dict.t AgentInfo) (text : string) :
  Forall (fun m => F64.nonneg (am_score m) = true)
         (agent_matches U AGENTS text).
Proof.
  apply Forall_forall. intros m Hm.
  apply agent_matches_In in Hm as (item & _ & _ & ->).
  apply nonneg_counted_score.
Qed.

Lemma ranked_agents_perm (U : Unicode.database)
      (AGENTS : Dict.t AgentInfo) (text : string) :
  Permutation (ranked_agents U AGENTS text) (agent_matches U AGENTS text).
Proof. apply sort_desc_perm. Qed.

Lemma ranked_agents_nonneg (U : Unicode.database)
      (AGENTS : Dict.t AgentInfo) (text : string) :
  Forall (fun m => F64.nonneg (am_score m) = true)
         (ranked_agents U AGENTS text).
Proof.
  apply (Permutation_Forall
           (Permutation_sym (ranked_agents_perm U AGENTS text))).
  apply agent_matches_nonneg.
Qed.

Lemma ranked_agents_sorted (U : Unicode.database)
      (AGENTS : Dict.t AgentInfo) (text : string) :
  StronglySorted (desc am_score F64.leb) (ranked_agents U AGENTS text).
Proof.
  apply (sort_desc_sorted _ _ am_score F64.ltb F64.leb
                          (fun x => F64.nonneg x = true)).
  - apply f64_ltb_negb_leb.
  - apply f64_leb_total.
  - apply f64_leb_trans.
  - apply agent_matches_nonneg.
Qed.

Lemma top_score_nonneg (U : Unicode.database)
      (AGENTS : Dict.t AgentInfo) (text : string) :
  F64.nonneg (top_score_of (ranked_agents U AGENTS text)) = true.
Proof.
  pose proof (ranked_agents_nonneg U AGENTS text) as H.
  destruct (ranked_agents U AGENTS text) as [|m ms]; [reflexivity|].
  now inversion H.
Qed.

Lemma f64_leb_refl (x : F64.float) :
  F64.nonneg x = true -> F64.leb x x = true.
Proof. intros H. now destruct (f64_leb_total x x H H). Qed.

(** The first entry of the ranking carries the largest score. *)
Lemma top_score_max (U : Unicode.database)
      (AGENTS : Dict.t AgentInfo) (text : string)
      (m : AgentMatch) :
  In m (ranked_agents U AGENTS text) ->
  F64.leb (am_score m) (top_score_of (ranked_agents U AGENTS text)) = true.
Proof.
  pose proof (ranked_agents_sorted U AGENTS text) as Hs.
  pose proof (ranked_agents_nonneg U AGENTS text) as Hn.
  destruct (ranked_agents U AGENTS text) as [|m0 ms]; [contradiction|].
  inversion Hs as [|? ? _ Hf]; subst. inversion Hn; subst.
  intros [<- | H]; cbn [top_score_of].
  - now apply f64_leb_refl.
  - rewrite Forall_forall in Hf. exact (Hf m H).
Qed.

(** Without any signal no agent scores. *)
Lemma no_signal_no_matches (U : Unicode.database)
      (AGENTS : Dict.t AgentInfo) (text : string) :
  no_signal U AGENTS text = true -> agent_matches U AGENTS text = [].
Proof.
  intros H. rewrite agent_matches_spec. cbv zeta.
  rewrite filter_none; [reflexivity|]. intros item Hin.
  unfold no_signal in H. rewrite forallb_forall in H.
  assert (Hi := H item Hin).
  apply andb_prop in Hi as [H1 H2].
  apply negb_true_iff in H1, H2.
  assert (E : filter (trigger_occurs U text) (agent_triggers (snd item)) = []).
  { apply filter_none. intros t Ht.
    destruct (trigger_occurs U text t) eqn:Et; [|reflexivity].
    assert (existsb (trigger_occurs U text) (agent_triggers (snd item)) = true)
      by (apply existsb_exists; now exists t).
    congruence. }
  unfold counted_score. rewrite E, H2. reflexivity.
Qed.



(** C2.  Whatever the Unicode database, with [top] the score of the
    first agent of the ranking, which is the largest score, or 0 when no
    agent scores: the confidence is "high" when [top >= 4], "medium" when
    [2 <= top < 4], "low" when [1 <= top < 2] and "none" when [top < 1];
    [should_invoke] holds exactly for "high" and "medium"; and a text
    that matches no trigger and earns no description bonus for any agent
    gives "none", [should_invoke = false] and no recommendation. *)
Theorem confidence_tier_correct :
  forall (U : Unicode.database) (REGISTRY : Dict.t AgentInfo)
         (text : string),
    let r := suggest_agent U REGISTRY text in
    let top := top_score_of (ranked_agents U REGISTRY text) in
    (forall m, In m (ranked_agents U REGISTRY text) ->
               F64.leb (am_score m) top = true)
    /\ (ar_confidence r = "high" <-> F64.leb F64.four top = true)
    /\ (ar_confidence r = "medium"
        <-> F64.leb F64.two top = true /\ F64.ltb top F64.four = true)
    /\ (ar_confidence r = "low"
        <-> F64.leb F64.one top = true /\ F64.ltb top F64.two = true)
    /\ (ar_confidence r = "none" <-> F64.ltb top F64.one = true)
    /\ (ar_should_invoke r = true
        <-> ar_confidence r = "high" \/ ar_confidence r = "medium")
    /\ (no_signal U REGISTRY text = true ->
        ar_confidence r = "none"
        /\ ar_should_invoke r = false
        /\ ar_recommendation r = None).
Proof.
  intros U REGISTRY text r top.
  split; [intros m; apply top_score_max|].
  assert (Hn : F64.nonneg top = true) by apply top_score_nonneg.
  assert (H42 : F64.leb F64.four top = true -> F64.leb F64.two top = true).
  { apply (f64_leb_trans F64.two F64.four top); auto. }
  assert (H21 : F64.leb F64.two top = true -> F64.leb F64.one top = true).
  { apply (f64_leb_trans F64.one F64.two top); auto. }
  unfold r, suggest_agent. cbn [ar_confidence ar_should_invoke
                                 ar_recommendation].
  fold top. unfold confidence_of.
  rewrite !(f64_ltb_negb_leb top) by auto.
  split; [|split; [|split; [|split; [|split]]]].
  - destruct (F64.leb F64.four top), (F64.leb F64.two top),
      (F64.leb F64.one top); split; intros; try reflexivity;
      try discriminate.
  - destruct (F64.leb F64.four top), (F64.leb F64.two top),
      (F64.leb F64.one top); cbn; intuition discriminate.
  - destruct (F64.leb F64.four top), (F64.leb F64.two top),
      (F64.leb F64.one top); cbn; intuition discriminate.
  - destruct (F64.leb F64.four top), (F64.leb F64.two top),
      (F64.leb F64.one top); cbn; intuition discriminate.
  - rewrite mem_In. cbn [In]. intuition congruence.
  - intros Hs. apply no_signal_no_matches in Hs.
    assert (E : ranked_agents U REGISTRY text = [])
      by (unfold ranked_agents; now rewrite Hs).
    unfold top. rewrite E. repeat split.
Qed.

(** No signal in the source's registry; the scenario's 3.5 is "medium";
    and where [é] is a letter the 0.5 of "fix the syncé issue" is
    "none". *)
Lemma confidence_tier_correct_witness :
  (let r := suggest_agent Unicode.ASCII AGENTS "zzz qq" in
   ar_confidence r = "none"
   /\ ar_should_invoke r = false
   /\ ar_recommendation r = None)
  /\ (let r :=
        suggest_agent Unicode.ASCII SCENARIO "redesign the ui menu flow" in
      ar_confidence r = "medium" /\ ar_should_invoke r = true)
  /\ (let r := suggest_agent E_ACUTE AGENTS "fix the syncé issue" in
      ar_confidence r = "none" /\ ar_recommendation r = Some "debugger").
Proof.
  split; [|split].
  - apply (proj2 (proj2 (proj2 (proj2 (proj2 (proj2
             (confidence_tier_correct Unicode.ASCII AGENTS "zzz qq"))))))).
    vm_compute. reflexivity.
  - destruct (confidence_tier_correct
                Unicode.ASCII SCENARIO "redesign the ui menu flow")
      as (_ & _ & Hmedium & _ & _ & Hinvoke & _).
    cbv zeta in Hmedium, Hinvoke.
    assert (Hm : ar_confidence
                   (suggest_agent Unicode.ASCII SCENARIO
                                  "redesign the ui menu flow")
                 = "medium")
      by (apply (proj2 Hmedium); vm_compute; split; reflexivity).
    split; [exact Hm|]. apply (proj2 Hinvoke). right. exact Hm.
  - destruct (confidence_tier_correct E_ACUTE AGENTS "fix the syncé issue")
      as (_ & _ & _ & _ & Hnone & _).
    cbv zeta in Hnone. split.
    + apply (proj2 Hnone). vm_compute. reflexivity.
    + vm_compute. reflexivity.
Defined.


Lemma join_comma_separated (names : list string) :
  Py.join ", " names = comma_separated names.
Proof.
  destruct names as [|x rest]; [reflexivity|]. cbn [comma_separated].
  revert x. induction rest as [|y rest IH]; intros x.
  - cbn. now rewrite string_app_nil_r.
  - change (Py.join ", " (x :: y :: rest))
      with (x ++ ", " ++ Py.join ", " (y :: rest))%string.
    rewrite IH. reflexivity.
Qed.

(** C3.  Whatever the Unicode database: the ranking holds the agents
    that score above zero, largest score first.  When it has two entries
    or more and the scores of its first two are equal, the result carries
    the note that lists, separated by commas, the agents whose score
    equals the top score, and only those; when the first two scores
    differ, or fewer than two agents score above zero, it carries no
    note. *)
Theorem disambiguation_correct :
  forall (U : Unicode.database) (REGISTRY : Dict.t AgentInfo)
         (text : string),
    let matches := ranked_agents U REGISTRY text in
    let r := suggest_agent U REGISTRY text in
    (Permutation matches (agent_matches U REGISTRY text)
     /\ StronglySorted
          (fun a b => F64.leb (am_score b) (am_score a) = true) matches
     /\ forall m, In m matches -> F64.ltb F64.zero (am_score m) = true)
    /\ (forall m0 m1 rest,
           matches = m0 :: m1 :: rest ->
           F64.eqb (am_score m0) (am_score m1) = true ->
           exists tied,
             ar_disambiguation r
             = Some ("Tied between " ++ comma_separated tied
                     ++ ". Check which files you're modifying to decide."
                    )%string
             /\ tied = map am_agent
                           (filter (fun m => F64.eqb (am_score m) (am_score m0))
                                   matches)
             /\ forall id,
                 In id tied
                 <-> exists m,
                     In m (agent_matches U REGISTRY text)
                     /\ am_agent m = id
                     /\ F64.eqb (am_score m) (am_score m0) = true)
    /\ (forall m0 m1 rest,
           matches = m0 :: m1 :: rest ->
           F64.eqb (am_score m0) (am_score m1) = false ->
           ar_disambiguation r = None)
    /\ (List.length (agent_matches U REGISTRY text) < 2 ->
        ar_disambiguation r = None).
Proof.
  intros U REGISTRY text matches r.
  pose proof (ranked_agents_perm U REGISTRY text) as Hp. fold matches in Hp.
  split; [split; [exact Hp | split]|].
  - apply ranked_agents_sorted.
  - intros m Hm. apply (Permutation_in _ Hp) in Hm.
    apply agent_matches_In in Hm as (item & _ & Hpos & ->). exact Hpos.
  - unfold r, suggest_agent. cbn [ar_disambiguation]. fold matches.
    split; [|split].
    + intros m0 m1 rest E Heq.
      exists (tied_agents matches). split; [|split].
      * rewrite E. cbn [disambiguation_of]. rewrite Heq.
        unfold disambiguation_note. now rewrite join_comma_separated.
      * unfold tied_agents. now rewrite E.
      * intros id. unfold tied_agents. rewrite in_map_iff.
        replace (top_score_of matches) with (am_score m0) by now rewrite E.
        split.
        -- intros (m & <- & Hm). apply filter_In in Hm as [Hm Hs].
           exists m. repeat split; [|exact Hs].
           now apply (Permutation_in _ Hp).
        -- intros (m & Hm & <- & Hs). exists m. split; [reflexivity|].
           apply filter_In. split; [|exact Hs].
           now apply (Permutation_in _ (Permutation_sym Hp)).
    + intros m0 m1 rest E Hne. rewrite E. cbn [disambiguation_of].
      now rewrite Hne.
    + intros Hlen. rewrite <- (Permutation_length Hp) in Hlen.
      destruct matches as [|m0 [|m1 rest]]; cbn in Hlen; try reflexivity.
      lia.
Qed.

(** Two agents of the source's registry list "debuff": both score 1.5,
    and the note names the two. *)
Lemma disambiguation_correct_witness :
  let r := suggest_agent Unicode.ASCII AGENTS "add a debuff" in
  ar_disambiguation r
  = Some "Tied between ability-designer, systems-designer. Check which files you're modifying to decide."
  /\ exists tied,
      ar_disambiguation r
      = Some ("Tied between " ++ comma_separated tied
              ++ ". Check which files you're modifying to decide.")%string
      /\ tied = ["ability-designer"; "systems-designer"].
Proof.
  intros r. split; [vm_compute; reflexivity|].
  pose (ms := ranked_agents Unicode.ASCII AGENTS "add a debuff").
  pose (d := counted_match Unicode.ASCII [] EmptyString
                           (EmptyString, no_agent)).
  assert (E : ms = nth 0 ms d :: nth 1 ms d :: skipn 2 ms)
    by (vm_compute; reflexivity).
  destruct (disambiguation_correct Unicode.ASCII AGENTS "add a debuff")
    as (_ & H & _).
  destruct (H _ _ _ E) as (tied & Hd & Ht & _); [vm_compute; reflexivity|].
  exists tied. split; [exact Hd|]. rewrite Ht. vm_compute. reflexivity.
Defined.



(** The one-word triggers with a character outside [\w] that the source's
    registry lists, whatever the database; "i-frame" and "9-slice" are of
    the same kind but are keywords of the Subsystem Index, not
    triggers. *)
Example non_word_triggers_of_registry :
  forall U : Unicode.database,
    filter (fun t => (word_count U t =? 1) && has_non_word_char U t)
           (all_triggers AGENTS)
    = ["half-res"; "power-up"; "multi-texture"; "a*"; "lock-on";
       "anti-cheat"; "data-driven"; "pub/sub"]
    /\ map (fun t => (word_count U t, has_non_word_char U t,
                      Py.mem t (all_triggers AGENTS)))
           ["i-frame"; "9-slice"]
       = [(1, true, false); (1, true, false)].
Proof. intros U. vm_compute. split; reflexivity. Qed.

(** A character beyond ASCII is a word character when the database says
    so: "café" then has no character outside [\w], and is a token. *)
Example accented_word_is_a_token :
  has_non_word_char E_ACUTE "café" = false
  /\ has_non_word_char Unicode.ASCII "café" = true
  /\ Unicode.findall_words E_ACUTE "un café, deux" = ["un"; "café"; "deux"]
  /\ Unicode.len "café" = 4.
Proof. vm_compute. repeat split. Qed.

(** C10.  Whatever the Unicode database: a trigger that [split] leaves
    as one word and that contains a character outside [\w] never
    matches: it adds nothing to any agent's score or matched list
    (striking it from the agent's triggers changes neither), and it is in
    no matched list of the ranking. *)
Theorem non_word_trigger_never_matches :
  forall (U : Unicode.database) (REGISTRY : Dict.t AgentInfo)
         (text trigger : string),
    List.length (Unicode.split U trigger) = 1 ->
    has_non_word_char U trigger = true ->
    let task_lower := Unicode.lower U text in
    let task_words := Py.set (Unicode.findall_words U task_lower) in
    trigger_matched U task_lower task_words trigger = false
    /\ (forall info,
           score_agent U (trigger_agent_count REGISTRY) task_lower task_words
                       info
           = score_agent U (trigger_agent_count REGISTRY) task_lower task_words
                         (without_trigger trigger info))
    /\ (forall m,
           In m (ranked_agents U REGISTRY text) ->
           ~ In trigger (am_matched_triggers m)).
Proof.
  intros U REGISTRY text trigger Hone Hchar. cbv zeta.
  fold (task_words_of U (Unicode.lower U text)).
  assert (Hno : trigger_occurs U text trigger = false).
  { unfold trigger_occurs, word_count. rewrite Hone. cbn [Nat.eqb].
    apply mem_false. intros Hin. apply findall_words_chars in Hin.
    congruence. }
  assert (Hf : forall l,
             filter (trigger_occurs U text)
                    (filter (fun t => negb (String.eqb t trigger)) l)
             = filter (trigger_occurs U text) l).
  { intros l. rewrite filter_filter. apply filter_ext. intros t.
    destruct (String.eqb_spec t trigger) as [->|N]; cbn;
      [now rewrite Hno | reflexivity]. }
  split; [|split].
  - rewrite trigger_matched_occurs. exact Hno.
  - intros info. rewrite !score_agent_counted.
    unfold counted_score, description_bonus, without_trigger.
    cbn [agent_triggers agent_description]. now rewrite Hf.
  - intros m Hm Hin.
    apply (Permutation_in _ (ranked_agents_perm U REGISTRY text)) in Hm.
    apply agent_matches_In in Hm as (item & _ & _ & ->).
    cbn [counted_match am_matched_triggers] in Hin.
    apply filter_In in Hin as [_ Hin]. congruence.
Qed.

(** The trigger "a*" of the source's registry. *)
Lemma non_word_trigger_never_matches_witness :
  let U := Unicode.ASCII in
  let text := "use a* pathfinding" in
  let task_lower := Unicode.lower U text in
  let task_words := Py.set (Unicode.findall_words U task_lower) in
  trigger_matched U task_lower task_words "a*" = false
  /\ (forall info,
         score_agent U (trigger_agent_count AGENTS) task_lower task_words info
         = score_agent U (trigger_agent_count AGENTS) task_lower task_words
                       (without_trigger "a*" info))
  /\ (forall m,
         In m (ranked_agents U AGENTS text) ->
         ~ In "a*" (am_matched_triggers m)).
Proof.
  apply (non_word_trigger_never_matches
           Unicode.ASCII AGENTS "use a* pathfinding" "a*").
  - vm_compute. reflexivity.
  - vm_compute. reflexivity.
Defined.
(* ================================================================== *)
(** * Document search *)

Lemma document_step_append (query_lower : string)
      (results : list DocumentMatch) (doc_file : DocFile) :
  document_step query_lower results doc_file
  = results ++ document_result query_lower doc_file.
Proof.
  unfold document_result, document_step.
  destruct (doc_read_text doc_file) as [content|];
    [|now rewrite app_nil_r].
  destruct (line_matches query_lower content);
    [now rewrite app_nil_r | reflexivity].
Qed.

Lemma document_loop (query_lower : string) (doc_files : list DocFile) :
  fold_left (document_step query_lower) doc_files []
  = flat_map (document_result query_lower) doc_files.
Proof.
  now rewrite (fold_left_append _ _ (document_step_append query_lower)).
Qed.

Lemma document_result_unreadable (query_lower : string) (doc_file : DocFile) :
  doc_read_text doc_file = ReadRaises ->
  document_result query_lower doc_file = [].
Proof. unfold document_result, document_step. now intros ->. Qed.

Lemma flat_map_readable (query_lower : string) (doc_files : list DocFile) :
  flat_map (document_result query_lower) doc_files
  = flat_map (document_result query_lower) (filter readable doc_files).
Proof.
  induction doc_files as [|f fs IH]; [reflexivity|].
  cbn [flat_map filter]. unfold readable at 1.
  destruct (doc_read_text f) eqn:E; cbn [flat_map]; rewrite IH;
    [reflexivity|].
  now rewrite (document_result_unreadable _ _ E).
Qed.

(** C9.  A document whose reading raises leaves no trace: the search
    over a directory that holds it returns what the search over the
    directory without it returns, which is a normal result made of the
    entries of the readable documents, in directory order. *)
Theorem unreadable_document_skipped :
  forall (INDEX : Dict.t SubsystemInfo) (before after : list DocFile)
         (bad : DocFile) (query : string),
    doc_read_text bad = ReadRaises ->
    search_context_documents INDEX (Some (before ++ bad :: after)) query
    = search_context_documents INDEX (Some (before ++ after)) query
    /\ exists document_matches subsystem_matches,
        search_context_documents INDEX (Some (before ++ bad :: after)) query
        = SearchFound query document_matches subsystem_matches
        /\ document_matches
           = flat_map (fun doc_file =>
                         document_step (Py.lower query) [] doc_file)
                      (filter readable (before ++ after)).
Proof.
  intros INDEX before after bad query Hbad.
  unfold search_context_documents. rewrite !document_loop.
  assert (E : flat_map (document_result (Py.lower query))
                       (before ++ bad :: after)
              = flat_map (document_result (Py.lower query))
                         (before ++ after)).
  { rewrite !flat_map_app. cbn [flat_map].
    now rewrite (document_result_unreadable _ _ Hbad). }
  rewrite E. split; [reflexivity|].
  eexists. eexists. split; [reflexivity|]. apply flat_map_readable.
Qed.

(** Three documents, the second unreadable: two entries come back. *)
Lemma unreadable_document_skipped_witness :
  let nl := String newline EmptyString in
  let architecture :=
    mkDocFile "architecture" ".claude/context/architecture.md"
              (ReadText ("# Architecture" ++ nl ++ nl
                         ++ "Host keeps state in Sync." ++ nl
                         ++ "Clients interpolate." ++ nl)) in
  let broken :=
    mkDocFile "item-system" ".claude/context/item-system.md" ReadRaises in
  let input :=
    mkDocFile "input-system" ".claude/context/input-system.md"
              (ReadText ("Input is polled, then synced.")) in
  search_context_documents [] (Some ([architecture] ++ broken :: [input]))
                           "SYNC"
  = SearchFound
      "SYNC"
      [mkDocumentMatch
         "architecture" ".claude/context/architecture.md"
         [mkLineMatch 3 ("# Architecture" ++ nl ++ nl
                         ++ "Host keeps state in Sync." ++ nl
                         ++ "Clients interpolate." ++ nl)]
         1;
       mkDocumentMatch
         "input-system" ".claude/context/input-system.md"
         [mkLineMatch 1 "Input is polled, then synced."] 1]
      [].
Proof.
  intros nl architecture broken input.
  rewrite (proj1 (unreadable_document_skipped
                    [] [architecture] [input] broken "SYNC" eq_refl)).
  vm_compute. reflexivity.
Defined.

(* ================================================================== *)
(** * Substrings and case *)

Lemma prefix_spec (p s : string) :
  String.prefix p s = true <-> exists b, s = (p ++ b)%string.
Proof.
  revert s. induction p as [|c p IH]; intros s; cbn.
  - destruct s; split; eauto.
  - destruct s as [|d s]; cbn.
    + split; [discriminate | intros (b & E); discriminate].
    + destruct (ascii_dec c d) as [->|N].
      * rewrite IH. split; intros (b & E); exists b; congruence.
      * split; [discriminate | intros (b & E); congruence].
Qed.

(** [sub in s] holds exactly when [s] is [a ++ sub ++ b]. *)
Lemma str_in_spec (sub s : string) :
  Py.str_in sub s = true <-> exists a b, s = (a ++ sub ++ b)%string.
Proof.
  induction s as [|c s IH]; cbn [Py.str_in]; rewrite orb_true_iff.
  - split.
    + intros [H | H]; [|discriminate].
      apply prefix_spec in H as (b & ->). now exists EmptyString, b.
    + intros (a & b & E). left. apply prefix_spec.
      destruct a; cbn in E; [now exists b | discriminate].
  - rewrite IH, prefix_spec. split.
    + intros [(b & ->) | (a & b & ->)].
      * now exists EmptyString, b.
      * now exists (String c a), b.
    + intros (a & b & E). destruct a as [|d a]; cbn in E.
      * left. now exists b.
      * right. injection E as -> ->. now exists a, b.
Qed.

Lemma str_in_refl (s : string) : Py.str_in s s = true.
Proof.
  apply str_in_spec. exists EmptyString, EmptyString.
  now rewrite string_app_nil_r.
Qed.

Lemma str_in_empty (s : string) : Py.str_in EmptyString s = true.
Proof. apply str_in_spec. now exists EmptyString, s. Qed.

Lemma str_in_app (sub s a b : string) :
  Py.str_in sub s = true -> Py.str_in sub (a ++ s ++ b) = true.
Proof.
  rewrite !str_in_spec. intros (x & y & ->).
  exists (a ++ x)%string, (y ++ b)%string.
  now rewrite !string_app_assoc.
Qed.

Lemma str_in_trans (a b c : string) :
  Py.str_in a b = true -> Py.str_in b c = true -> Py.str_in a c = true.
Proof.
  intros H. rewrite str_in_spec. intros (x & y & ->). now apply str_in_app.
Qed.

Lemma list_ascii_app (a b : string) :
  list_ascii_of_string (a ++ b)
  = list_ascii_of_string a ++ list_ascii_of_string b.
Proof. induction a as [|x a IH]; cbn; [reflexivity | now rewrite IH]. Qed.

Lemma str_in_chars (sub s : string) (c : ascii) :
  Py.str_in sub s = true ->
  In c (list_ascii_of_string sub) -> In c (list_ascii_of_string s).
Proof.
  rewrite str_in_spec. intros (a & b & ->) H.
  rewrite !list_ascii_app, !in_app_iff. auto.
Qed.

Lemma lower_app (a b : string) :
  Py.lower (a ++ b) = (Py.lower a ++ Py.lower b)%string.
Proof. induction a as [|x a IH]; cbn; [reflexivity | now rewrite IH]. Qed.

Lemma lower_char_idem (c : ascii) :
  Py.lower_char (Py.lower_char c) = Py.lower_char c.
Proof. destruct c as [[] [] [] [] [] [] [] []]; reflexivity. Qed.

Lemma lower_char_not_upper (c : ascii) :
  Py.is_upper (Py.lower_char c) = false.
Proof. destruct c as [[] [] [] [] [] [] [] []]; reflexivity. Qed.

Lemma lower_idem (s : string) : Py.lower (Py.lower s) = Py.lower s.
Proof.
  induction s as [|c s IH]; cbn; [reflexivity|].
  now rewrite lower_char_idem, IH.
Qed.

Lemma lower_no_upper (s : string) : has_upper (Py.lower s) = false.
Proof.
  unfold has_upper. induction s as [|c s IH]; cbn; [reflexivity|].
  now rewrite lower_char_not_upper, IH.
Qed.

(** Lower-casing the text keeps every match. *)
Lemma str_in_lower (sub s : string) :
  Py.str_in sub s = true -> Py.str_in (Py.lower sub) (Py.lower s) = true.
Proof.
  rewrite !str_in_spec. intros (a & b & ->).
  exists (Py.lower a), (Py.lower b). now rewrite !lower_app.
Qed.

(** Nothing with a capital letter occurs in a lower-cased text. *)
Lemma str_in_lower_upper (sub s : string) :
  has_upper sub = true -> Py.str_in sub (Py.lower s) = false.
Proof.
  intros Hu. destruct (Py.str_in sub (Py.lower s)) eqn:E; [|reflexivity].
  unfold has_upper in Hu. apply existsb_exists in Hu as (c & Hc & Hup).
  pose proof (str_in_chars _ _ c E Hc) as Hin.
  pose proof (lower_no_upper s) as Hl. unfold has_upper in Hl.
  assert (existsb Py.is_upper (list_ascii_of_string (Py.lower s)) = true)
    by (apply existsb_exists; now exists c).
  congruence.
Qed.

Lemma join_In (sep x : string) (xs : list string) :
  In x xs -> exists a b, Py.join sep xs = (a ++ x ++ b)%string.
Proof.
  induction xs as [|y ys IH]; [contradiction|].
  intros [-> | H].
  - destruct ys as [|z zs].
    + exists EmptyString, EmptyString. cbn. now rewrite string_app_nil_r.
    + now exists EmptyString, (sep ++ Py.join sep (z :: zs))%string.
  - destruct (IH H) as (a & b & E). destruct ys as [|z zs]; [contradiction|].
    change (Py.join sep (y :: z :: zs))
      with (y ++ sep ++ Py.join sep (z :: zs))%string.
    rewrite E. exists (y ++ sep ++ a)%string, b.
    now rewrite !string_app_assoc.
Qed.

Lemma str_in_join (sep x : string) (xs : list string) :
  In x xs -> Py.str_in x (Py.join sep xs) = true.
Proof. intros H. apply str_in_spec. now apply join_In. Qed.

(* ================================================================== *)
(** * Document search: the records *)

Lemma line_loop (query_lower : string) (lines : list string)
      (ils : list (nat * string)) (acc : list LineMatch) :
  fold_left (line_step query_lower lines) ils acc
  = acc ++ map (line_record lines)
               (filter (fun il => Py.str_in query_lower (Py.lower (snd il)))
                       ils).
Proof.
  rewrite (fold_left_append
             (line_step query_lower lines)
             (fun il => if Py.str_in query_lower (Py.lower (snd il))
                        then [line_record lines il] else [])).
  - now rewrite flat_map_filter_map.
  - intros a [i line]. unfold line_step, line_record. cbn [fst snd].
    destruct (Py.str_in query_lower (Py.lower line));
      [reflexivity | now rewrite app_nil_r].
Qed.

Lemma line_matches_spec (query content : string) :
  line_matches (Py.lower query) content
  = map (line_record (lines_of content))
        (filter (fun il => line_hit query (snd il))
                (combine (seq 0 (List.length (lines_of content)))
                         (lines_of content))).
Proof. unfold line_matches. now rewrite line_loop. Qed.

Lemma filter_combine_snd {A : Type} (p : A -> bool) (l : list A) (a : nat) :
  map snd (filter (fun il => p (snd il)) (combine (seq a (List.length l)) l))
  = filter p l.
Proof.
  revert a. induction l as [|x l IH]; intros a; cbn; [reflexivity|].
  destruct (p x); cbn; now rewrite IH.
Qed.

Lemma line_matches_length (query content : string) :
  List.length (line_matches (Py.lower query) content)
  = List.length (filter (line_hit query) (lines_of content)).
Proof.
  rewrite line_matches_spec, length_map.
  rewrite <- (filter_combine_snd (line_hit query) (lines_of content) 0).
  now rewrite length_map.
Qed.









Lemma document_result_spec (query : string) (doc_file : DocFile) :
  document_result (Py.lower query) doc_file
  = if 0 <? doc_hits query doc_file
    then [mkDocumentMatch
            (doc_stem doc_file) (doc_relative_path doc_file)
            (firstn 10 (match doc_read_text doc_file with
                        | ReadText content =>
                            line_matches (Py.lower query) content
                        | ReadRaises => []
                        end))
            (doc_hits query doc_file)]
    else [].
Proof.
  unfold document_result, document_step, doc_hits.
  destruct (doc_read_text doc_file) as [content|]; [|reflexivity].
  rewrite <- line_matches_length.
  destruct (line_matches (Py.lower query) content); reflexivity.
Qed.

Lemma search_found_inv (INDEX : Dict.t SubsystemInfo) (files : list DocFile)
      (query : string) (dm : list DocumentMatch) (sm : list SubsystemHit) :
  search_context_documents INDEX (Some files) query = SearchFound query dm sm ->
  dm = flat_map (document_result (Py.lower query)) files
  /\ sm = fold_left (subsystem_hit_step (Py.lower query)) INDEX [].
Proof.
  unfold search_context_documents. rewrite document_loop.
  intros [= <- <-]. split; reflexivity.
Qed.

Lemma document_matches_spec (query : string) (files : list DocFile) :
  flat_map (document_result (Py.lower query)) files
  = map (fun f =>
           mkDocumentMatch
             (doc_stem f) (doc_relative_path f)
             (firstn 10 (match doc_read_text f with
                         | ReadText content =>
                             line_matches (Py.lower query) content
                         | ReadRaises => []
                         end))
             (doc_hits query f))
        (filter (fun f => 0 <? doc_hits query f) files).
Proof.
  rewrite <- flat_map_filter_map. apply flat_map_ext.
  intros f. apply document_result_spec.
Qed.

Lemma ascii_documents_check (files : list DocFile) :
  forallb (fun f => match doc_read_text f with
                    | ReadText content => is_ascii content
                    | ReadRaises => true
                    end) files = true ->
  ascii_documents files.
Proof.
  intros H f content Hin E. rewrite forallb_forall in H.
  specialize (H f Hin). now rewrite E in H.
Qed.

(** X1.  For an ASCII query over ASCII documents, where [Py.lower] is
    [str.lower()]: the documents [search_context_documents] reports are
    the documents with at least one line containing the query (case
    aside), in directory order; each comes with the number of such lines
    as [total_matches], and with the first ten records at most. *)
Theorem search_reports_matching_documents :
  forall (INDEX : Dict.t SubsystemInfo) (files : list DocFile)
         (query : string) (dm : list DocumentMatch) (sm : list SubsystemHit),
    is_ascii query = true ->
    ascii_documents files ->
    search_context_documents INDEX (Some files) query
    = SearchFound query dm sm ->
    map (fun d => (dm_document d, dm_path d, dm_total_matches d)) dm
    = map (fun f => (doc_stem f, doc_relative_path f, doc_hits query f))
          (filter (fun f => 0 <? doc_hits query f) files)
    /\ forall d,
        In d dm ->
        1 <= dm_total_matches d
        /\ List.length (dm_matches d) = Nat.min 10 (dm_total_matches d).
Proof.
  intros INDEX files query dm sm _ _ H.
  apply search_found_inv in H as [-> _]. rewrite document_matches_spec.
  split; [now rewrite map_map|].
  intros d Hd. apply in_map_iff in Hd as (f & <- & Hf).
  apply filter_In in Hf as [_ Hpos]. apply Nat.ltb_lt in Hpos.
  cbn [dm_total_matches dm_matches]. split; [lia|].
  rewrite length_firstn. unfold doc_hits in *.
  destruct (doc_read_text f) as [content|]; [|lia].
  now rewrite line_matches_length.
Qed.

(** The sample: three of seven lines match in the first document, the
    unreadable document and the one without a match are not reported, and
    of the twelve matching lines of the last document ten are returned. *)
Lemma search_reports_matching_documents_witness :
  exists dm sm,
    search_context_documents SUBSYSTEMS (Some (SAMPLE_DIR ++ [LONG_DOC]))
                             "SYNC"
    = SearchFound "SYNC" dm sm
    /\ map (fun d => (dm_document d, dm_total_matches d)) dm
       = [("architecture", 3); ("network-operations", 12)]
    /\ map (fun d => List.length (dm_matches d)) dm = [3; 10]
    /\ forall d,
        In d dm ->
        1 <= dm_total_matches d
        /\ List.length (dm_matches d) = Nat.min 10 (dm_total_matches d).
Proof.
  pose (r := search_context_documents
               SUBSYSTEMS (Some (SAMPLE_DIR ++ [LONG_DOC])) "SYNC").
  pose (dm := match r with SearchFound _ dm _ => dm | _ => [] end).
  pose (sm := match r with SearchFound _ _ sm => sm | _ => [] end).
  assert (E : r = SearchFound "SYNC" dm sm) by (vm_compute; reflexivity).
  exists dm, sm. split; [exact E|].
  split; [vm_compute; reflexivity|]. split; [vm_compute; reflexivity|].
  assert (Ha : ascii_documents (SAMPLE_DIR ++ [LONG_DOC]))
    by (apply ascii_documents_check; vm_compute; reflexivity).
  exact (proj2 (search_reports_matching_documents
                  SUBSYSTEMS (SAMPLE_DIR ++ [LONG_DOC]) "SYNC" dm sm
                  eq_refl Ha E)).
Defined.



Lemma find_first {A : Type} (p : A -> bool) (l : list A) (x : A) :
  find p l = Some x ->
  p x = true
  /\ exists before after,
      l = before ++ x :: after /\ forall y, In y before -> p y = false.
Proof.
  induction l as [|a l IH]; cbn; [discriminate|].
  destruct (p a) eqn:Pa.
  - intros [= ->]. split; [exact Pa|]. exists [], l. split; [reflexivity|].
    contradiction.
  - intros H. destruct (IH H) as (Px & before & after & -> & Hb).
    split; [exact Px|]. exists (a :: before), after. split; [reflexivity|].
    intros y [<- | Hy]; auto.
Qed.

Lemma find_none_existsb {A : Type} (p : A -> bool) (l : list A) :
  find p l = None <-> existsb p l = false.
Proof.
  induction l as [|a l IH]; cbn; [tauto|].
  destruct (p a); cbn; [split; discriminate | exact IH].
Qed.

Lemma subsystem_hit_step_append (query_lower : string)
      (acc : list SubsystemHit) (item : string * SubsystemInfo) :
  subsystem_hit_step query_lower acc item
  = acc ++ subsystem_hit query_lower item.
Proof.
  unfold subsystem_hit, subsystem_hit_step. destruct item as [key info].
  destruct (_ || _); [reflexivity|].
  destruct (find _ _); [reflexivity | now rewrite app_nil_r].
Qed.

Lemma subsystem_hit_key (query : string) (item : string * SubsystemInfo) :
  map hit_key (subsystem_hit (Py.lower query) item)
  = if subsystem_has_hit query (snd item) then [fst item] else [].
Proof.
  unfold subsystem_hit, subsystem_hit_step, subsystem_has_hit.
  destruct item as [key info]. cbn [fst snd].
  destruct (_ || _); [reflexivity|]. cbn [orb].
  destruct (find _ _) as [kw|] eqn:E.
  - apply find_some in E as [Hin Hk].
    assert (H : existsb (fun keyword =>
                           Py.str_in (Py.lower query) (Py.lower keyword))
                        (sub_keywords info) = true)
      by (apply existsb_exists; now exists kw).
    now rewrite H.
  - apply find_none_existsb in E. now rewrite E.
Qed.

Lemma NoDup_map_filter {A K : Type} (keep : A -> bool) (key : A -> K)
      (entries : list A) (Hnd : NoDup (map key entries)) :
  NoDup (map key (filter keep entries)).
Proof.
  induction entries as [|a entries IH]; cbn in *; [constructor|].
  apply NoDup_cons_iff in Hnd as [Hnot Hrest].
  destruct (keep a); cbn; [|now apply IH].
  apply NoDup_cons; [|now apply IH].
  intros Hin. apply Hnot. apply in_map_iff in Hin as (x & E & Hx).
  apply filter_In in Hx as [Hx _]. rewrite <- E. now apply in_map.
Qed.

Lemma subsystem_hit_keys (INDEX : Dict.t SubsystemInfo) (query : string) :
  map hit_key (fold_left (subsystem_hit_step (Py.lower query)) INDEX [])
  = map fst (filter (fun item => subsystem_has_hit query (snd item)) INDEX).
Proof.
  rewrite (fold_left_append _ _ (subsystem_hit_step_append (Py.lower query))).
  cbn [app].
  induction INDEX as [|item rest IH]; [reflexivity|].
  cbn [flat_map filter]. rewrite map_app, subsystem_hit_key, IH.
  destruct (subsystem_has_hit query (snd item)); reflexivity.
Qed.

(** X3.  The cross-reference of [search_context_documents] holds one
    entry for each subsystem whose name, description or some keyword
    contains the query (case aside), in index order and under the
    subsystem's key.  A hit in the name or the description is reported
    as such; otherwise the entry names the first keyword that contains
    the query. *)
Theorem search_cross_reference :
  forall (INDEX : Dict.t SubsystemInfo) (files : list DocFile)
         (query : string) (dm : list DocumentMatch) (sm : list SubsystemHit),
    search_context_documents INDEX (Some files) query
    = SearchFound query dm sm ->
    map hit_key sm
    = map fst (filter (fun item => subsystem_has_hit query (snd item)) INDEX)
    /\ (NoDup (Dict.keys INDEX) -> NoDup (map hit_key sm))
    /\ forall h,
        In h sm ->
        match h with
        | HitText key name description =>
            exists info,
              In (key, info) INDEX
              /\ name = sub_name info
              /\ description = sub_description info
              /\ (Py.str_in (Py.lower query) (Py.lower name) = true
                  \/ Py.str_in (Py.lower query) (Py.lower description) = true)
        | HitKeyword key name keyword =>
            exists info before after,
              In (key, info) INDEX
              /\ name = sub_name info
              /\ Py.str_in (Py.lower query) (Py.lower name) = false
              /\ Py.str_in (Py.lower query) (Py.lower (sub_description info))
                 = false
              /\ sub_keywords info = before ++ keyword :: after
              /\ Py.str_in (Py.lower query) (Py.lower keyword) = true
              /\ forall k,
                  In k before ->
                  Py.str_in (Py.lower query) (Py.lower k) = false
        end.
Proof.
  intros INDEX files query dm sm H.
  apply search_found_inv in H as [_ ->].
  pose proof (subsystem_hit_keys INDEX query) as Hkeys.
  rewrite (fold_left_append _ _ (subsystem_hit_step_append (Py.lower query)))
    in Hkeys |- *.
  cbn [app] in Hkeys |- *.
  split; [exact Hkeys | split].
  - intros Hnd. rewrite Hkeys. now apply NoDup_map_filter.
  - intros h Hh. apply in_flat_map in Hh as ([key info] & Hin & Hh).
    unfold subsystem_hit, subsystem_hit_step in Hh.
    destruct (Py.str_in (Py.lower query) (Py.lower (sub_name info))) eqn:En;
      cbn [orb] in Hh.
    + destruct Hh as [<- | []]. exists info. auto.
    + destruct (Py.str_in (Py.lower query)
                          (Py.lower (sub_description info))) eqn:Ed.
      * destruct Hh as [<- | []]. exists info. auto.
      * destruct (find _ (sub_keywords info)) as [kw|] eqn:Ef;
          [|contradiction].
        destruct Hh as [<- | []].
        apply find_first in Ef as (Hk & before & after & E & Hb).
        exists info, before, after. repeat split; auto.
Qed.

(** On the source's index the query "hud" is found in two subsystems. *)
Lemma search_cross_reference_witness :
  exists dm sm,
    search_context_documents SUBSYSTEMS (Some SAMPLE_DIR) "hud"
    = SearchFound "hud" dm sm
    /\ map hit_key sm = ["devtools"; "ui"]
    /\ NoDup (map hit_key sm).
Proof.
  pose (r := search_context_documents SUBSYSTEMS (Some SAMPLE_DIR) "hud").
  pose (dm := match r with SearchFound _ dm _ => dm | _ => [] end).
  pose (sm := match r with SearchFound _ _ sm => sm | _ => [] end).
  assert (E : r = SearchFound "hud" dm sm) by (vm_compute; reflexivity).
  exists dm, sm. split; [exact E|].
  destruct (search_cross_reference SUBSYSTEMS SAMPLE_DIR "hud" dm sm E)
    as (_ & Hn & _).
  split; [vm_compute; reflexivity|].
  apply Hn. apply distinctb_NoDup. vm_compute. reflexivity.
Defined.

Lemma split_on_nonempty (sep : ascii) (s cur : string) :
  1 <= List.length (Py.split_on sep s cur).
Proof.
  revert cur. induction s as [|c s IH]; intros cur; cbn; [lia|].
  destruct (Ascii.eqb c sep); cbn; [lia | apply IH].
Qed.

Lemma doc_hits_empty (f : DocFile) :
  doc_hits EmptyString f
  = match doc_read_text f with
    | ReadText content => List.length (lines_of content)
    | ReadRaises => 0
    end.
Proof.
  unfold doc_hits. destruct (doc_read_text f) as [content|]; [|reflexivity].
  f_equal. rewrite <- (filter_all (lines_of content)) at 2.
  apply filter_ext. intros line. apply str_in_empty.
Qed.

(** X4.  The empty query matches everything: every readable document is
    reported with all its lines counted (a document has at least one
    line), and every subsystem of the index is cross-referenced by its
    name and description. *)
Theorem search_empty_query :
  forall (INDEX : Dict.t SubsystemInfo) (files : list DocFile),
  exists dm,
    search_context_documents INDEX (Some files) EmptyString
    = SearchFound
        EmptyString dm
        (map (fun item => HitText (fst item) (sub_name (snd item))
                                  (sub_description (snd item)))
             INDEX)
    /\ map (fun d => (dm_document d, dm_total_matches d)) dm
       = flat_map (fun f =>
                     match doc_read_text f with
                     | ReadText content =>
                         [(doc_stem f, List.length (lines_of content))]
                     | ReadRaises => []
                     end)
                  files
    /\ forall d, In d dm -> 1 <= dm_total_matches d.
Proof.
  intros INDEX files. eexists. split; [|split].
  - unfold search_context_documents. rewrite document_loop. f_equal.
    rewrite (fold_left_append _ _ (subsystem_hit_step_append _)). cbn [app].
    induction INDEX as [|[key info] rest IH]; [reflexivity|].
    cbn [flat_map map fst snd]. rewrite IH.
    unfold subsystem_hit, subsystem_hit_step.
    change (Py.lower EmptyString) with EmptyString.
    now rewrite str_in_empty.
  - change EmptyString with (Py.lower EmptyString) at 1.
    rewrite document_matches_spec, map_map. cbn [dm_document dm_total_matches].
    induction files as [|f fs IH]; [reflexivity|].
    cbn [filter flat_map]. rewrite doc_hits_empty at 1.
    destruct (doc_read_text f) as [content|] eqn:Er.
    + pose proof (split_on_nonempty newline content EmptyString) as Hl.
      fold (lines_of content) in Hl.
      destruct (Nat.ltb_spec 0 (List.length (lines_of content))); [|lia].
      cbn [map app]. rewrite IH. f_equal.
      rewrite doc_hits_empty, Er. reflexivity.
    + cbn. exact IH.
  - change EmptyString with (Py.lower EmptyString) at 1.
    rewrite document_matches_spec. intros d Hd.
    apply in_map_iff in Hd as (f & <- & Hf).
    apply filter_In in Hf as [_ Hpos]. apply Nat.ltb_lt in Hpos. exact Hpos.
Qed.

(* ================================================================== *)
(** * The relevance scorer: keywords, files and empty results *)

Lemma dict_get_In_NoDup {V : Type} (d : Dict.t V) (k : string) (v : V) :
  NoDup (Dict.keys d) -> In (k, v) d -> Dict.get d k = Some v.
Proof.
  unfold Dict.keys. induction d as [|[k0 v0] d IH]; cbn; [contradiction|].
  intros Hnd [E | Hin]; inversion Hnd as [|? ? Hnot Hrest]; subst.
  - injection E as -> ->. now rewrite String.eqb_refl.
  - destruct (String.eqb_spec k k0) as [->|N]; [|now apply IH].
    elim Hnot. change k0 with (fst (k0, v)). now apply in_map.
Qed.

(** X5.  A keyword with an ASCII capital letter never matches in
    [find_relevant_context], whatever the text: the text is lower-cased
    and the keyword is not.  It is in no list of matched keywords, and
    striking it from a subsystem changes neither score nor matches.
    [search_context_documents] lower-cases the keyword as well and does
    find the subsystem when queried for it. *)
Theorem capital_keyword_never_matches :
  forall (INDEX : Dict.t SubsystemInfo) (text keyword : string),
    has_upper keyword = true ->
    Py.str_in keyword (Py.lower text) = false
    /\ (forall info,
           score_subsystem (Py.lower text) info
           = score_subsystem (Py.lower text) (without_keyword keyword info))
    /\ (forall m,
           In m (ranked_subsystems INDEX text) ->
           ~ In keyword (sm_matched_keywords m))
    /\ (forall key info files dm sm,
           In (key, info) INDEX ->
           In keyword (sub_keywords info) ->
           search_context_documents INDEX (Some files) keyword
           = SearchFound keyword dm sm ->
           In key (map hit_key sm)).
Proof.
  intros INDEX text keyword Hu.
  assert (Hno : Py.str_in keyword (Py.lower text) = false)
    by now apply str_in_lower_upper.
  split; [exact Hno | split; [|split]].
  - intros info. rewrite !score_subsystem_spec.
    unfold relevance_score, keyword_hits, name_bonus, without_keyword.
    cbn [sub_keywords sub_name].
    rewrite filter_filter.
    assert (E : filter (fun k => negb (String.eqb k keyword)
                                 && Py.str_in k (Py.lower text))
                       (sub_keywords info)
                = filter (fun k => Py.str_in k (Py.lower text))
                         (sub_keywords info)).
    { apply filter_ext. intros k.
      destruct (String.eqb_spec k keyword) as [->|N]; cbn;
        [now rewrite Hno | reflexivity]. }
    now rewrite E.
  - intros m Hm Hin. apply ranked_subsystems_In in Hm as (item & _ & _ & ->).
    cbn [subsystem_match sm_matched_keywords] in Hin.
    apply filter_In in Hin as [_ Hin]. congruence.
  - intros key info files dm sm Hin Hk H.
    apply search_found_inv in H as [_ ->]. rewrite subsystem_hit_keys.
    change key with (fst (key, info)). apply in_map. apply filter_In.
    split; [exact Hin|]. unfold subsystem_has_hit. cbn [snd].
    assert (existsb (fun k => Py.str_in (Py.lower keyword) (Py.lower k))
                    (sub_keywords info) = true)
      by (apply existsb_exists; exists keyword; split;
          [exact Hk | apply str_in_refl]).
    rewrite H. now rewrite !orb_true_r.
Qed.

(** The keyword [combatRng] of the source's subsystem [combat]. *)
Lemma capital_keyword_never_matches_witness :
  Py.str_in "combatRng" (Py.lower "seed the combatRng per shot") = false
  /\ (forall m,
         In m (ranked_subsystems SUBSYSTEMS "seed the combatRng per shot") ->
         ~ In "combatRng" (sm_matched_keywords m))
  /\ map (fun m => (sm_subsystem m, sm_matched_keywords m))
         (ranked_subsystems SUBSYSTEMS "seed the combatRng per shot")
     = [("combat", ["combat"; "rng"]); ("devtools", ["seed"])].
Proof.
  destruct (capital_keyword_never_matches
              SUBSYSTEMS "seed the combatRng per shot" "combatRng" eq_refl)
    as (H1 & _ & H3 & _).
  split; [exact H1 | split; [exact H3|]]. vm_compute. reflexivity.
Defined.

Lemma dedup_app (a b : list string) :
  dedup (a ++ b)
  = dedup a ++ filter (fun x => negb (Py.mem x a)) (dedup b).
Proof.
  induction a as [|x a IH]; cbn [app dedup].
  - symmetry. apply filter_all.
  - rewrite IH, filter_app, filter_filter. cbn [app]. do 2 f_equal.
    apply filter_ext. intros y. unfold Py.mem. cbn [existsb].
    rewrite negb_orb. apply andb_comm.
Qed.

Lemma qualified_files_In (top : list SubsystemMatch) (p : string) :
  In p (qualified_files top)
  <-> exists m f, In m top /\ In f (sm_files m) /\ p = full_path f.
Proof.
  unfold qualified_files. rewrite in_concat. split.
  - intros (l & Hl & Hp). apply in_map_iff in Hl as (m & <- & Hm).
    apply in_map_iff in Hp as (f & <- & Hf). now exists m, f.
  - intros (m & f & Hm & Hf & ->). exists (map full_path (sm_files m)).
    split; [apply in_map_iff; now exists m | now apply in_map].
Qed.

(** X6.  Every suggested file of [find_relevant_context] is a file of one
    of the three best subsystems, behind the base path, and when these
    have ten distinct files or fewer, all of them are suggested.  The
    list begins with the files [get_files_for_subsystem] returns for the
    best subsystem, duplicates dropped, ten at most. *)
Theorem suggested_files_of_best_match :
  forall (INDEX : Dict.t SubsystemInfo) (text : string),
    let ranked := ranked_subsystems INDEX text in
    let suggested := cr_suggested_files (find_relevant_context INDEX text) in
    (forall p,
        In p suggested ->
        exists m f,
          In m (firstn 3 ranked) /\ In f (sm_files m)
          /\ p = ("GameProject/src/GameProject.Engine/" ++ f)%string)
    /\ (List.length (dedup (qualified_files (firstn 3 ranked))) <= 10 ->
        forall m f,
          In m (firstn 3 ranked) -> In f (sm_files m) ->
          In (full_path f) suggested)
    /\ (forall m rest,
           NoDup (Dict.keys INDEX) ->
           ranked = m :: rest ->
           exists name description files tail,
             get_files_for_subsystem INDEX (sm_subsystem m)
             = FilesFound (sm_subsystem m) name description files
             /\ suggested = firstn 10 (dedup files) ++ tail).
Proof.
  intros INDEX text ranked suggested.
  assert (E : suggested
              = firstn 10 (dedup (qualified_files (firstn 3 ranked)))).
  { unfold suggested, find_relevant_context. cbn [cr_suggested_files].
    now rewrite suggest_files_spec. }
  rewrite E. split; [|split].
  - intros p Hp. apply In_firstn, dedup_In, qualified_files_In in Hp.
    exact Hp.
  - intros Hlen m f Hm Hf. rewrite firstn_all2 by exact Hlen.
    apply dedup_In, qualified_files_In. now exists m, f.
  - intros m rest Hnd Hr.
    assert (Hin : In m ranked) by (rewrite Hr; now left).
    apply ranked_subsystems_In in Hin as ([key info] & Hi & _ & ->).
    cbn [subsystem_match sm_subsystem fst snd].
    unfold get_files_for_subsystem.
    rewrite (dict_get_In_NoDup INDEX key info Hnd Hi).
    exists (sub_name info), (sub_description info),
      (map full_path (sub_files info)).
    rewrite Hr.
    change (firstn 3 (subsystem_match text (key, info) :: rest))
      with (subsystem_match text (key, info) :: firstn 2 rest).
    unfold qualified_files. cbn [map List.concat].
    cbn [subsystem_match sm_files snd]. rewrite dedup_app, firstn_app.
    eexists. split; reflexivity.
Qed.

(** On the source's index, "fix the sync issue": the best match is
    [networking], and the suggestions begin with its files. *)
Lemma suggested_files_of_best_match_witness :
  exists name description files tail,
    get_files_for_subsystem SUBSYSTEMS "networking"
    = FilesFound "networking" name description files
    /\ cr_suggested_files
         (find_relevant_context SUBSYSTEMS "fix the sync issue")
       = firstn 10 (dedup files) ++ tail.
Proof.
  destruct (suggested_files_of_best_match SUBSYSTEMS "fix the sync issue")
    as (_ & _ & H).
  pose (ranked := ranked_subsystems SUBSYSTEMS "fix the sync issue").
  pose (d := subsystem_match EmptyString (EmptyString, no_subsystem)).
  assert (Hnd : NoDup (Dict.keys SUBSYSTEMS))
    by (apply distinctb_NoDup; vm_compute; reflexivity).
  assert (Hr : ranked = nth 0 ranked d :: skipn 1 ranked)
    by (vm_compute; reflexivity).
  assert (Hk : sm_subsystem (nth 0 ranked d) = "networking")
    by (vm_compute; reflexivity).
  destruct (H _ _ Hnd Hr) as (name & description & files & tail & Hg & Hs).
  rewrite Hk in Hg.
  exists name, description, files, tail. split; [exact Hg | exact Hs].
Defined.

Lemma str_in_of_empty (sub : string) :
  Py.str_in sub EmptyString = true -> sub = EmptyString.
Proof.
  intros H. apply str_in_spec in H as (a & b & E).
  destruct a; [|discriminate]. destruct sub; [reflexivity | discriminate].
Qed.

Lemma lower_empty (s : string) : Py.lower s = EmptyString -> s = EmptyString.
Proof. destruct s; [reflexivity | discriminate]. Qed.

(** X7.  [find_relevant_context] returns no subsystem exactly when no
    subsystem has a keyword or its name in the lower-cased text, and then
    it suggests no file.  This is the case of the empty text whenever no
    keyword and no name of the index is the empty string. *)
Theorem no_relevant_context :
  forall (INDEX : Dict.t SubsystemInfo) (text : string),
    let r := find_relevant_context INDEX text in
    (cr_relevant_subsystems r = []
     <-> forall key info,
         In (key, info) INDEX ->
         (forall keyword,
             In keyword (sub_keywords info) ->
             Py.str_in keyword (Py.lower text) = false)
         /\ Py.str_in (Py.lower (sub_name info)) (Py.lower text) = false)
    /\ (cr_relevant_subsystems r = [] -> cr_suggested_files r = [])
    /\ ((forall key info,
            In (key, info) INDEX ->
            sub_name info <> EmptyString
            /\ ~ In EmptyString (sub_keywords info)) ->
        find_relevant_context INDEX EmptyString
        = mkContextResult EmptyString [] [] "context7://architecture").
Proof.
  intros INDEX text r.
  assert (Hr : forall t,
             cr_relevant_subsystems (find_relevant_context INDEX t) = []
             <-> ranked_subsystems INDEX t = []).
  { intros t. unfold find_relevant_context. cbn [cr_relevant_subsystems].
    destruct (ranked_subsystems INDEX t); cbn; split; intros H;
      try reflexivity; discriminate. }
  assert (Hz : forall t info,
             relevance_score t info = 0
             <-> (forall keyword,
                     In keyword (sub_keywords info) ->
                     Py.str_in keyword (Py.lower t) = false)
                 /\ Py.str_in (Py.lower (sub_name info)) (Py.lower t)
                    = false).
  { intros t info. unfold relevance_score, keyword_hits, name_bonus. split.
    - intros H.
      destruct (Py.str_in (Py.lower (sub_name info)) (Py.lower t)); [lia|].
      split; [|reflexivity]. intros kw Hk.
      destruct (Py.str_in kw (Py.lower t)) eqn:E; [|reflexivity].
      assert (Hin : In kw (filter (fun k => Py.str_in k (Py.lower t))
                                  (sub_keywords info)))
        by (apply filter_In; auto).
      destruct (filter _ (sub_keywords info)); [contradiction|].
      cbn in H. lia.
    - intros [Hk ->]. rewrite filter_none; [reflexivity | exact Hk]. }
  assert (He : forall t,
             ranked_subsystems INDEX t = []
             <-> forall key info,
                 In (key, info) INDEX -> relevance_score t info = 0).
  { intros t. split.
    - intros H key info Hin.
      destruct (relevance_score t info) eqn:E; [reflexivity|].
      assert (Hm : In (subsystem_match t (key, info))
                      (ranked_subsystems INDEX t)).
      { apply ranked_subsystems_In. exists (key, info).
        repeat split; [exact Hin | cbn [snd]; lia]. }
      rewrite H in Hm. contradiction.
    - intros H. destruct (ranked_subsystems INDEX t) as [|m ms] eqn:E;
        [reflexivity|].
      assert (Hm : In m (ranked_subsystems INDEX t))
        by (rewrite E; now left).
      apply ranked_subsystems_In in Hm as ([key info] & Hin & Hpos & _).
      cbn [snd] in Hpos. rewrite (H key info Hin) in Hpos. lia. }
  split; [|split].
  - unfold r. rewrite Hr, He. split; intros H key info Hin;
      apply Hz; now apply (H key info).
  - unfold r. rewrite Hr. intros H. unfold find_relevant_context.
    cbn [cr_suggested_files]. now rewrite H.
  - intros Hne.
    assert (E : ranked_subsystems INDEX EmptyString = []).
    { apply He. intros key info Hin. apply Hz.
      destruct (Hne key info Hin) as [Hn Hk]. split.
      - intros kw Hkw.
        destruct (Py.str_in kw (Py.lower EmptyString)) eqn:E;
          [|reflexivity].
        apply str_in_of_empty in E. subst. contradiction.
      - destruct (Py.str_in (Py.lower (sub_name info))
                            (Py.lower EmptyString)) eqn:E; [|reflexivity].
        apply str_in_of_empty, lower_empty in E. contradiction. }
    unfold find_relevant_context. now rewrite E.
Qed.

(** The source's index has no empty keyword or name. *)
Lemma no_relevant_context_witness :
  find_relevant_context SUBSYSTEMS EmptyString
  = mkContextResult EmptyString [] [] "context7://architecture"
  /\ cr_suggested_files (find_relevant_context SUBSYSTEMS "zzz") = [].
Proof.
  destruct (no_relevant_context SUBSYSTEMS EmptyString) as (_ & _ & He).
  destruct (no_relevant_context SUBSYSTEMS "zzz") as (_ & Hs & _).
  split.
  - apply He. intros key info Hin.
    assert (Hall : forallb (fun item =>
                              negb (String.eqb (sub_name (snd item))
                                               EmptyString)
                              && negb (Py.mem EmptyString
                                              (sub_keywords (snd item))))
                           SUBSYSTEMS = true)
      by (vm_compute; reflexivity).
    rewrite forallb_forall in Hall. specialize (Hall (key, info) Hin).
    cbn [snd] in Hall. apply andb_prop in Hall as [H1 H2].
    apply negb_true_iff in H1, H2.
    split; [now apply String.eqb_neq | now apply mem_false].
  - apply Hs. vm_compute. reflexivity.
Defined.

(* ================================================================== *)
(** * Lower bounds on binary64 scores *)

Section Binary64Bounds.

Local Open Scope Z_scope.

Lemma Zdigits2_mul (a b : positive) :
  Zpos (digits2_pos a) + Zpos (digits2_pos b) - 1
  <= Zpos (digits2_pos (a * b)).
Proof.
  pose proof (digits2_pos_bounds a) as [Ha _].
  pose proof (digits2_pos_bounds b) as [Hb _].
  pose proof (digits2_pos_bounds (a * b)) as [_ Hab].
  set (da := Zpos (digits2_pos a)) in *.
  set (db := Zpos (digits2_pos b)) in *.
  set (dab := Zpos (digits2_pos (a * b))) in *.
  assert (0 < da) by (unfold da; lia). assert (0 < db) by (unfold db; lia).
  destruct (Z_le_gt_dec (da + db - 1) dab) as [|Hgt]; [assumption|].
  exfalso.
  assert (H1 : 2 ^ dab <= 2 ^ (da - 1 + (db - 1)))
    by (apply Z.pow_le_mono_r; lia).
  rewrite Z.pow_add_r in H1 by lia.
  assert (H2 : 2 ^ (da - 1) * 2 ^ (db - 1) <= Zpos a * Zpos b).
  { apply Z.mul_le_mono_nonneg; try assumption; apply Z.pow_nonneg; lia. }
  change (Zpos a * Zpos b) with (Zpos (a * b)) in H2. lia.
Qed.

(** A rounded value is in canonical form. *)
Lemma binary_round_aux_canonical (mx ex : Z) (lx : location) :
  0 <= mx ->
  match binary_round_aux F64.prec F64.emax false mx ex lx with
  | S754_finite false m e => Zpos (digits2_pos m) <= 53
  | _ => True
  end.
Proof.
  intros Hm. unfold binary_round_aux.
  pose proof (shr_fexp_facts mx ex lx Hm) as H1. cbv zeta in H1.
  destruct (shr_fexp F64.prec F64.emax mx ex lx) as [mrs1 e1].
  cbn [fst snd] in H1. destruct H1 as (Hm1 & He1 & Hd1).
  pose proof (round_nearest_even_facts
                (shr_m mrs1) (loc_of_shr_record mrs1) Hm1) as Hr.
  set (m2 := round_nearest_even (shr_m mrs1) (loc_of_shr_record mrs1)) in *.
  assert (Hm2 : 0 <= m2) by lia.
  pose proof (shr_fexp_facts m2 e1 loc_Exact Hm2) as H2. cbv zeta in H2.
  destruct (shr_fexp F64.prec F64.emax m2 e1 loc_Exact) as [mrs2 e2].
  cbn [fst snd] in H2. destruct H2 as (Hm3 & He2 & Hd2).
  unfold F64.fexp64 in He2.
  destruct (shr_m mrs2) as [|m|m] eqn:Em; [exact I| |exact I].
  cbn [Zdigits2] in Hd2.
  destruct (Z.leb e2 (F64.emax - F64.prec)); [|exact I]. lia.
Qed.

Lemma binary_round_canonical (mx : positive) (ex : Z) :
  match binary_round F64.prec F64.emax false mx ex with
  | S754_finite false m e => Zpos (digits2_pos m) <= 53
  | _ => True
  end.
Proof.
  unfold binary_round.
  destruct (shl_align mx ex _) as [mz ez].
  apply binary_round_aux_canonical. lia.
Qed.

Lemma at_least_round_aux (k mx ex : Z) (lx : location) :
  0 < mx -> -1021 <= k -> k <= Zdigits2 mx + ex ->
  at_least k (binary_round_aux F64.prec F64.emax false mx ex lx).
Proof.
  intros Hm Hk Hd.
  pose proof (binary_round_aux_facts mx ex lx ltac:(lia)) as H.
  pose proof (binary_round_aux_canonical mx ex lx ltac:(lia)) as Hc.
  destruct (binary_round_aux F64.prec F64.emax false mx ex lx)
    as [[|]|[|]| |[|] m e]; cbn [at_least]; try exact H; try exact I.
  - specialize (H Hm). lia.
  - destruct H as (_ & _ & H). specialize (H Hm). lia.
Qed.

Lemma at_least_round (k : Z) (mx : positive) (ex : Z) :
  -1021 <= k -> k <= Zpos (digits2_pos mx) + ex ->
  at_least k (binary_round F64.prec F64.emax false mx ex).
Proof.
  intros Hk Hd.
  pose proof (binary_round_facts mx ex) as H.
  pose proof (binary_round_canonical mx ex) as Hc.
  destruct (binary_round F64.prec F64.emax false mx ex)
    as [[|]|[|]| |[|] m e]; cbn [at_least]; try exact H; try exact I; lia.
Qed.

Lemma at_least_nonneg (k : Z) (x : F64.float) :
  at_least k x -> F64.nonneg x = true.
Proof.
  destruct x as [[|]|[|]| |[|] m e]; cbn; try contradiction; reflexivity.
Qed.

Lemma at_least_positive (k : Z) (x : F64.float) :
  at_least k x -> F64.ltb F64.zero x = true.
Proof.
  destruct x as [[|]|[|]| |[|] m e]; cbn; try contradiction; reflexivity.
Qed.

Lemma at_least_weaken (k j : Z) (x : F64.float) :
  j <= k -> at_least k x -> at_least j x.
Proof.
  destruct x as [[|]|[|]| |[|] m e]; cbn; try contradiction; auto. lia.
Qed.

(** The order test against a power of two. *)
Lemma at_least_leb (k : Z) (x : F64.float) :
  at_least k x -> F64.leb (power_of_two k) x = true.
Proof.
  destruct x as [[|]|[|]| |[|] m e]; cbn [at_least]; try contradiction;
    [reflexivity|].
  intros [Hc Hk]. unfold power_of_two. apply f64_leb_finite.
  unfold F64.lex_le.
  destruct (Z.eq_dec e (k - 53)) as [->|N]; [right | left; lia].
  split; [reflexivity|].
  pose proof (digits2_pos_bounds m) as [Hm _].
  replace (Zpos (digits2_pos m)) with 53 in Hm by lia.
  change (2 ^ (53 - 1)) with 4503599627370496 in Hm. lia.
Qed.

Lemma at_least_add_r (k : Z) (x y : F64.float) :
  -1021 <= k -> F64.nonneg x = true -> at_least k y ->
  at_least k (F64.add x y).
Proof.
  intros Hk.
  destruct x as [[|]|[|]| |[|] mx ex]; try discriminate;
    destruct y as [[|]|[|]| |[|] my ey]; cbn [at_least];
    try contradiction; intros _ Hy; try exact I; try exact Hy.
  unfold F64.add, SFadd, cond_Zopp, binary_normalize.
  change (Zpos ?a + Zpos ?b) with (Zpos (a + b)).
  set (ez := Z.min ex ey).
  pose proof (shl_align_facts mx ex ez) as Ha.
  pose proof (shl_align_facts my ey ez) as Hb. cbv zeta in Ha, Hb.
  destruct (shl_align mx ex ez) as [a ea].
  destruct (shl_align my ey ez) as [b eb]. cbn [fst snd] in *.
  pose proof (Zdigits2_le (Zpos b) (Zpos a + Zpos b) ltac:(lia)) as Hl.
  change (Zpos a + Zpos b) with (Zpos (a + b)) in Hl.
  cbn [Zdigits2] in Hl.
  apply at_least_round; [assumption|]. unfold ez in *. lia.
Qed.

Lemma at_least_add_l (k : Z) (x y : F64.float) :
  -1021 <= k -> at_least k x -> F64.nonneg y = true ->
  at_least k (F64.add x y).
Proof.
  intros Hk.
  destruct x as [[|]|[|]| |[|] mx ex]; cbn [at_least]; try contradiction;
    destruct y as [[|]|[|]| |[|] my ey]; try discriminate;
    intros Hx _; try exact I; try exact Hx.
  unfold F64.add, SFadd, cond_Zopp, binary_normalize.
  change (Zpos ?a + Zpos ?b) with (Zpos (a + b)).
  set (ez := Z.min ex ey).
  pose proof (shl_align_facts mx ex ez) as Ha.
  pose proof (shl_align_facts my ey ez) as Hb. cbv zeta in Ha, Hb.
  destruct (shl_align mx ex ez) as [a ea].
  destruct (shl_align my ey ez) as [b eb]. cbn [fst snd] in *.
  pose proof (Zdigits2_le (Zpos a) (Zpos a + Zpos b) ltac:(lia)) as Hl.
  change (Zpos a + Zpos b) with (Zpos (a + b)) in Hl.
  cbn [Zdigits2] in Hl.
  apply at_least_round; [assumption|]. unfold ez in *. lia.
Qed.

Lemma at_least_mul (kx ky : Z) (x y : F64.float) :
  -1021 <= kx + ky - 1 -> at_least kx x -> at_least ky y ->
  at_least (kx + ky - 1) (F64.mul x y).
Proof.
  intros Hk.
  destruct x as [[|]|[|]| |[|] mx ex]; cbn [at_least]; try contradiction;
    destruct y as [[|]|[|]| |[|] my ey]; cbn [at_least];
    try contradiction; intros Hx Hy; try exact I.
  unfold F64.mul, SFmul. cbn [xorb].
  pose proof (Zdigits2_mul mx my) as Hd.
  apply at_least_round_aux; [lia | assumption |]. cbn [Zdigits2]. lia.
Qed.

(** [float(n)] is at least as large as the bit length of [n] says. *)
Lemma at_least_of_nat (n : nat) :
  (1 <= n)%nat -> at_least (Zdigits2 (Z.of_nat n)) (F64.of_nat n).
Proof.
  intros Hn. unfold F64.of_nat, binary_normalize.
  destruct (Z.of_nat n) as [|p|p] eqn:E; [lia| |lia].
  cbn [Zdigits2]. apply at_least_round; lia.
Qed.

Lemma at_least_fold_add (k : Z) (l : list F64.float) (x : F64.float) :
  -1021 <= k -> at_least k x ->
  Forall (fun y => F64.nonneg y = true) l ->
  at_least k (fold_left F64.add l x).
Proof.
  intros Hk Hx Hl. revert x Hx.
  induction Hl as [|y l Hy Hl IH]; intros x Hx; cbn [fold_left];
    [assumption|].
  apply IH. now apply at_least_add_l.
Qed.

(** A sum of scores is at least as large as each of its terms. *)
Lemma at_least_fold_add_In (k : Z) (l : list F64.float) (x w : F64.float) :
  -1021 <= k -> F64.nonneg x = true ->
  Forall (fun y => F64.nonneg y = true) l ->
  In w l -> at_least k w ->
  at_least k (fold_left F64.add l x).
Proof.
  intros Hk Hx Hl. revert x Hx.
  induction Hl as [|y l Hy Hl IH]; intros x Hx Hin Hw; [contradiction|].
  cbn [fold_left]. destruct Hin as [-> | Hin].
  - apply at_least_fold_add; [assumption | | assumption].
    now apply at_least_add_r.
  - apply IH; [now apply nonneg_add | assumption | assumption].
Qed.

End Binary64Bounds.

(* ================================================================== *)
(** * The agent suggester: who is listed, and with what confidence *)

Lemma nonneg_reciprocal (c : nat) :
  1 <= c -> F64.nonneg (F64.div F64.one (F64.of_nat c)) = true.
Proof.
  intros Hc. pose proof (reciprocal_facts c Hc) as H.
  destruct (F64.div F64.one (F64.of_nat c)) as [[|]|[|]| |[|] m e];
    try reflexivity; contradiction.
Qed.

(** The weight of a trigger of one word or more is at least 1, and at
    least 2 when the trigger has two words or is counted once. *)
Lemma trigger_weight_at_least (U : Unicode.database)
      (AGENTS : Dict.t AgentInfo) (t : string) :
  1 <= List.length (Unicode.split U t) ->
  at_least 1 (trigger_weight U (trigger_agent_count AGENTS) t)
  /\ (2 <= List.length (Unicode.split U t)
      \/ Dict.get_default (trigger_agent_count AGENTS) t 1 = 1 ->
      at_least 2 (trigger_weight U (trigger_agent_count AGENTS) t)).
Proof.
  intros Hw. unfold trigger_weight. cbv zeta.
  pose proof (trigger_count_pos AGENTS t) as Hc.
  set (c := Dict.get_default (trigger_agent_count AGENTS) t 1) in *.
  set (base := List.length (Unicode.split U t)) in *.
  assert (H1 : at_least 1 F64.one) by (cbn; lia).
  assert (HA : at_least 1 (F64.add F64.one (F64.div F64.one (F64.of_nat c)))).
  { apply at_least_add_l; [lia | exact H1 | now apply nonneg_reciprocal]. }
  pose proof (at_least_of_nat base Hw) as HB.
  assert (Hd1 : (1 <= Zdigits2 (Z.of_nat base))%Z).
  { pose proof (Zdigits2_pos_iff (Z.of_nat base) ltac:(lia)). lia. }
  split.
  - apply (at_least_weaken (Zdigits2 (Z.of_nat base) + 1 - 1)); [lia|].
    apply at_least_mul; [lia | exact HB | exact HA].
  - intros [H2 | E].
    + assert (Hd2 : (2 <= Zdigits2 (Z.of_nat base))%Z).
      { change 2%Z with (Zdigits2 2). apply Zdigits2_le. lia. }
      apply (at_least_weaken (Zdigits2 (Z.of_nat base) + 1 - 1)); [lia|].
      apply at_least_mul; [lia | exact HB | exact HA].
    + rewrite E.
      change (F64.add F64.one (F64.div F64.one (F64.of_nat 1)))
        with F64.two.
      assert (H2 : at_least 2 F64.two) by (cbn; lia).
      apply (at_least_weaken (Zdigits2 (Z.of_nat base) + 2 - 1)); [lia|].
      apply at_least_mul; [lia | exact HB | exact H2].
Qed.

(** A trigger that [split] leaves without a word weighs nothing. *)
Lemma trigger_weight_zero (U : Unicode.database)
      (AGENTS : Dict.t AgentInfo) (t : string) :
  List.length (Unicode.split U t) = 0 ->
  trigger_weight U (trigger_agent_count AGENTS) t = F64.zero.
Proof.
  intros E. unfold trigger_weight. cbv zeta. rewrite E.
  pose proof (weight_in_range _ (trigger_count_pos AGENTS t)) as H.
  destruct (F64.add F64.one _) as [[|]|[|]| |[|] m e];
    cbn [F64.in_range] in H; try contradiction.
  reflexivity.
Qed.

Lemma fold_add_zero (l : list F64.float) :
  Forall (fun y => y = F64.zero) l -> fold_left F64.add l F64.zero = F64.zero.
Proof.
  induction 1 as [|y l -> _ IH]; [reflexivity | exact IH].
Qed.

Lemma counted_score_at_least (U : Unicode.database)
      (AGENTS : Dict.t AgentInfo) (text : string)
      (info : AgentInfo) (t : string) (k : Z) :
  (-1021 <= k)%Z ->
  In t (agent_triggers info) -> trigger_occurs U text t = true ->
  at_least k (trigger_weight U (trigger_agent_count AGENTS) t) ->
  at_least k (counted_score U (trigger_agent_count AGENTS) text info).
Proof.
  intros Hk Hin Hocc Hw. unfold counted_score. cbv zeta.
  assert (Hs : at_least k
                 (fold_left F64.add
                    (map (trigger_weight U (trigger_agent_count AGENTS))
                         (filter (trigger_occurs U text) (agent_triggers info)))
                    F64.zero)).
  { apply (at_least_fold_add_In
             k _ F64.zero
             (trigger_weight U (trigger_agent_count AGENTS) t) Hk eq_refl);
      [| |exact Hw].
    - apply Forall_forall. intros w Hin'.
      apply in_map_iff in Hin' as (t' & <- & _).
      apply nonneg_trigger_weight.
    - apply in_map. apply filter_In. now split. }
  destruct (description_bonus U text info); [|exact Hs].
  now apply at_least_add_l.
Qed.

Lemma existsb_pointwise {A : Type} (f g : A -> bool) (l : list A) :
  (forall x, f x = g x) -> existsb f l = existsb g l.
Proof.
  intros H. induction l as [|x l IH]; cbn; [reflexivity|].
  now rewrite H, IH.
Qed.

(** The test that decides whether an agent is listed. *)
Lemma counted_score_positive (U : Unicode.database)
      (AGENTS : Dict.t AgentInfo) (text : string)
      (info : AgentInfo) :
  F64.ltb F64.zero (counted_score U (trigger_agent_count AGENTS) text info)
  = existsb (fun t => trigger_occurs U text t
                      && (1 <=? List.length (Unicode.split U t)))
            (agent_triggers info)
    || description_bonus U text info.
Proof.
  destruct (existsb _ (agent_triggers info)) eqn:Et; cbn [orb].
  - apply existsb_exists in Et as (t & Hin & Ht).
    apply andb_prop in Ht as [Hocc Hw]. apply Nat.leb_le in Hw.
    apply (at_least_positive 1).
    apply (counted_score_at_least U AGENTS text info t 1);
      [lia | exact Hin | exact Hocc |].
    now apply trigger_weight_at_least.
  - unfold counted_score. cbv zeta.
    assert (Hs : fold_left F64.add
                   (map (trigger_weight U (trigger_agent_count AGENTS))
                        (filter (trigger_occurs U text) (agent_triggers info)))
                   F64.zero = F64.zero).
    { apply fold_add_zero, Forall_forall. intros w Hin.
      apply in_map_iff in Hin as (t & <- & Hin).
      apply filter_In in Hin as [Hin Hocc].
      apply trigger_weight_zero.
      destruct (existsb_exists
                  (fun t => trigger_occurs U text t
                            && (1 <=? List.length (Unicode.split U t)))
                  (agent_triggers info)) as [_ Hex].
      destruct (List.length (Unicode.split U t)) eqn:El; [reflexivity|].
      rewrite Hex in Et; [discriminate|]. exists t. split; [exact Hin|].
      rewrite Hocc, El. reflexivity. }
    rewrite Hs. destruct (description_bonus U text info); reflexivity.
Qed.

(** X8.  Whatever the Unicode database, [suggest_agent] lists an agent
    exactly when one of its triggers of at least one word matches, or a
    token of more than three characters occurs in its lower-cased
    description.  A matched trigger that [split] leaves without a word
    adds nothing: an agent with no other hit scores [0.0] and is not
    listed. *)
Theorem agent_listing_criterion :
  forall (U : Unicode.database) (REGISTRY : Dict.t AgentInfo)
         (text key : string) (info : AgentInfo),
    In (key, info) REGISTRY ->
    let task_lower := Unicode.lower U text in
    let task_words := Py.set (Unicode.findall_words U task_lower) in
    let result :=
      score_agent U (trigger_agent_count REGISTRY) task_lower task_words info in
    let hit :=
      existsb (fun trigger =>
                 trigger_matched U task_lower task_words trigger
                 && (1 <=? List.length (Unicode.split U trigger)))
              (agent_triggers info)
      || description_hit U task_words (agent_description info) in
    F64.ltb F64.zero (fst result) = hit
    /\ (In (mkAgentMatch key (agent_name info) (agent_description info)
                         (agent_model info) (fst result) (snd result))
           (ranked_agents U REGISTRY text)
        <-> hit = true)
    /\ (hit = false -> fst result = F64.zero).
Proof.
  intros U REGISTRY text key info Hin task_lower task_words result hit.
  assert (Er : result
               = (counted_score U (trigger_agent_count REGISTRY) text info,
                  filter (trigger_occurs U text) (agent_triggers info)))
    by apply score_agent_counted.
  assert (Eh : hit
               = existsb (fun t => trigger_occurs U text t
                                   && (1 <=? List.length (Unicode.split U t)))
                         (agent_triggers info)
                 || description_bonus U text info).
  { unfold hit. f_equal; [|apply description_hit_bonus].
    apply existsb_pointwise. intros t. f_equal. apply trigger_matched_occurs. }
  pose proof (counted_score_positive U REGISTRY text info) as Hp.
  rewrite Er, Eh. cbn [fst snd]. split; [exact Hp | split].
  - rewrite <- Hp. split.
    + intros Hm.
      apply (Permutation_in _ (ranked_agents_perm U REGISTRY text)) in Hm.
      apply agent_matches_In in Hm as (item & _ & Hpos & E).
      apply (f_equal am_score) in E. cbn [am_score counted_match] in E.
      now rewrite E.
    + intros Hpos.
      apply (Permutation_in _ (Permutation_sym
                                 (ranked_agents_perm U REGISTRY text))).
      apply agent_matches_In. exists (key, info). now repeat split.
  - intros Hf. rewrite <- Hp in Hf.
    pose proof (nonneg_counted_score U REGISTRY text info) as Hn.
    destruct (counted_score U (trigger_agent_count REGISTRY) text info)
      as [[|]|[|]| |[|] m e]; try discriminate; reflexivity.
Qed.

(** In the source's registry: "review the architecture" lists the code
    reviewer, "tune the parallax" does not. *)
Lemma agent_listing_criterion_witness :
  let U := Unicode.ASCII in
  (exists m,
      In m (ranked_agents U AGENTS "review the architecture")
      /\ am_agent m = "code-reviewer-game-dev")
  /\ fst (score_agent U (trigger_agent_count AGENTS) "tune the parallax"
                      (Py.set (Unicode.findall_words U "tune the parallax"))
                      (snd (agent_entry AGENTS "code-reviewer-game-dev")))
     = F64.zero.
Proof.
  intros U.
  pose (info := snd (agent_entry AGENTS "code-reviewer-game-dev")).
  assert (Hin : In ("code-reviewer-game-dev", info) AGENTS).
  { apply dict_get_Some_In. vm_compute. reflexivity. }
  split.
  - destruct (agent_listing_criterion
                U AGENTS "review the architecture" "code-reviewer-game-dev"
                info Hin) as (_ & H & _).
    eexists. split; [apply (proj2 H); vm_compute; reflexivity|].
    reflexivity.
  - destruct (agent_listing_criterion
                U AGENTS "tune the parallax" "code-reviewer-game-dev"
                info Hin) as (_ & _ & H).
    apply H. vm_compute. reflexivity.
Defined.

Lemma confidence_not_none (top : F64.float) :
  F64.leb F64.one top = true -> confidence_of top <> "none".
Proof.
  intros H. unfold confidence_of.
  destruct (F64.leb F64.four top); [discriminate|].
  destruct (F64.leb F64.two top); [discriminate|].
  rewrite H. discriminate.
Qed.

Lemma confidence_invokes (top : F64.float) :
  F64.leb F64.two top = true ->
  Py.mem (confidence_of top) ["high"; "medium"] = true.
Proof.
  intros H. unfold confidence_of.
  destruct (F64.leb F64.four top); [reflexivity|].
  rewrite H. reflexivity.
Qed.

Lemma top_score_at_least (U : Unicode.database)
      (AGENTS : Dict.t AgentInfo) (text : string)
      (m : AgentMatch) (k : Z) :
  In m (ranked_agents U AGENTS text) -> at_least k (am_score m) ->
  F64.leb (power_of_two k) (top_score_of (ranked_agents U AGENTS text)) = true.
Proof.
  intros Hin Hk.
  apply (f64_leb_trans _ (am_score m));
    [reflexivity | now apply (at_least_nonneg k) | apply top_score_nonneg
     | now apply at_least_leb | now apply top_score_max].
Qed.

(** X9.  Whatever the Unicode database, a matched trigger of at least
    one word gives its agent a score of 1 or more, so the confidence is
    never "none" and an agent is recommended.  When the trigger has two words or more, or was counted
    once over the whole registry, the score is 2 or more and
    [should_invoke] is true. *)
Theorem trigger_hit_confidence :
  forall (U : Unicode.database) (REGISTRY : Dict.t AgentInfo)
         (text key : string) (info : AgentInfo) (trigger : string),
    In (key, info) REGISTRY ->
    In trigger (agent_triggers info) ->
    1 <= List.length (Unicode.split U trigger) ->
    let task_lower := Unicode.lower U text in
    let task_words := Py.set (Unicode.findall_words U task_lower) in
    let counts := trigger_agent_count REGISTRY in
    let r := suggest_agent U REGISTRY text in
    trigger_matched U task_lower task_words trigger = true ->
    (F64.leb F64.one (fst (score_agent U counts task_lower task_words info))
     = true
     /\ ar_confidence r <> "none"
     /\ ar_recommendation r <> None)
    /\ (2 <= List.length (Unicode.split U trigger)
        \/ Dict.get_default counts trigger 1 = 1 ->
        F64.leb F64.two (fst (score_agent U counts task_lower task_words info))
        = true
        /\ ar_should_invoke r = true).
Proof.
  intros U REGISTRY text key info trigger Hin Ht Hw
         task_lower task_words counts r Hm.
  unfold task_lower, task_words, counts in *.
  change (Py.set (Unicode.findall_words U (Unicode.lower U text)))
    with (task_words_of U (Unicode.lower U text)) in *.
  rewrite trigger_matched_occurs in Hm. rewrite score_agent_counted.
  cbn [fst].
  destruct (trigger_weight_at_least U REGISTRY trigger Hw) as [W1 W2].
  set (m := counted_match U (trigger_agent_count REGISTRY) text (key, info)).
  assert (Hs : forall k, (-1021 <= k)%Z ->
                         at_least k (trigger_weight U
                                       (trigger_agent_count REGISTRY) trigger)
                         -> at_least k (am_score m)).
  { intros k Hk Hwk. unfold m. cbn [counted_match am_score snd].
    now apply (counted_score_at_least U REGISTRY text info trigger k). }
  assert (Hr : In m (ranked_agents U REGISTRY text)).
  { apply (Permutation_in _ (Permutation_sym
                               (ranked_agents_perm U REGISTRY text))).
    apply agent_matches_In. exists (key, info).
    repeat split; [exact Hin|]. cbn [snd].
    apply (at_least_positive 1). now apply (Hs 1%Z). }
  split; [split; [|split]|].
  - change F64.one with (power_of_two 1).
    apply at_least_leb. now apply (Hs 1%Z).
  - unfold r, suggest_agent. cbn [ar_confidence].
    apply confidence_not_none. change F64.one with (power_of_two 1).
    apply (top_score_at_least U REGISTRY text m 1 Hr). now apply (Hs 1%Z).
  - unfold r, suggest_agent. cbn [ar_recommendation].
    destruct (ranked_agents U REGISTRY text); [contradiction | discriminate].
  - intros Hu. specialize (W2 Hu). split.
    + change F64.two with (power_of_two 2).
      apply at_least_leb. now apply (Hs 2%Z).
    + unfold r, suggest_agent. cbn [ar_should_invoke].
      apply confidence_invokes. change F64.two with (power_of_two 2).
      apply (top_score_at_least U REGISTRY text m 2 Hr). now apply (Hs 2%Z).
Qed.

(** The trigger "sprite" of the source's registry is counted once. *)
Lemma trigger_hit_confidence_witness :
  let U := Unicode.ASCII in
  ar_confidence (suggest_agent U AGENTS "rename a sprite") <> "none"
  /\ ar_should_invoke (suggest_agent U AGENTS "rename a sprite") = true.
Proof.
  intros U.
  pose (info := snd (agent_entry AGENTS "sprite-2d-artist")).
  assert (Hin : In ("sprite-2d-artist", info) AGENTS).
  { apply dict_get_Some_In. vm_compute. reflexivity. }
  assert (Ht : In "sprite" (agent_triggers info)).
  { apply mem_In. vm_compute. reflexivity. }
  assert (Hw : 1 <= List.length (Unicode.split U "sprite"))
    by (vm_compute; lia).
  assert (Hm : trigger_matched
                 U (Unicode.lower U "rename a sprite")
                 (Py.set (Unicode.findall_words
                            U (Unicode.lower U "rename a sprite")))
                 "sprite" = true)
    by (vm_compute; reflexivity).
  destruct (trigger_hit_confidence
              U AGENTS "rename a sprite" "sprite-2d-artist" info "sprite"
              Hin Ht Hw Hm) as ((_ & Hc & _) & Hi).
  split; [exact Hc|]. apply Hi. right. vm_compute. reflexivity.
Defined.

Lemma sort_desc_constant {A K : Type} (key : A -> K) (ltb : K -> K -> bool)
      (k : K) (l : list A) :
  (forall x, In x l -> key x = k) -> ltb k k = false ->
  Py.sort_desc key ltb l = l.
Proof.
  intros Hk Hlt. induction l as [|x l IH]; [reflexivity|].
  change (Py.sort_desc key ltb (x :: l))
    with (Py.insert_desc key ltb x (Py.sort_desc key ltb l)).
  rewrite IH by (intros y Hy; apply Hk; now right).
  destruct l as [|y l']; [reflexivity|]. cbn [Py.insert_desc].
  rewrite (Hk x (or_introl eq_refl)).
  rewrite (Hk y (or_intror (or_introl eq_refl))). now rewrite Hlt.
Qed.

(** X10.  Whatever the Unicode database: when no trigger of the
    registry matches, the agents whose description holds a token of the
    text (of more than three characters) are still listed, each with the
    score 0.5, in registry order.  The first of them is recommended
    although the confidence is "none" and [should_invoke] is false, and
    as soon as two are listed the result carries the tie note naming all
    of them, also those beyond the three that are returned. *)
Theorem description_only_suggestion :
  forall (U : Unicode.database) (REGISTRY : Dict.t AgentInfo) (text : string),
    let task_lower := Unicode.lower U text in
    let task_words := Py.set (Unicode.findall_words U task_lower) in
    let r := suggest_agent U REGISTRY text in
    let hits :=
      filter (fun item =>
                description_hit U task_words (agent_description (snd item)))
             REGISTRY in
    (forall key info trigger,
        In (key, info) REGISTRY -> In trigger (agent_triggers info) ->
        trigger_matched U task_lower task_words trigger = false) ->
    ranked_agents U REGISTRY text
    = map (fun item =>
             mkAgentMatch (fst item) (agent_name (snd item))
                          (agent_description (snd item))
                          (agent_model (snd item)) F64.half [])
          hits
    /\ ar_recommendation r = option_map fst (head hits)
    /\ ar_confidence r = "none"
    /\ ar_should_invoke r = false
    /\ (2 <= List.length hits ->
        ar_disambiguation r
        = Some ("Tied between " ++ comma_separated (map fst hits)
                ++ ". Check which files you're modifying to decide."
               )%string)
    /\ (List.length hits < 2 -> ar_disambiguation r = None).
Proof.
  intros U REGISTRY text task_lower task_words r hits Hno.
  set (entry := fun item : string * AgentInfo =>
                  mkAgentMatch (fst item) (agent_name (snd item))
                               (agent_description (snd item))
                               (agent_model (snd item)) F64.half []).
  assert (Hnone : forall item,
             In item REGISTRY ->
             filter (trigger_occurs U text) (agent_triggers (snd item)) = []).
  { intros [key info] Hin. apply filter_none. intros t Ht.
    rewrite <- trigger_matched_occurs. exact (Hno key info t Hin Ht). }
  assert (Hscore : forall item,
             In item REGISTRY ->
             counted_score U (trigger_agent_count REGISTRY) text (snd item)
             = if description_bonus U text (snd item)
               then F64.half else F64.zero).
  { intros item Hin. unfold counted_score. cbv zeta.
    rewrite (Hnone item Hin). cbn [map fold_left].
    destruct (description_bonus U text (snd item)); reflexivity. }
  assert (Hm : agent_matches U REGISTRY text = map entry hits).
  { rewrite agent_matches_spec. cbv zeta. unfold hits.
    rewrite (filter_ext_in
               (fun item => F64.ltb F64.zero
                              (counted_score U (trigger_agent_count REGISTRY)
                                             text (snd item)))
               (fun item => description_hit U task_words
                              (agent_description (snd item)))).
    - apply map_ext_in. intros item Hin.
      apply filter_In in Hin as [Hin Hd].
      unfold counted_match, entry. rewrite (Hscore item Hin).
      rewrite (Hnone item Hin).
      unfold task_words, task_lower in Hd.
      change (Py.set (Unicode.findall_words U (Unicode.lower U text)))
        with (task_words_of U (Unicode.lower U text)) in Hd.
      rewrite description_hit_bonus in Hd. now rewrite Hd.
    - intros item Hin. rewrite (Hscore item Hin).
      unfold task_words, task_lower.
      change (Py.set (Unicode.findall_words U (Unicode.lower U text)))
        with (task_words_of U (Unicode.lower U text)).
      rewrite description_hit_bonus.
      destruct (description_bonus U text (snd item)); reflexivity. }
  assert (Hr : ranked_agents U REGISTRY text = map entry hits).
  { unfold ranked_agents. rewrite Hm.
    apply (sort_desc_constant am_score F64.ltb F64.half);
      [|reflexivity].
    intros m Hin. apply in_map_iff in Hin as (item & <- & _). reflexivity. }
  split; [exact Hr|].
  unfold r, suggest_agent. rewrite Hr.
  cbn [ar_recommendation ar_confidence ar_should_invoke ar_disambiguation].
  destruct hits as [|h0 [|h1 hs]] eqn:Eh; cbn [map head option_map];
    (split; [reflexivity|]); (split; [reflexivity|]);
    (split; [reflexivity|]); split; cbn [List.length]; try lia;
    try reflexivity.
  intros _. rewrite <- join_comma_separated.
  cbn [disambiguation_of entry am_score].
  change (F64.eqb F64.half F64.half) with true. cbv beta iota.
  unfold disambiguation_note, tied_agents. do 3 f_equal.
  rewrite (filter_ext_in _ (fun _ => true)).
  - rewrite filter_all. cbn [map]. rewrite map_map. reflexivity.
  - intros m Hin.
    change (top_score_of (entry h0 :: entry h1 :: map entry hs))
      with F64.half.
    cbn [In] in Hin.
    destruct Hin as [<- | [<- | Hin]]; try reflexivity.
    apply in_map_iff in Hin as (item & <- & _). reflexivity.
Qed.

(** No trigger of the source's registry matches "specialist", a word of
    eleven descriptions: the note names all eleven agents. *)
Lemma description_only_suggestion_witness :
  let U := Unicode.ASCII in
  ar_recommendation (suggest_agent U AGENTS "specialist")
  = Some "coordinate-wizard"
  /\ ar_confidence (suggest_agent U AGENTS "specialist") = "none"
  /\ ar_should_invoke (suggest_agent U AGENTS "specialist") = false
  /\ List.length (ranked_agents U AGENTS "specialist") = 11
  /\ ar_disambiguation (suggest_agent U AGENTS "specialist")
     = Some "Tied between coordinate-wizard, ecs-component-designer, sprite-2d-artist, model-3d-artist, debugger, dungeon-tester, network-protocol-designer, ability-designer, shader-wizard, audio-designer, level-designer. Check which files you're modifying to decide.".
Proof.
  intros U.
  pose (task_lower := Unicode.lower U "specialist").
  pose (task_words := Py.set (Unicode.findall_words U task_lower)).
  assert (Hno : forall key info trigger,
             In (key, info) AGENTS -> In trigger (agent_triggers info) ->
             trigger_matched U task_lower task_words trigger = false).
  { assert (Hall : forallb
                     (fun item =>
                        forallb (fun t =>
                                   negb (trigger_matched U task_lower
                                                         task_words t))
                                (agent_triggers (snd item)))
                     AGENTS = true) by (vm_compute; reflexivity).
    intros key info trigger Hin Ht. rewrite forallb_forall in Hall.
    specialize (Hall (key, info) Hin). cbn [snd] in Hall.
    rewrite forallb_forall in Hall. now apply negb_true_iff, Hall. }
  destruct (description_only_suggestion U AGENTS "specialist" Hno)
    as (Hr & Hrec & Hc & Hi & Hd & _).
  split; [|split; [exact Hc | split; [exact Hi | split]]].
  - rewrite Hrec. vm_compute. reflexivity.
  - rewrite Hr. vm_compute. reflexivity.
  - rewrite Hd; [vm_compute; reflexivity|]. vm_compute. lia.
Defined.

(* ================================================================== *)
(** * What the results of the tools have in common *)

(** X11.  Whatever the Unicode database, the result of [suggest_agent]
    hangs together: at most three
    agents are suggested, the recommendation is the first of them,
    [should_invoke] is never true without a recommendation, and a tie
    note is given only when two agents or more are suggested.  Every
    suggested agent is an entry of [list_agents] with the same name,
    description and model, and its matched triggers are among the
    triggers listed there.  When the keys of the registry are distinct,
    no agent is ranked twice. *)
Theorem suggest_agent_coherent :
  forall (U : Unicode.database) (REGISTRY : Dict.t AgentInfo)
         (text : string),
    let r := suggest_agent U REGISTRY text in
    List.length (ar_suggested_agents r) <= 3
    /\ ar_recommendation r
       = option_map am_agent (head (ar_suggested_agents r))
    /\ (ar_should_invoke r = true -> ar_recommendation r <> None)
    /\ (ar_disambiguation r <> None ->
        2 <= List.length (ar_suggested_agents r))
    /\ (forall m,
           In m (ar_suggested_agents r) ->
           exists summary,
             In (am_agent m, summary) (list_agents REGISTRY)
             /\ am_name m = as_name summary
             /\ am_description m = as_description summary
             /\ am_model m = as_model summary
             /\ incl (am_matched_triggers m) (as_triggers summary))
    /\ (NoDup (Dict.keys REGISTRY) ->
        NoDup (map am_agent (ranked_agents U REGISTRY text))).
Proof.
  intros U REGISTRY text r. unfold r, suggest_agent.
  cbn [ar_suggested_agents ar_recommendation ar_should_invoke
       ar_disambiguation].
  split; [apply firstn_le_length|].
  split; [destruct (ranked_agents U REGISTRY text); reflexivity|].
  split.
  { destruct (ranked_agents U REGISTRY text); [|discriminate].
    cbn. discriminate. }
  split.
  { destruct (ranked_agents U REGISTRY text) as [|m0 [|m1 ms]];
      cbn [disambiguation_of]; try congruence. intros _. cbn. lia. }
  split.
  - intros m Hm. apply In_firstn in Hm.
    apply (Permutation_in _ (ranked_agents_perm U REGISTRY text)) in Hm.
    apply agent_matches_In in Hm as ([key info] & Hin & _ & ->).
    exists (mkAgentSummary (agent_name info) (agent_description info)
                           (agent_model info) (agent_triggers info)).
    cbn [counted_match am_agent am_name am_description am_model
         am_matched_triggers as_name as_description as_model as_triggers
         fst snd].
    repeat split.
    + unfold list_agents. apply in_map_iff. now exists (key, info).
    + intros t Ht. now apply filter_In in Ht.
  - intros Hnd.
    apply (Permutation_NoDup
             (Permutation_sym
                (Permutation_map am_agent
                                 (ranked_agents_perm U REGISTRY text)))).
    rewrite agent_matches_spec. cbv zeta. rewrite map_map.
    cbn [counted_match am_agent]. now apply NoDup_map_filter.
Qed.

(** X12.  Every subsystem [find_relevant_context] returns is an entry of
    [list_subsystems] with the same name; its matched keywords are among
    the keywords listed there; [get_files_for_subsystem] knows its key;
    and when the keys of the index are distinct no subsystem is ranked
    twice. *)
Theorem relevant_subsystems_listed :
  forall (INDEX : Dict.t SubsystemInfo) (text : string),
    (forall m,
        In m (cr_relevant_subsystems (find_relevant_context INDEX text)) ->
        (exists summary,
            In (sm_subsystem m, summary) (list_subsystems INDEX)
            /\ sm_name m = sum_name summary
            /\ incl (sm_matched_keywords m) (sum_keywords summary)
            /\ sm_score m <= List.length (sm_matched_keywords m) + 2)
        /\ exists name description files,
            get_files_for_subsystem INDEX (sm_subsystem m)
            = FilesFound (sm_subsystem m) name description files)
    /\ (NoDup (Dict.keys INDEX) ->
        NoDup (map sm_subsystem (ranked_subsystems INDEX text))).
Proof.
  intros INDEX text. split.
  - intros m Hm. unfold find_relevant_context in Hm.
    cbn [cr_relevant_subsystems] in Hm. apply In_firstn in Hm.
    apply ranked_subsystems_In in Hm as ([key info] & Hin & _ & ->).
    cbn [subsystem_match sm_subsystem sm_name sm_matched_keywords sm_score
         fst snd].
    split.
    + exists (mkSummary (sub_name info) (sub_description info)
                        (sub_keywords info)).
      cbn [sum_name sum_keywords]. repeat split.
      * unfold list_subsystems. apply in_map_iff. now exists (key, info).
      * intros k Hk. unfold keyword_hits in Hk. now apply filter_In in Hk.
      * unfold relevance_score, name_bonus.
        destruct (Py.str_in _ _); lia.
    + unfold get_files_for_subsystem.
      destruct (Dict.get INDEX key) as [info'|] eqn:E; [eauto|].
      exfalso. apply (proj1 (dict_get_None INDEX key) E).
      unfold Dict.keys. change key with (fst (key, info)).
      now apply in_map.
  - intros Hnd.
    apply (Permutation_NoDup
             (Permutation_sym
                (Permutation_map sm_subsystem
                                 (ranked_subsystems_perm INDEX text)))).
    rewrite subsystem_matches_spec, map_map.
    cbn [subsystem_match sm_subsystem]. now apply NoDup_map_filter.
Qed.

(* ================================================================== *)
(** * ASCII text does not consult the database *)

Lemma fold_left_ext_in {A B : Type} (f g : A -> B -> A) (l : list B) :
  (forall a x, In x l -> f a x = g a x) ->
  forall a, fold_left f l a = fold_left g l a.
Proof.
  induction l as [|x l IH]; intros H a; [reflexivity|]. cbn [fold_left].
  rewrite (H a x (or_introl eq_refl)). apply IH.
  intros a' y Hy. apply H. now right.
Qed.

Lemma ascii_not_continuation (c : ascii) :
  (nat_of_ascii c <? 128) = true -> Unicode.is_continuation c = false.
Proof.
  unfold Unicode.is_continuation. intros H. apply Nat.ltb_lt in H.
  destruct (Nat.leb_spec 128 (nat_of_ascii c)); [lia | reflexivity].
Qed.

Lemma chars_from_ascii (s cur : string) :
  is_ascii s = true ->
  Unicode.chars_from s cur
  = Py.flush cur
      ++ map (fun c => String c EmptyString) (list_ascii_of_string s).
Proof.
  unfold is_ascii. revert cur. induction s as [|c s IH]; intros cur H.
  - cbn. now rewrite app_nil_r.
  - cbn in H. apply andb_prop in H as [Hc Hs].
    cbn [Unicode.chars_from list_ascii_of_string map].
    rewrite (ascii_not_continuation c Hc), (IH _ Hs). reflexivity.
Qed.

(** The characters of ASCII text are its bytes. *)
Lemma chars_ascii (s : string) :
  is_ascii s = true ->
  Unicode.chars s = map (fun c => String c EmptyString)
                        (list_ascii_of_string s).
Proof. intros H. unfold Unicode.chars. now rewrite chars_from_ascii. Qed.

Lemma runs_ext_in (p q : string -> bool) (cs : list string) (cur : string) :
  (forall c, In c cs -> p c = q c) ->
  Unicode.runs p cs cur = Unicode.runs q cs cur.
Proof.
  revert cur. induction cs as [|c cs IH]; intros cur H; [reflexivity|].
  cbn [Unicode.runs]. rewrite (H c (or_introl eq_refl)).
  rewrite !IH by (intros c' Hc'; apply H; now right). reflexivity.
Qed.

Lemma ascii_char_in (s c : string) :
  is_ascii s = true -> In c (Unicode.chars s) ->
  exists a, c = String a EmptyString /\ (nat_of_ascii a <? 128) = true.
Proof.
  intros Hs Hc. rewrite (chars_ascii s Hs) in Hc.
  apply in_map_iff in Hc as (a & <- & Ha). exists a. split; [reflexivity|].
  unfold is_ascii in Hs. rewrite forallb_forall in Hs. now apply Hs.
Qed.

Lemma findall_words_ascii (U V : Unicode.database) (s : string) :
  is_ascii s = true ->
  Unicode.findall_words U s = Unicode.findall_words V s.
Proof.
  intros Hs. unfold Unicode.findall_words. apply runs_ext_in.
  intros c Hc. destruct (ascii_char_in s c Hs Hc) as (a & -> & Ha).
  unfold Unicode.is_word. now rewrite Ha.
Qed.

Lemma split_ascii (U V : Unicode.database) (s : string) :
  is_ascii s = true -> Unicode.split U s = Unicode.split V s.
Proof.
  intros Hs. unfold Unicode.split. apply runs_ext_in.
  intros c Hc. destruct (ascii_char_in s c Hs Hc) as (a & -> & Ha).
  unfold Unicode.is_space. now rewrite Ha.
Qed.

Lemma lower_char_ascii (c : ascii) :
  (nat_of_ascii c <? 128) = true ->
  (nat_of_ascii (Py.lower_char c) <? 128) = true.
Proof.
  destruct c as [[] [] [] [] [] [] [] []]; vm_compute; intros H;
    first [reflexivity | discriminate H].
Qed.

Lemma lower_ascii (s : string) :
  is_ascii s = true -> is_ascii (Py.lower s) = true.
Proof.
  unfold is_ascii. induction s as [|c s IH]; [reflexivity|].
  cbn [Py.lower list_ascii_of_string forallb]. intros H.
  apply andb_prop in H as [Hc Hs].
  rewrite (lower_char_ascii c Hc). exact (IH Hs).
Qed.

(** X13.  On ASCII text over a registry of ASCII descriptions and
    triggers, [suggest_agent] does not consult the Unicode database
    beyond its folding of the ASCII letters: every database that
    lower-cases ASCII text as [str.lower()] does gives the result of the
    database cut down to ASCII. *)
Theorem ascii_text_any_database :
  forall (U : Unicode.database) (REGISTRY : Dict.t AgentInfo)
         (text : string),
    folds_ascii U ->
    ascii_registry REGISTRY = true ->
    is_ascii text = true ->
    suggest_agent U REGISTRY text = suggest_agent Unicode.ASCII REGISTRY text.
Proof.
  intros U REGISTRY text Hfold Hreg Htext.
  set (V := Unicode.ASCII).
  assert (Hl : Unicode.lower U text = Unicode.lower V text)
    by (apply Hfold; exact Htext).
  assert (Hla : is_ascii (Unicode.lower V text) = true)
    by (apply lower_ascii; exact Htext).
  assert (Hw : task_words_of U (Unicode.lower V text)
               = task_words_of V (Unicode.lower V text)).
  { unfold task_words_of. f_equal. now apply findall_words_ascii. }
  assert (Hm : agent_matches U REGISTRY text = agent_matches V REGISTRY text).
  { unfold agent_matches. cbv zeta. rewrite Hl, Hw.
    apply fold_left_ext_in. intros matches [key info] Hin.
    unfold ascii_registry in Hreg. rewrite forallb_forall in Hreg.
    specialize (Hreg (key, info) Hin). cbn [snd] in Hreg.
    apply andb_prop in Hreg as [Hd Ht]. rewrite forallb_forall in Ht.
    unfold agent_step.
    assert (Hs : score_agent U (trigger_agent_count REGISTRY)
                             (Unicode.lower V text)
                             (task_words_of V (Unicode.lower V text)) info
                 = score_agent V (trigger_agent_count REGISTRY)
                               (Unicode.lower V text)
                               (task_words_of V (Unicode.lower V text)) info).
    { unfold score_agent.
      rewrite (fold_left_ext_in
                 (trigger_step U (trigger_agent_count REGISTRY)
                               (Unicode.lower V text)
                               (task_words_of V (Unicode.lower V text)))
                 (trigger_step V (trigger_agent_count REGISTRY)
                               (Unicode.lower V text)
                               (task_words_of V (Unicode.lower V text)))).
      - unfold description_hit. now rewrite (Hfold _ Hd).
      - intros [score matched] t Hin'.
        unfold trigger_step, trigger_matched, trigger_weight.
        now rewrite (split_ascii U V t (Ht t Hin')). }
    now rewrite Hs. }
  unfold suggest_agent, ranked_agents. now rewrite Hm.
Qed.

(** The source's registry is ASCII; a database that knows the letter [é]
    gives on "fix the sync issue" what the ASCII database gives. *)
Lemma ascii_text_any_database_witness :
  suggest_agent E_ACUTE AGENTS "fix the sync issue"
  = suggest_agent Unicode.ASCII AGENTS "fix the sync issue"
  /\ ar_recommendation (suggest_agent E_ACUTE AGENTS "fix the sync issue")
     = Some "debugger".
Proof.
  assert (Hf : folds_ascii E_ACUTE) by (intros s _; reflexivity).
  assert (Hr : ascii_registry AGENTS = true) by (vm_compute; reflexivity).
  pose proof (ascii_text_any_database
                E_ACUTE AGENTS "fix the sync issue" Hf Hr eq_refl) as H.
  split; [exact H|]. rewrite H. vm_compute. reflexivity.
Defined.

Lemma lower_char_fixed (c : ascii) :
  Py.is_upper c = false -> Py.lower_char c = c.
Proof.
  destruct c as [[] [] [] [] [] [] [] []]; vm_compute; intros H;
    first [reflexivity | discriminate H].
Qed.

Lemma lower_fixed (s : string) : has_upper s = false -> Py.lower s = s.
Proof.
  unfold has_upper. induction s as [|c s IH]; cbn; [reflexivity|].
  intros H. apply orb_false_elim in H as [Hc Hs].
  now rewrite (lower_char_fixed c Hc), (IH Hs).
Qed.

(** X14.  A keyword of ASCII characters without a capital matches
    wherever it occurs in the text, inside a longer word as well: the
    subsystem is then ranked, with the keyword among its matched
    keywords. *)
Theorem keyword_matches_anywhere :
  forall (INDEX : Dict.t SubsystemInfo) (key : string)
         (info : SubsystemInfo) (keyword before after : string),
    In (key, info) INDEX ->
    In keyword (sub_keywords info) ->
    is_ascii keyword = true ->
    has_upper keyword = false ->
    let text := (before ++ keyword ++ after)%string in
    Py.str_in keyword (Py.lower text) = true
    /\ exists m,
        In m (ranked_subsystems INDEX text)
        /\ sm_subsystem m = key
        /\ In keyword (sm_matched_keywords m)
        /\ 1 <= sm_score m.
Proof.
  intros INDEX key info keyword before after Hin Hk _ Hu text.
  assert (Hs : Py.str_in keyword (Py.lower text) = true).
  { apply str_in_spec. exists (Py.lower before), (Py.lower after).
    unfold text. now rewrite !lower_app, (lower_fixed keyword Hu). }
  split; [exact Hs|].
  assert (Hh : In keyword (keyword_hits text info))
    by (apply filter_In; now split).
  assert (Hpos : 1 <= relevance_score text info).
  { unfold relevance_score.
    destruct (keyword_hits text info); [contradiction | cbn; lia]. }
  exists (subsystem_match text (key, info)). repeat split; try assumption.
  apply ranked_subsystems_In. exists (key, info). now repeat split.
Qed.

(** The keyword "ui" of the source's index occurs in "build". *)
Lemma keyword_matches_anywhere_witness :
  exists m,
    In m (ranked_subsystems SUBSYSTEMS "build")
    /\ sm_subsystem m = "ui"
    /\ In "ui" (sm_matched_keywords m).
Proof.
  pose (info := snd (subsystem_entry SUBSYSTEMS "ui")).
  assert (Hin : In ("ui", info) SUBSYSTEMS)
    by (apply dict_get_Some_In; vm_compute; reflexivity).
  assert (Hk : In "ui" (sub_keywords info))
    by (apply mem_In; vm_compute; reflexivity).
  destruct (keyword_matches_anywhere
              SUBSYSTEMS "ui" info "ui" "b" "ld" Hin Hk eq_refl eq_refl)
    as (_ & m & Hm & Hkey & Hmk & _).
  change ("b" ++ "ui" ++ "ld")%string with "build" in Hm.
  exists m. exact (conj Hm (conj Hkey Hmk)).
Defined.

(* ================================================================== *)
(** * The file map *)

Lemma file_map_bullets (files : list string) (lines : list string) :
  fold_left (fun lines f => lines ++ [file_map_bullet f]) files lines
  = lines ++ map file_map_bullet files.
Proof.
  revert lines. induction files as [|f files IH]; intros lines; cbn.
  - now rewrite app_nil_r.
  - rewrite IH, <- app_assoc. reflexivity.
Qed.

Lemma file_map_loop (INDEX : Dict.t SubsystemInfo) (lines : list string) :
  fold_left file_map_step INDEX lines
  = lines
      ++ flat_map (fun item =>
                     file_map_heading (snd item)
                       :: file_map_caption (snd item)
                       :: map file_map_bullet (sub_files (snd item)))
                  INDEX.
Proof.
  revert lines. induction INDEX as [|[key info] rest IH]; intros lines.
  - cbn. now rewrite app_nil_r.
  - cbn [fold_left flat_map file_map_step snd].
    rewrite file_map_bullets, IH, <- !app_assoc. reflexivity.
Qed.

(** X15.  The file map opens with its title and shows, for every
    subsystem of the index, a heading with its name, its description in
    asterisks, and one bullet for each of its files.  The path of a
    bullet is the path [get_files_for_subsystem] returns for the file
    without the leading [GameProject/src/]. *)
Theorem file_map_complete :
  forall INDEX : Dict.t SubsystemInfo,
    let file_map := get_file_map INDEX in
    (exists rest,
        file_map
        = ("# File Map" ++ line_feed ++ line_feed
           ++ "Key file locations organized by subsystem." ++ line_feed
           ++ rest)%string)
    /\ (forall key info,
           In (key, info) INDEX ->
           Py.str_in (line_feed ++ "## " ++ sub_name info ++ line_feed
                      ++ "*" ++ sub_description info ++ "*" ++ line_feed)
                     file_map = true)
    /\ (forall key name description files,
           get_files_for_subsystem INDEX key
           = FilesFound key name description files ->
           forall path,
             In path files ->
             exists bullet_path,
               path = ("GameProject/src/" ++ bullet_path)%string
               /\ Py.str_in ("- `" ++ bullet_path ++ "`") file_map = true).
Proof.
  intros INDEX file_map. unfold file_map, get_file_map.
  rewrite file_map_loop. unfold file_map_header. cbn [app].
  set (body := flat_map _ INDEX).
  split; [|split].
  - destruct body as [|l ls] eqn:Eb.
    + exists EmptyString. cbn [Py.join].
      rewrite !string_app_assoc, string_app_nil_r. reflexivity.
    + exists (line_feed ++ Py.join line_feed (l :: ls))%string.
      change (Py.join line_feed
                (("# File Map" ++ line_feed)%string
                   :: ("Key file locations organized by subsystem."
                         ++ line_feed)%string :: l :: ls))
        with (("# File Map" ++ line_feed) ++ line_feed
              ++ ("Key file locations organized by subsystem." ++ line_feed)
              ++ line_feed ++ Py.join line_feed (l :: ls))%string.
      rewrite !string_app_assoc. reflexivity.
  - intros key info Hin.
    apply in_split in Hin as (l1 & l2 & ->).
    unfold body. rewrite flat_map_app. cbn [flat_map snd].
    set (pre := flat_map _ l1). set (post := flat_map _ l2).
    apply str_in_spec.
    assert (Hj : forall (xs ys : list string) (a b : string),
               exists u v,
                 Py.join line_feed (xs ++ a :: b :: ys)
                 = (u ++ a ++ line_feed ++ b ++ v)%string).
    { intros xs ys a b. induction xs as [|x xs IHx].
      - destruct ys as [|y ys].
        + exists EmptyString, EmptyString. cbn [app Py.join].
          now rewrite string_app_nil_r.
        + exists EmptyString, (line_feed ++ Py.join line_feed (y :: ys))%string.
          reflexivity.
      - destruct IHx as (u & v & E).
        exists (x ++ line_feed ++ u)%string, v.
        change ((x :: xs) ++ a :: b :: ys) with (x :: (xs ++ a :: b :: ys)).
        destruct (xs ++ a :: b :: ys) as [|z zs] eqn:Ez.
        + destruct xs; discriminate.
        + change (Py.join line_feed (x :: z :: zs))
            with (x ++ line_feed ++ Py.join line_feed (z :: zs))%string.
          rewrite E, !string_app_assoc. reflexivity. }
    destruct (Hj (("# File Map" ++ line_feed)%string
                    :: ("Key file locations organized by subsystem."
                          ++ line_feed)%string :: pre)
                 (map file_map_bullet (sub_files info) ++ post)
                 (file_map_heading info) (file_map_caption info))
      as (u & v & E).
    exists u, v. cbn [app] in E |- *. rewrite E.
    unfold file_map_heading, file_map_caption.
    rewrite !string_app_assoc. reflexivity.
  - intros key name description files Hg path Hp.
    unfold get_files_for_subsystem in Hg.
    destruct (Dict.get INDEX key) as [info|] eqn:Ek; [|discriminate].
    injection Hg as _ _ <-.
    apply in_map_iff in Hp as (f & <- & Hf).
    exists ("GameProject.Engine/" ++ f)%string. split; [reflexivity|].
    apply dict_get_Some_In in Ek.
    change ("- `" ++ ("GameProject.Engine/" ++ f) ++ "`")%string
      with (file_map_bullet f).
    apply str_in_join. right. right. unfold body.
    apply in_flat_map. exists (key, info). split; [exact Ek|].
    right. right. now apply in_map.
Qed.

(** The first file of the subsystem [networking] of the source. *)
Lemma file_map_complete_witness :
  exists files path bullet_path,
    nth_error files 0 = Some path
    /\ path = ("GameProject/src/" ++ bullet_path)%string
    /\ Py.str_in ("- `" ++ bullet_path ++ "`") (get_file_map SUBSYSTEMS)
       = true.
Proof.
  destruct (file_map_complete SUBSYSTEMS) as (_ & _ & H).
  pose (info := snd (subsystem_entry SUBSYSTEMS "networking")).
  pose (files := map full_path (sub_files info)).
  assert (Hg : get_files_for_subsystem SUBSYSTEMS "networking"
               = FilesFound "networking" (sub_name info)
                            (sub_description info) files)
    by (vm_compute; reflexivity).
  assert (Hp : In (nth 0 files EmptyString) files)
    by (vm_compute; left; reflexivity).
  destruct (H _ _ _ _ Hg _ Hp) as (bullet_path & E & Hs).
  exists files, (nth 0 files EmptyString), bullet_path.
  split; [vm_compute; reflexivity | exact (conj E Hs)].
Defined.

(* ================================================================== *)
(** * The listing of the documents and the document resources *)

Lemma string_leb_trans (a b c : string) :
  String.leb a b = true -> String.leb b c = true -> String.leb a c = true.
Proof.
  unfold String.leb. revert b c.
  induction a as [|x a IH]; intros [|y b] [|z c]; cbn [String.compare];
    try (intros; reflexivity); try discriminate.
  unfold Ascii.compare.
  destruct (N.compare_spec (N_of_ascii x) (N_of_ascii y)) as [E1|L1|G1];
    try discriminate;
    destruct (N.compare_spec (N_of_ascii y) (N_of_ascii z)) as [E2|L2|G2];
    try discriminate;
    destruct (N.compare_spec (N_of_ascii x) (N_of_ascii z)) as [E3|L3|G3];
    try lia; try (intros; reflexivity).
  apply IH.
Qed.

Lemma string_ltb_negb_leb (a b : string) :
  String.ltb b a = negb (String.leb a b).
Proof.
  unfold String.ltb, String.leb. rewrite (String.compare_antisym a b).
  destruct (String.compare b a); reflexivity.
Qed.

(** [sorted] is the stable descending sort for the opposite order. *)
Lemma sorted_sort_desc {A K : Type} (key : A -> K) (ltb : K -> K -> bool)
      (l : list A) :
  sorted key ltb l = Py.sort_desc key (fun a b => ltb b a) l.
Proof.
  unfold sorted, Py.sort_desc. induction l as [|x l IH]; [reflexivity|].
  cbn [fold_right]. rewrite IH.
  generalize (fold_right (Py.insert_desc key (fun a b => ltb b a)) [] l)
    as s.
  induction s as [|y s IHs]; [reflexivity|]. cbn [insert_asc Py.insert_desc].
  now rewrite IHs.
Qed.

Lemma context_file_loop (doc_files : list DocFile) (files : list ContextFile) :
  fold_left context_file_step doc_files files
  = files
      ++ map (fun f =>
                mkContextFile (doc_stem f) (doc_relative_path f)
                              (fst (describe_context_file (doc_stem f)))
                              (snd (describe_context_file (doc_stem f))))
             doc_files.
Proof.
  revert files. induction doc_files as [|f rest IH]; intros files; cbn.
  - now rewrite app_nil_r.
  - rewrite IH. unfold context_file_step.
    destruct (describe_context_file (doc_stem f)) as [d u].
    now rewrite <- app_assoc.
Qed.

(** What the chain of comparisons on the stem yields. *)
Lemma describe_context_file_resource (stem description uri : string) :
  describe_context_file stem = (description, Some uri) ->
  description <> EmptyString
  /\ (In uri RESOURCES <-> stem <> "boss-fight-framework").
Proof.
  unfold describe_context_file.
  repeat match goal with
         | |- context [String.eqb stem ?s] =>
             destruct (String.eqb_spec stem s) as [->|?]
         end;
    intros [= <- <-];
    (split; [discriminate|]);
    (split;
     [first [ intros _; discriminate
            | intros H; apply mem_In in H; vm_compute in H; discriminate H ]
     | first [ intros _; apply mem_In; vm_compute; reflexivity
             | intros H; elim H; reflexivity ]]).
Qed.

(** X16.  [get_context_files] reports a missing directory as an error.
    Otherwise it lists every document of the directory once, readable or
    not, in ascending order of the names.  A listed document that
    carries a resource has a description, and its resource is one the
    module registers, except for [boss-fight-framework], whose resource
    is registered nowhere. *)
Theorem context_files_listed :
  get_context_files None = ContextFilesError "Context directory not found"
  /\ forall doc_files : list DocFile,
      exists files,
        get_context_files (Some doc_files)
        = ContextFilesFound ".claude/context" files
        /\ Permutation (map cf_name files) (map doc_stem doc_files)
        /\ (forall f,
               In f doc_files ->
               exists c,
                 In c files
                 /\ cf_name c = doc_stem f
                 /\ cf_path c = doc_relative_path f)
        /\ StronglySorted
             (fun a b => String.leb (cf_name a) (cf_name b) = true) files
        /\ forall c uri,
            In c files ->
            cf_resource_uri c = Some uri ->
            cf_description c <> EmptyString
            /\ (In uri RESOURCES <-> cf_name c <> "boss-fight-framework").
Proof.
  split; [reflexivity|]. intros doc_files.
  unfold get_context_files. eexists. split; [reflexivity|].
  rewrite context_file_loop, sorted_sort_desc. cbn [app].
  set (entry := fun f : DocFile => mkContextFile _ _ _ _).
  set (gt := fun a b : string => String.ltb b a).
  pose proof (sort_desc_perm _ _ cf_name gt (map entry doc_files)) as Hperm.
  split; [|split; [|split]].
  - rewrite (Permutation_map cf_name Hperm), map_map. reflexivity.
  - intros f Hf. exists (entry f). repeat split.
    apply (Permutation_in _ (Permutation_sym Hperm)). now apply in_map.
  - apply (sort_desc_sorted
             _ _ cf_name gt (fun a b => String.leb b a) (fun _ => True)).
    + intros x y _ _. apply string_ltb_negb_leb.
    + intros x y _ _. destruct (String.leb_total x y); auto.
    + intros x y z _ _ _ H1 H2. exact (string_leb_trans z y x H2 H1).
    + apply Forall_forall. intros; exact I.
  - intros c uri Hc Hu. apply (Permutation_in _ Hperm) in Hc.
    apply in_map_iff in Hc as (f & <- & _). unfold entry in *.
    cbn [cf_resource_uri cf_description cf_name] in *.
    apply describe_context_file_resource.
    destruct (describe_context_file (doc_stem f)) as [d u].
    cbn [fst snd] in *. now rewrite Hu.
Qed.





(* ================================================================== *)
(** * The precomputed trigger counts *)

Lemma dict_set_keys {V : Type} (d : Dict.t V) (k : string) (v : V) :
  Dict.keys (Dict.set d k v)
  = if Py.mem k (Dict.keys d) then Dict.keys d else Dict.keys d ++ [k].
Proof.
  unfold Dict.keys, Py.mem. induction d as [|[k0 v0] d IH]; [reflexivity|].
  cbn [Dict.set map fst existsb].
  destruct (String.eqb k k0) eqn:E; cbn [orb map fst]; [reflexivity|].
  rewrite IH. destruct (existsb (String.eqb k) (map fst d)); reflexivity.
Qed.

Lemma dict_count_sum (d : Dict.t nat) (k : string) :
  list_sum (Dict.values (Dict.set d k (Dict.get_default d k 0 + 1)))
  = list_sum (Dict.values d) + 1.
Proof.
  unfold Dict.values, Dict.get_default, list_sum.
  induction d as [|[k0 v0] d IH]; [reflexivity|].
  cbn [Dict.set Dict.get].
  destruct (String.eqb k k0); cbn [map snd fold_right]; [lia|].
  rewrite IH. lia.
Qed.

Lemma count_loop_keys (triggers counted : list string) (d : Dict.t nat) :
  Dict.keys d = dedup counted ->
  list_sum (Dict.values d) = List.length counted ->
  Dict.keys (fold_left count_step triggers d) = dedup (counted ++ triggers)
  /\ list_sum (Dict.values (fold_left count_step triggers d))
     = List.length (counted ++ triggers).
Proof.
  revert counted d.
  induction triggers as [|x xs IH]; intros counted d Hk Hs; cbn [fold_left].
  - now rewrite app_nil_r.
  - replace (counted ++ x :: xs) with ((counted ++ [x]) ++ xs)
      by now rewrite <- app_assoc.
    apply IH.
    + unfold count_step. rewrite dict_set_keys, Hk, dedup_app.
      cbn [dedup filter].
      assert (E : Py.mem x (dedup counted) = Py.mem x counted).
      { destruct (Py.mem x counted) eqn:Em.
        - apply mem_In. apply dedup_In. now apply mem_In.
        - apply mem_false. intros Hin.
          apply (proj1 (dedup_In _ _)) in Hin.
          apply (proj2 (mem_In _ _)) in Hin. congruence. }
      rewrite E. destruct (Py.mem x counted); cbn [negb];
        [now rewrite app_nil_r | reflexivity].
    + unfold count_step. rewrite dict_count_sum, Hs, length_app. reflexivity.
Qed.

Lemma agent_loop_keys (infos : list AgentInfo) (counted : list string)
      (d : Dict.t nat) :
  Dict.keys d = dedup counted ->
  list_sum (Dict.values d) = List.length counted ->
  let counts :=
    fold_left (fun counts info =>
                 fold_left count_step (agent_triggers info) counts)
              infos d in
  Dict.keys counts
  = dedup (counted ++ List.concat (map agent_triggers infos))
  /\ list_sum (Dict.values counts)
     = List.length (counted ++ List.concat (map agent_triggers infos)).
Proof.
  cbv zeta. revert counted d.
  induction infos as [|i infos IH]; intros counted d Hk Hs;
    cbn [fold_left map List.concat].
  - now rewrite app_nil_r.
  - rewrite app_assoc.
    destruct (count_loop_keys (agent_triggers i) counted d Hk Hs).
    now apply IH.
Qed.

(** X18.  The counts [suggest_agent] computes before scoring: the
    dictionary has one key for each distinct trigger of the registry, in
    the order of first appearance; the value of a trigger is the number
    of times it is listed over the whole registry, never zero; and the
    values add up to the number of triggers listed. *)
Theorem trigger_counts_invariant :
  forall REGISTRY : Dict.t AgentInfo,
    let counts := trigger_agent_count REGISTRY in
    let listed := List.concat (map agent_triggers (Dict.values REGISTRY)) in
    Dict.keys counts = dedup listed
    /\ NoDup (Dict.keys counts)
    /\ (forall trigger,
           In trigger (Dict.keys counts)
           <-> exists key info,
               In (key, info) REGISTRY /\ In trigger (agent_triggers info))
    /\ (forall trigger n,
           In (trigger, n) counts ->
           1 <= n /\ n = count_occ string_dec listed trigger)
    /\ list_sum (Dict.values counts) = List.length listed.
Proof.
  intros REGISTRY counts listed.
  destruct (agent_loop_keys (Dict.values REGISTRY) [] [] eq_refl eq_refl)
    as [Hk Hs].
  cbn [app] in Hk, Hs. fold (trigger_agent_count REGISTRY) in Hk, Hs.
  fold counts in Hk, Hs. fold listed in Hk, Hs.
  assert (Hnd : NoDup (Dict.keys counts))
    by (rewrite Hk; apply dedup_NoDup).
  split; [exact Hk | split; [exact Hnd | split; [|split; [|exact Hs]]]].
  - intros t. rewrite Hk, dedup_In. unfold listed. rewrite in_concat.
    split.
    + intros (l & Hl & Ht). unfold Dict.values in Hl.
      rewrite map_map in Hl. apply in_map_iff in Hl as ([key info] & <- & Hi).
      now exists key, info.
    + intros (key & info & Hi & Ht). exists (agent_triggers info).
      split; [|exact Ht]. unfold Dict.values. rewrite map_map.
      apply in_map_iff. now exists (key, info).
  - intros t n Hin.
    apply (dict_get_In_NoDup counts t n Hnd) in Hin.
    unfold counts in Hin. rewrite trigger_agent_count_tally in Hin.
    unfold tally, all_triggers in Hin. fold listed in Hin.
    destruct (count_occ string_dec listed t); [discriminate|].
    injection Hin as <-. split; [lia | reflexivity].
Qed.
